(** * Phase4_Ultimate: the swap optimiser of the class-assignment engine

    A shallow embedding of [src/Phase4_Ultimate.js] (with the lists,
    predicates and profile helpers of [src/App.HarmonyConstants.js]) and the
    properties of its loader, cost function, feasibility oracle, partner
    selection, driver, saving and validator.

    Conventions of the embedding.
    - JavaScript numbers are exact rationals ([Q]), where the program has
      double-precision numbers: a sum of marks that are halves of integers
      (the marks 1 to 4, the default 2.5) is the same in both, other sums
      and the quotients agree up to rounding.  Headcounts ([.length], the
      per-class targets, which the context builder documents as
      "effectifs") are naturals, and quotas are integers.
    - A sheet cell is a [string]; the empty string stands for every falsy
      cell, so that [String(cell || '')] is the cell itself.  [trim] and
      [toUpperCase] are the ASCII ones.
    - A JavaScript object used as a dictionary is an association list in
      insertion order ([Object.keys] and [for .. in] enumerate it in that
      order, class names and codes not being array indices); inherited
      prototype keys are outside the model.
    - [undefined]/[null] is [None]; a [TypeError] raised by dereferencing it
      is the [None] outcome of a computation.
    - [Math.random()] is a draw from an explicit source [random : nat -> Q],
      read at an increasing position.
    - [Number(cell)] is a function [Number : string -> option Q] the loader
      is given, [None] being [NaN]. *)

From Stdlib Require Import List String Ascii Bool Arith ZArith QArith Qround Qabs Lia Lqa.
From Stdlib Require Import DecimalString Permutation.
Import ListNotations.

Local Open Scope string_scope.
Local Open Scope Q_scope.

(** ** JavaScript helpers *)

Module JS.

(** [arr.indexOf(x)]: the first position of [x], or [-1]. *)
Fixpoint indexOf_from (l : list string) (x : string) (k : Z) : Z :=
  match l with
  | [] => (-1)%Z
  | y :: t => if String.eqb y x then k else indexOf_from t x (k + 1)%Z
  end.

Definition indexOf (l : list string) (x : string) : Z := indexOf_from l x 0%Z.

(** [arr[i]] for a computed index: [undefined] outside the array. *)
Definition at_index {A : Type} (l : list A) (i : Z) : option A :=
  if (i <? 0)%Z then None else nth_error l (Z.to_nat i).

(** [obj[key]] on a dictionary. *)
Fixpoint get {V : Type} (o : list (string * V)) (k : string) : option V :=
  match o with
  | [] => None
  | (k', v) :: t => if String.eqb k' k then Some v else get t k
  end.

(** [obj[key] = v] on a dictionary: replaces in place, or appends a new key. *)
Fixpoint set {V : Type} (o : list (string * V)) (k : string) (v : V)
  : list (string * V) :=
  match o with
  | [] => [(k, v)]
  | (k', v') :: t =>
      if String.eqb k' k then (k', v) :: t else (k', v') :: set t k v
  end.

Definition keys {V : Type} (o : list (string * V)) : list string := map fst o.

(** [x || d] on numbers: [0] is the falsy number. *)
Definition or_number (x d : Q) : Q := if Qeq_bool x 0 then d else x.

(** [Math.floor(r * n)] *)
Definition floor_scaled (r : Q) (n : nat) : Z := Qfloor (r * inject_Z (Z.of_nat n)).

Definition is_space (c : ascii) : bool :=
  let n := nat_of_ascii c in
  ((9 <=? n) && (n <=? 13))%nat || (n =? 32)%nat.

Fixpoint trim_start (s : string) : string :=
  match s with
  | String c t => if is_space c then trim_start t else s
  | EmptyString => EmptyString
  end.

(** Drops the trailing blanks: a blank is kept only if something that is
    kept follows it. *)
Fixpoint trim_end (s : string) : string :=
  match s with
  | EmptyString => EmptyString
  | String c t =>
      match trim_end t with
      | EmptyString => if is_space c then EmptyString else String c EmptyString
      | t' => String c t'
      end
  end.

Definition trim (s : string) : string := trim_end (trim_start s).

Definition upper_ascii (c : ascii) : ascii :=
  let n := nat_of_ascii c in
  if ((97 <=? n) && (n <=? 122))%nat then ascii_of_nat (n - 32) else c.

Fixpoint toUpperCase (s : string) : string :=
  match s with
  | EmptyString => EmptyString
  | String c t => String (upper_ascii c) (toUpperCase t)
  end.

(** [hay.includes(needle)] *)
Fixpoint includes (hay needle : string) : bool :=
  String.prefix needle hay ||
  match hay with
  | EmptyString => false
  | String _ t => includes t needle
  end.

(** [x > y] and [x < y] on numbers. *)
Definition gt (x y : Q) : bool := negb (Qle_bool x y).
Definition lt (x y : Q) : bool := gt y x.

(** Truthiness of a string. *)
Definition truthy (s : string) : bool := negb (String.eqb s "").

End JS.

(** ** Data model *)

(** A student as built by [loadAndClassifyData_Ultimate] (the fields the
    optimiser reads). *)
Record student := mkStudent {
  row : list string;
  sexe : string;
  COM : Q;
  TRA : Q;
  PART : Q;
  mobilite : string;
  isHead : bool;
  isNiv1 : bool
}.

(** The result of [calculateGlobalStats_Ultimate]. *)
Record stats := mkStats {
  ratioF : Q;
  avgCOM : Q;
  avgTRA : Q;
  avgPART : Q
}.

(** The fields of [ctx] the optimiser reads; [targets] and [quotas] may be
    missing from the object. *)
Record context := mkContext {
  targets : option (list (string * N));
  quotas : option (list (string * list (string * Z)));
  lv2Universelles : list string
}.

(** [byClass]: class name to the indices (into [allData]) of its members. *)
Definition assignment := list (string * list nat).

(** ** Configuration: [ULTIMATE_CONFIG] *)

Module ULTIMATE_CONFIG.
Definition maxSwaps : nat := 2000.
Definition stagnationLimit : nat := 50.
Definition w_distrib : Q := 5.
Definition w_parity : Q := 4.
Definition w_profiles : Q := 10.
Definition w_friends : Q := 1000.
Definition headMin : Z := 2.
Definition headMax : Z := 5.
Definition niv1Max : Z := 4.
Definition niv1Min : Z := 0.
End ULTIMATE_CONFIG.

(** ** [App.HarmonyConstants.js] *)

Definition HARMONY_LV2_LIST : list string := ["ITA"; "ESP"; "ALL"; "PT"].
Definition HARMONY_OPT_LIST : list string := ["CHAV"; "LATIN"; "GREC"].

Definition isKnownLV2 (val : string) : bool :=
  (0 <=? JS.indexOf HARMONY_LV2_LIST val)%Z.

Definition isKnownOPT (val : string) : bool :=
  (0 <=? JS.indexOf HARMONY_OPT_LIST val)%Z.

(** ** The cost function *)

Definition Qnat (n : nat) : Q := inject_Z (Z.of_nat n).

Definition count {A : Type} (p : A -> bool) (l : list A) : nat :=
  List.length (filter p l).

(** [students.reduce((acc, s) => acc + (f(s) || 2.5), 0)] *)
Definition sum_or_default (f : student -> Q) (l : list student) : Q :=
  fold_left (fun acc s => acc + JS.or_number (f s) 2.5) l 0.

(** [students.reduce((sum, s) => sum + f(s), 0)] *)
Definition sum_field (f : student -> Q) (l : list student) : Q :=
  fold_left (fun acc s => acc + f s) l 0.

Definition is_F (s : student) : bool := String.eqb (sexe s) "F".

(** [indices.map(i => allData[i])]: every entry, [undefined] included. *)
Definition students_at (allData : list student) (indices : list nat)
  : list (option student) :=
  map (nth_error allData) indices.

(** All entries defined, or [None] when one is [undefined] (reading a field
    of it raises). *)
Fixpoint defined {A : Type} (l : list (option A)) : option (list A) :=
  match l with
  | [] => Some []
  | None :: _ => None
  | Some x :: t =>
      match defined t with
      | Some t' => Some (x :: t')
      | None => None
      end
  end.

(** [className && ctx && ctx.targets && ctx.targets[className]]: the target
    when all four are truthy. *)
Definition target_of (className : string) (ctx : option context) : option N :=
  if JS.truthy className then
    match ctx with
    | Some c =>
        match targets c with
        | Some tbl =>
            match JS.get tbl className with
            | Some t => if (t =? 0)%N then None else Some t
            | None => None
            end
        | None => None
        end
    | None => None
    end
  else None.

(** The body of [calculateScore_Ultimate] after the empty-class return, on
    the students of the class. *)
Definition score_of (students : list student) (globalStats : stats)
  (className : string) (ctx : option context) : Q :=
  let total := List.length students in
  let score := 0 in
  let score :=
    match target_of className ctx with
    | Some targetSize =>
        let sizeDiff := inject_Z (Z.of_nat total - Z.of_N targetSize) in
        score + sizeDiff ^ 2 * 800
    | None => score
    end in
  let nbTetes := Z.of_nat (count isHead students) in
  let nbNiv1 := Z.of_nat (count isNiv1 students) in
  let score :=
    if (nbTetes <? ULTIMATE_CONFIG.headMin)%Z
    then score + inject_Z (ULTIMATE_CONFIG.headMin - nbTetes) ^ 2 * 500
    else score in
  let score :=
    if (ULTIMATE_CONFIG.headMax <? nbTetes)%Z
    then score + inject_Z (nbTetes - ULTIMATE_CONFIG.headMax) * 200
    else score in
  let score :=
    if (ULTIMATE_CONFIG.niv1Max <? nbNiv1)%Z
    then score + inject_Z (nbNiv1 - ULTIMATE_CONFIG.niv1Max) ^ 3 * 100
    else score in
  let nbFilles := count is_F students in
  let ratioF_cls := Qnat nbFilles / Qnat total in
  let score :=
    score + Qabs (ratioF_cls - ratioF globalStats) * 1000 * ULTIMATE_CONFIG.w_parity in
  let avgCOM_cls := sum_or_default COM students / Qnat total in
  let avgTRA_cls := sum_or_default TRA students / Qnat total in
  let avgPART_cls := sum_or_default PART students / Qnat total in
  let score :=
    score + Qabs (avgCOM_cls - avgCOM globalStats) * 100 * ULTIMATE_CONFIG.w_distrib in
  let score :=
    score + Qabs (avgTRA_cls - avgTRA globalStats) * 100 * ULTIMATE_CONFIG.w_distrib in
  let score :=
    score + Qabs (avgPART_cls - JS.or_number (avgPART globalStats) 2.5) * 50
            * ULTIMATE_CONFIG.w_distrib in
  score.

(** [calculateScore_Ultimate(indices, allData, globalStats, className, ctx)];
    [None] when a member index has no student (a field of [undefined] is
    read). *)
Definition calculateScore_Ultimate (indices : list nat) (allData : list student)
  (globalStats : stats) (className : string) (ctx : option context) : option Q :=
  match indices with
  | [] => Some 10000
  | _ =>
      match defined (students_at allData indices) with
      | Some students => Some (score_of students globalStats className ctx)
      | None => None
      end
  end.

(** [calculateGlobalStats_Ultimate(allData)] *)
Definition calculateGlobalStats_Ultimate (allData : list student) : stats :=
  match allData with
  | [] => mkStats 0.5 2.5 2.5 2.5
  | _ =>
      let total := Qnat (List.length allData) in
      mkStats (Qnat (count is_F allData) / total)
              (sum_field COM allData / total)
              (sum_field TRA allData / total)
              (sum_or_default PART allData / total)
  end.

(** ** Computations that may raise *)

Definition obind {A B : Type} (m : option A) (k : A -> option B) : option B :=
  match m with
  | Some x => k x
  | None => None
  end.

Notation "x <-? m ;; k" := (obind m (fun x => k))
  (at level 61, m at next level, right associativity).

(** ** The feasibility oracle *)

(** [isFixed(student)] *)
Definition isFixed (s : student) : bool :=
  let mob := mobilite s in
  JS.includes mob "FIXE" || JS.includes mob "NON".

(** [String(r[i] || '').trim().toUpperCase()] *)
Definition cell (r : list string) (i : Z) : string :=
  JS.toUpperCase (JS.trim (match JS.at_index r i with Some c => c | None => "" end)).

(** The [filter] callbacks of the ASSO block: the members of [idxList] other
    than [self] whose ASSO code is [code].  The callback reads every other
    member, so one missing student raises. *)
Fixpoint asso_peers (allData : list student) (idxASSO : Z) (code : string)
  (self : nat) (idxList : list nat) : option (list nat) :=
  match idxList with
  | [] => Some []
  | idx :: t =>
      if (idx =? self)%nat
      then asso_peers allData idxASSO code self t
      else
        other <-? nth_error allData idx ;;
        rest <-? asso_peers allData idxASSO code self t ;;
        Some (if String.eqb (cell (row other) idxASSO) code
              then idx :: rest else rest)
  end.

(** The two DISSO loops: does a member of [idxList] other than [skip] carry
    the non-empty code [code]?  The loop returns at the first conflict. *)
Fixpoint disso_conflict (allData : list student) (idxDISSO : Z) (code : string)
  (skip : nat) (idxList : list nat) : option bool :=
  match idxList with
  | [] => Some false
  | idx :: t =>
      if (idx =? skip)%nat
      then disso_conflict allData idxDISSO code skip t
      else
        otherStudent <-? nth_error allData idx ;;
        let otherDisso := cell (row otherStudent) idxDISSO in
        if JS.truthy otherDisso && String.eqb otherDisso code
        then Some true
        else disso_conflict allData idxDISSO code skip t
  end.

(** [quotas[k] > 0]; its negation is [!quotas[k] || quotas[k] <= 0]. *)
Definition offered (q : list (string * Z)) (k : string) : bool :=
  match JS.get q k with
  | Some v => (0 <? v)%Z
  | None => false
  end.

(** [(ctx && ctx.quotas && ctx.quotas[cls]) || {}] *)
Definition quotas_of (ctx : option context) (cls : string) : list (string * Z) :=
  match ctx with
  | Some c =>
      match quotas c with
      | Some tbl => match JS.get tbl cls with Some q => q | None => [] end
      | None => []
      end
  | None => []
  end.

(** The elective block of the oracle, written once for "can the student
    with [lv2], [opt] enter the class with quotas [q]"; the source has it
    twice (for [s2] into [cls1], then for [s1] into [cls2]).  [true] when one
    of its three tests returns [false] from the oracle. *)
Definition elective_refused (q : list (string * Z)) (lv2U : list string)
  (lv2 opt : string) : bool :=
  (JS.truthy lv2 && (JS.indexOf lv2U lv2 =? -1)%Z && isKnownLV2 lv2
     && negb (offered q lv2))
  || (JS.truthy opt && isKnownOPT opt && negb (offered q opt))
  || (let classHasOptions := offered q "LATIN" || offered q "CHAV" in
      let studentHasNoOption :=
        negb (JS.truthy opt)
        || (negb (String.eqb opt "LATIN") && negb (String.eqb opt "CHAV")) in
      classHasOptions && studentHasNoOption && JS.truthy lv2
        && negb (String.eqb lv2 "ESP")).

(** [canSwapStudents_Ultimate(idx1, idx2, cls1Name, cls2Name, idxList1,
    idxList2, allData, headers, ctx)] *)
Definition canSwapStudents_Ultimate (idx1 idx2 : nat) (cls1Name cls2Name : string)
  (idxList1 idxList2 : list nat) (allData : list student)
  (headers : list string) (ctx : option context) : option bool :=
  let s1 := nth_error allData idx1 in
  let s2 := nth_error allData idx2 in
  let idxLV2 := JS.indexOf headers "LV2" in
  let idxOPT := JS.indexOf headers "OPT" in
  let idxDISSO := JS.indexOf headers "DISSO" in
  let idxASSO := JS.indexOf headers "ASSO" in
  asso_blocks <-?
    (if (0 <=? idxASSO)%Z then
       st1 <-? s1 ;;
       st2 <-? s2 ;;
       let asso_s1 := cell (row st1) idxASSO in
       let asso_s2 := cell (row st2) idxASSO in
       blocked1 <-?
         (if JS.truthy asso_s1 then
            pairsInCls1 <-? asso_peers allData idxASSO asso_s1 idx1 idxList1 ;;
            Some (0 <? List.length pairsInCls1)%nat
          else Some false) ;;
       if blocked1 then Some true
       else if JS.truthy asso_s2 then
         pairsInCls2 <-? asso_peers allData idxASSO asso_s2 idx2 idxList2 ;;
         Some (0 <? List.length pairsInCls2)%nat
       else Some false
     else Some false) ;;
  if asso_blocks then Some false
  else if (idxDISSO =? -1)%Z then Some false
  else
    st1 <-? s1 ;;
    st2 <-? s2 ;;
    let lv2_s1 := cell (row st1) idxLV2 in
    let opt_s1 := cell (row st1) idxOPT in
    let lv2_s2 := cell (row st2) idxLV2 in
    let opt_s2 := cell (row st2) idxOPT in
    let disso_s1 := cell (row st1) idxDISSO in
    let disso_s2 := cell (row st2) idxDISSO in
    let quotas1 := quotas_of ctx cls1Name in
    let lv2U := match ctx with Some c => lv2Universelles c | None => [] end in
    if elective_refused quotas1 lv2U lv2_s2 opt_s2 then Some false
    else
      let quotas2 := quotas_of ctx cls2Name in
      if elective_refused quotas2 lv2U lv2_s1 opt_s1 then Some false
      else
        conflict1 <-?
          (if JS.truthy disso_s1
           then disso_conflict allData idxDISSO disso_s1 idx2 idxList2
           else Some false) ;;
        if conflict1 then Some false
        else
          conflict2 <-?
            (if JS.truthy disso_s2
             then disso_conflict allData idxDISSO disso_s2 idx1 idxList1
             else Some false) ;;
          if conflict2 then Some false else Some true.

(** ** Randomised computations *)

(** A computation that draws from the random source: it starts at a
    position of the source and either raises or returns a value and the next
    position. *)
Definition Rand (A : Type) : Type := nat -> option (A * nat).

Definition ret {A : Type} (x : A) : Rand A := fun n => Some (x, n).

Definition bind {A B : Type} (m : Rand A) (k : A -> Rand B) : Rand B :=
  fun n => match m n with
           | Some (x, n') => k x n'
           | None => None
           end.

(** A pure step that may raise. *)
Definition lift {A : Type} (o : option A) : Rand A :=
  fun n => match o with
           | Some x => Some (x, n)
           | None => None
           end.

Notation "x <- m ;; k" := (bind m (fun x => k))
  (at level 61, m at next level, right associativity).

(** [for (let i = 0; i < n; i++) body]: the counter is read by no body of
    this program.  The body returns the new loop state and whether it ran
    [break]; [continue] is a plain return. *)
Fixpoint for_loop {St : Type} (n : nat) (body : St -> Rand (St * bool)) (st : St)
  : Rand St :=
  match n with
  | O => ret st
  | S n' =>
      r <- body st ;;
      if snd r then ret (fst r) else for_loop n' body (fst r)
  end.

(** A two-way move, as [findBestSwapBetween_Ultimate] returns it (without
    the [reason] text, which is only logged). *)
Record swap := mkSwap {
  idx1 : nat;
  idx2 : nat;
  cls1 : string;
  cls2 : string;
  gain : Q
}.

(** A three-way move: [a] of [c1] to [c2], [b] of [c2] to [c3], [c] of [c3]
    to [c1]. *)
Record rotation := mkRotation {
  rot_a : nat;
  rot_b : nat;
  rot_c : nat;
  rot_c1 : string;
  rot_c2 : string;
  rot_c3 : string
}.

(** [list.filter(x => x !== a).concat([b])] *)
Definition replace_member (l : list nat) (a b : nat) : list nat :=
  (filter (fun x => negb (x =? a)%nat) l ++ [b])%list.

(** [Object.keys(byClass).filter(c => c !== worstClass)] *)
Definition other_classes (byClass : assignment) (worstClass : string) : list string :=
  filter (fun c => negb (String.eqb c worstClass)) (JS.keys byClass).

(** [findWorstClass_Ultimate(byClass, allData, globalStats, ctx)]: the loop
    state is [(maxScore, worstClass)]. *)
Fixpoint findWorstClass_loop (entries : assignment) (allData : list student)
  (globalStats : stats) (ctx : option context) (maxScore : Q)
  (worstClass : option string) : option (option string) :=
  match entries with
  | [] => Some worstClass
  | (cls, indices) :: t =>
      score <-? calculateScore_Ultimate indices allData globalStats cls ctx ;;
      if JS.gt score maxScore
      then findWorstClass_loop t allData globalStats ctx score (Some cls)
      else findWorstClass_loop t allData globalStats ctx maxScore worstClass
  end.

Definition findWorstClass_Ultimate (byClass : assignment) (allData : list student)
  (globalStats : stats) (ctx : option context) : option (option string) :=
  findWorstClass_loop byClass allData globalStats ctx (-1) None.

(** The complementarity of a class with the worst class, from the counts and
    means of both (the body of the loop of [findPartnerClass_Ultimate]). *)
Definition complementarity (globalStats : stats)
  (worstNbTetes worstNbNiv1 : Z) (worstRatioF worstAvgCOM : Q)
  (clsNbTetes clsNbNiv1 : Z) (clsRatioF clsAvgCOM : Q) : Q :=
  let comp := 0 in
  let teteDiff := ((worstNbTetes - ULTIMATE_CONFIG.headMin)
                   - (clsNbTetes - ULTIMATE_CONFIG.headMin))%Z in
  let comp := comp + inject_Z (Z.abs teteDiff) * 3 in
  let niv1Diff := ((worstNbNiv1 - ULTIMATE_CONFIG.niv1Max)
                   - (clsNbNiv1 - ULTIMATE_CONFIG.niv1Max))%Z in
  let comp := comp + inject_Z (Z.abs niv1Diff) * 3 in
  let comp :=
    if (JS.gt worstRatioF (ratioF globalStats) && JS.lt clsRatioF (ratioF globalStats))
       || (JS.lt worstRatioF (ratioF globalStats) && JS.gt clsRatioF (ratioF globalStats))
    then comp + 2 else comp in
  let comp :=
    if (JS.gt worstAvgCOM (avgCOM globalStats) && JS.lt clsAvgCOM (avgCOM globalStats))
       || (JS.lt worstAvgCOM (avgCOM globalStats) && JS.gt clsAvgCOM (avgCOM globalStats))
    then comp + Qabs (worstAvgCOM - clsAvgCOM) * 2 else comp in
  comp.

(** The loop over the other classes of [findPartnerClass_Ultimate]; the
    state is [(bestComplementarity, bestPartner)], [None] being
    [-Infinity]. *)
Fixpoint findPartner_loop (classes : list string) (byClass : assignment)
  (allData : list student) (globalStats : stats)
  (worstNbTetes worstNbNiv1 : Z) (worstRatioF worstAvgCOM : Q)
  (bestComplementarity : option Q) (bestPartner : option string)
  : option (option string) :=
  match classes with
  | [] => Some bestPartner
  | cls :: t =>
      indices <-? JS.get byClass cls ;;
      match indices with
      | [] => findPartner_loop t byClass allData globalStats worstNbTetes
                worstNbNiv1 worstRatioF worstAvgCOM bestComplementarity bestPartner
      | _ =>
          clsStudents <-? defined (students_at allData indices) ;;
          let clsTotal := Qnat (List.length clsStudents) in
          let clsNbTetes := Z.of_nat (count isHead clsStudents) in
          let clsNbNiv1 := Z.of_nat (count isNiv1 clsStudents) in
          let clsRatioF := Qnat (count is_F clsStudents) / clsTotal in
          let clsAvgCOM := sum_field COM clsStudents / clsTotal in
          let comp := complementarity globalStats worstNbTetes worstNbNiv1
                        worstRatioF worstAvgCOM clsNbTetes clsNbNiv1 clsRatioF
                        clsAvgCOM in
          let better := match bestComplementarity with
                        | None => true
                        | Some best => JS.gt comp best
                        end in
          if better
          then findPartner_loop t byClass allData globalStats worstNbTetes
                 worstNbNiv1 worstRatioF worstAvgCOM (Some comp) (Some cls)
          else findPartner_loop t byClass allData globalStats worstNbTetes
                 worstNbNiv1 worstRatioF worstAvgCOM bestComplementarity bestPartner
      end
  end.

(** [applySwap_Ultimate(allData, byClass, swap, headers)]: the log lines
    read the headers and both students, then the two lists are rewritten one
    after the other. *)
Definition applySwap_Ultimate (allData : list student) (byClass : assignment)
  (sw : swap) (headers : option (list string)) : option assignment :=
  _s1 <-? nth_error allData (idx1 sw) ;;
  _s2 <-? nth_error allData (idx2 sw) ;;
  _h <-? headers ;;
  l1 <-? JS.get byClass (cls1 sw) ;;
  let byClass := JS.set byClass (cls1 sw) (replace_member l1 (idx1 sw) (idx2 sw)) in
  l2 <-? JS.get byClass (cls2 sw) ;;
  Some (JS.set byClass (cls2 sw) (replace_member l2 (idx2 sw) (idx1 sw))).

(** The three assignments that apply a rotation. *)
Definition applyRotation (byClass : assignment) (r : rotation) : option assignment :=
  l1 <-? JS.get byClass (rot_c1 r) ;;
  let byClass := JS.set byClass (rot_c1 r) (replace_member l1 (rot_a r) (rot_c r)) in
  l2 <-? JS.get byClass (rot_c2 r) ;;
  let byClass := JS.set byClass (rot_c2 r) (replace_member l2 (rot_b r) (rot_a r)) in
  l3 <-? JS.get byClass (rot_c3 r) ;;
  Some (JS.set byClass (rot_c3 r) (replace_member l3 (rot_c r) (rot_b r))).

(** *** The validator *)

(** A duplication found by the validator. *)
Record duplicate := mkDuplicate {
  dup_classe : string;
  dup_code : string;
  dup_count : nat;
  dup_noms : list string
}.

Record validation := mkValidation {
  v_ok : bool;
  v_duplicates : list duplicate
}.

(** [dissoCounts[disso].count++; dissoCounts[disso].noms.push(nom)], creating
    the entry first when it is missing. *)
Fixpoint count_code (dissoCounts : list (string * (nat * list string)))
  (disso nom : string) : list (string * (nat * list string)) :=
  match dissoCounts with
  | [] => [(disso, (1%nat, [nom]))]
  | (code, (n, noms)) :: t =>
      if String.eqb code disso
      then (code, (S n, (noms ++ [nom])%list)) :: t
      else (code, (n, noms)) :: count_code t disso nom
  end.

Definition display_name (st : student) (idxNom : Z) (idx : nat) : string :=
  if (0 <=? idxNom)%Z
  then match JS.at_index (row st) idxNom with Some c => c | None => "" end
  else "Élève " ++ NilEmpty.string_of_uint (Nat.to_uint idx).

Fixpoint class_disso_counts (allData : list student) (idxDISSO idxNom : Z)
  (indices : list nat) (dissoCounts : list (string * (nat * list string)))
  : option (list (string * (nat * list string))) :=
  match indices with
  | [] => Some dissoCounts
  | idx :: t =>
      st <-? nth_error allData idx ;;
      let disso := cell (row st) idxDISSO in
      if JS.truthy disso
      then class_disso_counts allData idxDISSO idxNom t
             (count_code dissoCounts disso (display_name st idxNom idx))
      else class_disso_counts allData idxDISSO idxNom t dissoCounts
  end.

Definition class_duplicates (cls : string)
  (dissoCounts : list (string * (nat * list string))) : list duplicate :=
  map (fun e => mkDuplicate cls (fst e) (fst (snd e)) (snd (snd e)))
      (filter (fun e => (1 <? fst (snd e))%nat) dissoCounts).

Fixpoint all_duplicates (allData : list student) (idxDISSO idxNom : Z)
  (entries : assignment) : option (list duplicate) :=
  match entries with
  | [] => Some []
  | (cls, indices) :: t =>
      counts <-? class_disso_counts allData idxDISSO idxNom indices [] ;;
      rest <-? all_duplicates allData idxDISSO idxNom t ;;
      Some (class_duplicates cls counts ++ rest)%list
  end.

(** [validateDISSOConstraints_Ultimate(allData, byClass, headers)]; a [null]
    [headers] raises at its first line. *)
Definition validateDISSOConstraints_Ultimate (allData : list student)
  (byClass : assignment) (headers : option (list string)) : option validation :=
  h <-? headers ;;
  let idxDISSO := JS.indexOf h "DISSO" in
  let idxNom := JS.indexOf h "NOM" in
  if (idxDISSO =? -1)%Z then Some (mkValidation true [])
  else
    duplicates <-? all_duplicates allData idxDISSO idxNom byClass ;;
    Some (mkValidation (match duplicates with [] => true | _ => false end) duplicates).

(** *** Saving *)

Record save_result := mkSave {
  s_ok : bool;
  successCount : nat;
  errorCount : nat
}.

(** [saveResults_Ultimate]: the spreadsheet is [sheet], which tells for a
    sheet name whether the sheet exists ([None] when it does not) and whether
    writing to it succeeds.  A failure inside [try] (a member without a
    student, a write that raises) is counted, not raised. *)
Definition saveResults_Ultimate (sheet : string -> option bool)
  (allData : list student) (byClass : assignment) (headersRef : option (list string))
  : save_result :=
  match headersRef with
  | None | Some [] => mkSave false 0 0
  | Some _ =>
      let written (e : string * list nat) : bool :=
        match sheet (fst e ++ "TEST") with
        | None => false
        | Some w =>
            match defined (students_at allData (snd e)) with
            | Some _ => w
            | None => false
            end
        end in
      let successCount := count written byClass in
      let errorCount := count (fun e => negb (written e)) byClass in
      mkSave (errorCount =? 0)%nat successCount errorCount
  end.

(** ** The search and the driver *)

(** The state of the two loops of [Phase4_Ultimate_Run]. *)
Record driver_state := mkDriver {
  st_byClass : assignment;
  st_swapsApplied : nat;
  st_stagnation : nat;
  st_swaps3Way : nat
}.

(** What [loadAndClassifyData_Ultimate] returns; [headers] is [null] when no
    sheet had a data row. *)
Record dataResult := mkData {
  data_ok : bool;
  data_allData : list student;
  data_byClass : assignment;
  data_headers : option (list string)
}.

(** What [Phase4_Ultimate_Run] returns. *)
Inductive run_result :=
| RunFailed (message : string)
| RunDone (swapsApplied swaps3Way : nat) (saveResult : save_result)
    (validationResult : validation).

Definition result_ok (r : run_result) : bool :=
  match r with
  | RunFailed _ => false
  | RunDone _ _ _ _ => true
  end.

Definition option_string_eqb (x y : option string) : bool :=
  match x, y with
  | Some a, Some b => String.eqb a b
  | None, None => true
  | _, _ => false
  end.

(** [!key] for a class key: [null], [undefined] and the empty name. *)
Definition usable (key : option string) : option string :=
  match key with
  | Some k => if JS.truthy k then Some k else None
  | None => None
  end.

(** Lines 269-284 of [findBestSwapBetween_Ultimate] for the first student
    [i1] and one sampled second student: [Some None] when the pair is
    skipped by a [continue], [Some (Some swap)] when the swap is scored. *)
Definition evaluate_swap (i1 : nat) (i2 : option nat) (cls1Name cls2Name : string)
  (idxList1 idxList2 : list nat) (allData : list student)
  (headers : option (list string)) (globalStats : stats) (ctx : option context)
  (scoreBefore : Q) : option (option swap) :=
  v2 <-? i2 ;;
  s2 <-? nth_error allData v2 ;;
  if isFixed s2 then Some None
  else
    h <-? headers ;;
    can <-? canSwapStudents_Ultimate i1 v2 cls1Name cls2Name idxList1 idxList2
              allData h ctx ;;
    if negb can then Some None
    else
      let tempList1 := replace_member idxList1 i1 v2 in
      let tempList2 := replace_member idxList2 v2 i1 in
      after1 <-? calculateScore_Ultimate tempList1 allData globalStats cls1Name ctx ;;
      after2 <-? calculateScore_Ultimate tempList2 allData globalStats cls2Name ctx ;;
      let scoreAfter := after1 + after2 in
      let gain := scoreBefore - scoreAfter in
      Some (Some (mkSwap i1 v2 cls1Name cls2Name gain)).

(** The type of [canSwapStudents_Ultimate]. *)
Definition feasibility_check : Type :=
  nat -> nat -> string -> string -> list nat -> list nat ->
  list student -> list string -> option context -> option bool.

(** Lines 124-139 of the three-way phase for one sampled triple: [Some None]
    when the triple is skipped by a [continue], [Some (Some gain3)] when the
    rotation is scored.  The function called at lines 127 and 128 is the
    argument [check], so that what these lines ask of it can be stated; the
    driver passes [canSwapStudents_Ultimate]. *)
Definition evaluate_rotation_with (check : feasibility_check)
  (a b c : option nat) (c1 c2 c3 : string)
  (l1 l2 l3 : list nat) (allData : list student) (headers : option (list string))
  (globalStats : stats) (ctx : option context) (scoreBefore3 : Q)
  : option (option (rotation * Q)) :=
  va <-? a ;;
  sa <-? nth_error allData va ;;
  if isFixed sa then Some None
  else
    vb <-? b ;;
    sb <-? nth_error allData vb ;;
    if isFixed sb then Some None
    else
      vc <-? c ;;
      sc <-? nth_error allData vc ;;
      if isFixed sc then Some None
      else
        h <-? headers ;;
        can1 <-? check va vb c1 c2 l1 l2 allData h ctx ;;
        if negb can1 then Some None
        else
          can2 <-? check vb vc c2 c3 l2 l3 allData h ctx ;;
          if negb can2 then Some None
          else
            let tempC1 := replace_member l1 va vc in
            let tempC2 := replace_member l2 vb va in
            let tempC3 := replace_member l3 vc vb in
            after1 <-? calculateScore_Ultimate tempC1 allData globalStats c1 ctx ;;
            after2 <-? calculateScore_Ultimate tempC2 allData globalStats c2 ctx ;;
            after3 <-? calculateScore_Ultimate tempC3 allData globalStats c3 ctx ;;
            let scoreAfter3 := after1 + after2 + after3 in
            Some (Some (mkRotation va vb vc c1 c2 c3, scoreBefore3 - scoreAfter3)).

(** Lines 124-139 as the driver runs them. *)
Definition evaluate_rotation (a b c : option nat) (c1 c2 c3 : string)
  (l1 l2 l3 : list nat) (allData : list student) (headers : option (list string))
  (globalStats : stats) (ctx : option context) (scoreBefore3 : Q)
  : option (option (rotation * Q)) :=
  evaluate_rotation_with canSwapStudents_Ultimate a b c c1 c2 c3 l1 l2 l3
    allData headers globalStats ctx scoreBefore3.

Section Engine.

(** The random source: [random n] is the value of the [n]-th call of
    [Math.random()]. *)
Variable random : nat -> Q.

(** The spreadsheet as [saveResults_Ultimate] sees it. *)
Variable sheet : string -> option bool.

Definition Math_random : Rand Q := fun n => Some (random n, S n).

(** [arr[Math.floor(Math.random() * arr.length)]] *)
Definition pick {A : Type} (arr : list A) : Rand (option A) :=
  r <- Math_random ;;
  ret (JS.at_index arr (JS.floor_scaled r (List.length arr))).

(** [findPartnerClass_Ultimate(worstClass, byClass, allData, globalStats)] *)
Definition findPartnerClass_Ultimate (worstClass : string) (byClass : assignment)
  (allData : list student) (globalStats : stats) : Rand (option string) :=
  let classes := other_classes byClass worstClass in
  match classes with
  | [] => ret None
  | _ =>
      worstIndices <- lift (JS.get byClass worstClass) ;;
      match worstIndices with
      | [] => ret None
      | _ =>
          worstStudents <- lift (defined (students_at allData worstIndices)) ;;
          let worstTotal := Qnat (List.length worstStudents) in
          let worstNbTetes := Z.of_nat (count isHead worstStudents) in
          let worstNbNiv1 := Z.of_nat (count isNiv1 worstStudents) in
          let worstRatioF := Qnat (count is_F worstStudents) / worstTotal in
          let worstAvgCOM := sum_field COM worstStudents / worstTotal in
          bestPartner <- lift (findPartner_loop classes byClass allData globalStats
                                 worstNbTetes worstNbNiv1 worstRatioF worstAvgCOM
                                 None None) ;;
          r <- Math_random ;;
          if JS.lt r 0.2 then pick classes else ret bestPartner
      end
  end.

(** The body of the inner loop of [findBestSwapBetween_Ultimate], for the
    first student [i1]; the state is [(bestSwap, maxGain)]. *)
Definition try_pair (i1 : nat) (cls1Name cls2Name : string)
  (idxList1 idxList2 : list nat) (allData : list student)
  (headers : option (list string)) (globalStats : stats) (ctx : option context)
  (scoreBefore : Q) (st : option swap * Q) : Rand ((option swap * Q) * bool) :=
  i2 <- pick idxList2 ;;
  scored <- lift (evaluate_swap i1 i2 cls1Name cls2Name idxList1 idxList2 allData
                    headers globalStats ctx scoreBefore) ;;
  match scored with
  | None => ret (st, false)
  | Some sw =>
      if JS.gt (gain sw) (snd st) then ret ((Some sw, gain sw), false)
      else ret (st, false)
  end.

(** The body of its outer loop. *)
Definition try_first (sampleSize : nat) (cls1Name cls2Name : string)
  (idxList1 idxList2 : list nat) (allData : list student)
  (headers : option (list string)) (globalStats : stats) (ctx : option context)
  (scoreBefore : Q) (st : option swap * Q) : Rand ((option swap * Q) * bool) :=
  picked <- pick idxList1 ;;
  i1 <- lift picked ;;
  s1 <- lift (nth_error allData i1) ;;
  if isFixed s1 then ret (st, false)
  else
    st' <- for_loop sampleSize
             (try_pair i1 cls1Name cls2Name idxList1 idxList2 allData headers
                globalStats ctx scoreBefore) st ;;
    ret (st', false).

(** [findBestSwapBetween_Ultimate(cls1Name, cls2Name, allData, byClass,
    headers, globalStats, ctx)] *)
Definition findBestSwapBetween_Ultimate (cls1Name cls2Name : string)
  (allData : list student) (byClass : assignment) (headers : option (list string))
  (globalStats : stats) (ctx : option context) : Rand (option swap) :=
  idxList1 <- lift (JS.get byClass cls1Name) ;;
  before1 <- lift (calculateScore_Ultimate idxList1 allData globalStats cls1Name ctx) ;;
  idxList2 <- lift (JS.get byClass cls2Name) ;;
  before2 <- lift (calculateScore_Ultimate idxList2 allData globalStats cls2Name ctx) ;;
  let scoreBefore := before1 + before2 in
  let sampleSize := Nat.min 25 (Nat.max (List.length idxList1) (List.length idxList2)) in
  st <- for_loop sampleSize
          (try_first sampleSize cls1Name cls2Name idxList1 idxList2 allData headers
             globalStats ctx scoreBefore) (None, 0) ;;
  ret (fst st).

(** One iteration of the two-way loop of [Phase4_Ultimate_Run]. *)
Definition twoWay_body (allData : list student) (headers : option (list string))
  (globalStats : stats) (ctx : context) (st : driver_state)
  : Rand (driver_state * bool) :=
  let byClass := st_byClass st in
  worst <- lift (findWorstClass_Ultimate byClass allData globalStats (Some ctx)) ;;
  match usable worst with
  | None => ret (st, true)
  | Some worstClassKey =>
      partner <- findPartnerClass_Ultimate worstClassKey byClass allData globalStats ;;
      match usable partner with
      | None =>
          let stagnationCount := S (st_stagnation st) in
          ret (mkDriver byClass (st_swapsApplied st) stagnationCount (st_swaps3Way st),
               (10 <? stagnationCount)%nat)
      | Some partnerClassKey =>
          bestSwap <- findBestSwapBetween_Ultimate worstClassKey partnerClassKey
                        allData byClass headers globalStats (Some ctx) ;;
          st' <-
            match bestSwap with
            | Some sw =>
                if JS.gt (gain sw) 0.0001 then
                  byClass' <- lift (applySwap_Ultimate allData byClass sw headers) ;;
                  ret (mkDriver byClass' (S (st_swapsApplied st)) 0 (st_swaps3Way st))
                else
                  ret (mkDriver byClass (st_swapsApplied st) (S (st_stagnation st))
                         (st_swaps3Way st))
            | None =>
                ret (mkDriver byClass (st_swapsApplied st) (S (st_stagnation st))
                       (st_swaps3Way st))
            end ;;
          ret (st', (ULTIMATE_CONFIG.stagnationLimit <=? st_stagnation st')%nat)
      end
  end.

(** The body of the loop over [s]; the state is [(bestGain3U, best3WayU)]. *)
Definition try_rotation (c1 c2 c3 : string) (l1 l2 l3 : list nat)
  (allData : list student) (headers : option (list string))
  (globalStats : stats) (ctx : option context) (scoreBefore3 : Q)
  (st : Q * option rotation) : Rand ((Q * option rotation) * bool) :=
  a <- pick l1 ;;
  b <- pick l2 ;;
  c <- pick l3 ;;
  scored <- lift (evaluate_rotation a b c c1 c2 c3 l1 l2 l3 allData headers
                    globalStats ctx scoreBefore3) ;;
  match scored with
  | None => ret (st, false)
  | Some (r, gain3) =>
      if JS.gt gain3 (fst st) then ret ((gain3, Some r), false) else ret (st, false)
  end.

(** The body of the loop over [t]. *)
Definition try_classes (classNamesU : list string) (byClass : assignment)
  (allData : list student) (headers : option (list string))
  (globalStats : stats) (ctx : option context)
  (st : Q * option rotation) : Rand ((Q * option rotation) * bool) :=
  k1 <- pick classNamesU ;;
  k2 <- pick classNamesU ;;
  k3 <- pick classNamesU ;;
  if option_string_eqb k1 k2 || option_string_eqb k2 k3 || option_string_eqb k1 k3
  then ret (st, false)
  else
    c1 <- lift k1 ;;
    l1 <- lift (JS.get byClass c1) ;;
    match l1 with
    | [] => ret (st, false)
    | _ =>
        c2 <- lift k2 ;;
        l2 <- lift (JS.get byClass c2) ;;
        match l2 with
        | [] => ret (st, false)
        | _ =>
            c3 <- lift k3 ;;
            l3 <- lift (JS.get byClass c3) ;;
            match l3 with
            | [] => ret (st, false)
            | _ =>
                before1 <- lift (calculateScore_Ultimate l1 allData globalStats c1 ctx) ;;
                before2 <- lift (calculateScore_Ultimate l2 allData globalStats c2 ctx) ;;
                before3 <- lift (calculateScore_Ultimate l3 allData globalStats c3 ctx) ;;
                let scoreBefore3 := before1 + before2 + before3 in
                st' <- for_loop 10
                         (try_rotation c1 c2 c3 l1 l2 l3 allData headers globalStats
                            ctx scoreBefore3) st ;;
                ret (st', false)
            end
        end
    end.

(** One iteration of the three-way loop. *)
Definition threeWay_body (classNamesU : list string) (allData : list student)
  (headers : option (list string)) (globalStats : stats) (ctx : context)
  (st : driver_state) : Rand (driver_state * bool) :=
  let byClass := st_byClass st in
  best <- for_loop 15
            (try_classes classNamesU byClass allData headers globalStats (Some ctx))
            (0.001, None) ;;
  match snd best with
  | None => ret (st, true)
  | Some r =>
      byClass' <- lift (applyRotation byClass r) ;;
      ret (mkDriver byClass' (S (st_swapsApplied st)) (st_stagnation st)
             (S (st_swaps3Way st)), false)
  end.

(** [Phase4_Ultimate_Run(ctx)], from the data its loader returned; with the
    result comes the final [byClass], which [saveResults_Ultimate] writes
    out. *)
Definition Phase4_Ultimate_Run (ctx : context) (dataResult : dataResult)
  : Rand (run_result * assignment) :=
  if negb (data_ok dataResult)
  then ret (RunFailed "Erreur chargement données", data_byClass dataResult)
  else
    let allData := data_allData dataResult in
    let byClass := data_byClass dataResult in
    let headers := data_headers dataResult in
    let globalStats := calculateGlobalStats_Ultimate allData in
    st <- for_loop ULTIMATE_CONFIG.maxSwaps
            (twoWay_body allData headers globalStats ctx)
            (mkDriver byClass 0 0 0) ;;
    let classNamesU := JS.keys (st_byClass st) in
    st <- for_loop 200
            (threeWay_body classNamesU allData headers globalStats ctx) st ;;
    let byClass := st_byClass st in
    let saveResult := saveResults_Ultimate sheet allData byClass headers in
    validationResult <- lift (validateDISSOConstraints_Ultimate allData byClass headers) ;;
    ret (RunDone (st_swapsApplied st) (st_swaps3Way st) saveResult validationResult,
         byClass).

End Engine.

(** ** The cost function as the specification words it *)

Module Spec.

(** The sum of the numbers of a list. *)
Definition Qsum (l : list Q) : Q := fold_right Qplus 0 l.

(** The class mean of a criterion, a missing (zero) score counting 2.5. *)
Definition mean (f : student -> Q) (students : list student) : Q :=
  Qsum (map (fun s => JS.or_number (f s) 2.5) students) / Qnat (List.length students).

(** The share of girls in the class. *)
Definition ratio_F (students : list student) : Q :=
  Qnat (count is_F students) / Qnat (List.length students).

Definition head_min : Z := 2.
Definition head_max : Z := 5.
Definition niv1_max : Z := 4.

(** The terms that do not involve the headcount target. *)
Definition profile_terms (students : list student) (cohort : stats) (cohortPART : Q) : Q :=
  let h := Z.of_nat (count isHead students) in
  let l := Z.of_nat (count isNiv1 students) in
  (if (h <? head_min)%Z then inject_Z (head_min - h) ^ 2 * 500 else 0)
  + (if (head_max <? h)%Z then inject_Z (h - head_max) * 200 else 0)
  + (if (niv1_max <? l)%Z then inject_Z (l - niv1_max) ^ 3 * 100 else 0)
  + Qabs (ratio_F students - ratioF cohort) * 1000 * 4.0
  + Qabs (mean COM students - avgCOM cohort) * 100 * 5.0
  + Qabs (mean TRA students - avgTRA cohort) * 100 * 5.0
  + Qabs (mean PART students - cohortPART) * 50 * 5.0.

(** The headcount term for a class of [n] members and target [target]. *)
Definition headcount_term (n : nat) (target : N) : Q :=
  inject_Z (Z.of_nat n - Z.of_N target) ^ 2 * 800.

(** The sum as the specification states it: every term, the headcount term
    included (for whatever number the target of the class is), against the
    cohort statistics as they are. *)
Definition claimed_score (target : Q) (students : list student) (cohort : stats) : Q :=
  match students with
  | [] => 10000
  | _ => (Qnat (List.length students) - target) ^ 2 * 800
         + profile_terms students cohort (avgPART cohort)
  end.

(** The sum the code computes: the headcount term only for a class that has
    a target, and 2.5 standing for a zero cohort mean of PART. *)
Definition amended_score (target : option N) (students : list student) (cohort : stats) : Q :=
  match students with
  | [] => 10000
  | _ => match target with
         | Some t => headcount_term (List.length students) t
         | None => 0
         end
         + profile_terms students cohort (JS.or_number (avgPART cohort) 2.5)
  end.

End Spec.

(** A computation returned the number [y] (up to the equality of
    fractions). *)
Definition returns (x : option Q) (y : Q) : Prop :=
  match x with
  | Some q => q == y
  | None => False
  end.

(** ** The moves the driver applies *)

Section Moves.

Variables (allData : list student) (headers : option (list string)).
Variables (globalStats : stats) (ctx : option context).

(** The sum over all classes of [calculateScore_Ultimate]. *)
Fixpoint total_score (entries : assignment) : option Q :=
  match entries with
  | [] => Some 0
  | (cls, indices) :: t =>
      score <-? calculateScore_Ultimate indices allData globalStats cls ctx ;;
      rest <-? total_score t ;;
      Some (score + rest)
  end.

(** A swap scored by [findBestSwapBetween_Ultimate] between the classes
    [c1] and [c2] of members [l1] and [l2]. *)
Definition candidate (c1 c2 : string) (l1 l2 : list nat) (scoreBefore : Q)
  (sw : swap) : Prop :=
  cls1 sw = c1 /\ cls2 sw = c2
  /\ In (idx1 sw) l1 /\ In (idx2 sw) l2
  /\ (exists s1, nth_error allData (idx1 sw) = Some s1 /\ isFixed s1 = false)
  /\ evaluate_swap (idx1 sw) (Some (idx2 sw)) c1 c2 l1 l2 allData headers
       globalStats ctx scoreBefore = Some (Some sw).

(** A swap scored between two distinct classes of [byClass], against the
    score of both. *)
Definition swap_found (byClass : assignment) (sw : swap) : Prop :=
  exists (l1 l2 : list nat) (before1 before2 : Q),
    cls1 sw <> cls2 sw
    /\ JS.get byClass (cls1 sw) = Some l1
    /\ JS.get byClass (cls2 sw) = Some l2
    /\ calculateScore_Ultimate l1 allData globalStats (cls1 sw) ctx = Some before1
    /\ calculateScore_Ultimate l2 allData globalStats (cls2 sw) ctx = Some before2
    /\ candidate (cls1 sw) (cls2 sw) l1 l2 (before1 + before2) sw.

(** The two-way loop applied a swap in [byClass], giving [byClass']: the
    swap was scored for a movable first student of one class and a sampled
    student of another class, with a gain above 1e-4. *)
Definition applied_swap (byClass byClass' : assignment) : Prop :=
  exists sw : swap,
    swap_found byClass sw
    /\ 0.0001 < gain sw
    /\ applySwap_Ultimate allData byClass sw headers = Some byClass'.

(** A rotation scored, with gain [gain3], for members of three distinct
    classes of [byClass], against the score of the three. *)
Definition rotation_found (byClass : assignment) (r : rotation) (gain3 : Q) : Prop :=
  exists (l1 l2 l3 : list nat) (before1 before2 before3 : Q),
    rot_c1 r <> rot_c2 r /\ rot_c2 r <> rot_c3 r /\ rot_c1 r <> rot_c3 r
    /\ JS.get byClass (rot_c1 r) = Some l1
    /\ JS.get byClass (rot_c2 r) = Some l2
    /\ JS.get byClass (rot_c3 r) = Some l3
    /\ calculateScore_Ultimate l1 allData globalStats (rot_c1 r) ctx = Some before1
    /\ calculateScore_Ultimate l2 allData globalStats (rot_c2 r) ctx = Some before2
    /\ calculateScore_Ultimate l3 allData globalStats (rot_c3 r) ctx = Some before3
    /\ In (rot_a r) l1 /\ In (rot_b r) l2 /\ In (rot_c r) l3
    /\ evaluate_rotation (Some (rot_a r)) (Some (rot_b r)) (Some (rot_c r))
         (rot_c1 r) (rot_c2 r) (rot_c3 r) l1 l2 l3 allData headers globalStats ctx
         (before1 + before2 + before3) = Some (Some (r, gain3)).

(** The three-way loop applied a rotation in [byClass], giving [byClass']:
    the rotation was scored with a gain above 0.001. *)
Definition applied_rotation (byClass byClass' : assignment) : Prop :=
  exists (r : rotation) (gain3 : Q),
    rotation_found byClass r gain3
    /\ 0.001 < gain3
    /\ applyRotation byClass r = Some byClass'.

(** [reach byClass k m byClass']: [byClass'] is obtained from [byClass] by
    [k] applied swaps and [m] applied rotations. *)
Inductive reach (byClass : assignment) : nat -> nat -> assignment -> Prop :=
| reach_start : reach byClass 0 0 byClass
| reach_swap (k m : nat) (mid byClass' : assignment) :
    reach byClass k m mid -> applied_swap mid byClass' ->
    reach byClass (S k) m byClass'
| reach_rotation (k m : nat) (mid byClass' : assignment) :
    reach byClass k m mid -> applied_rotation mid byClass' ->
    reach byClass k (S m) byClass'.

End Moves.

(** The assignments the loader builds and the moves keep: every class has a
    member, and every member has a student. *)
Definition well_formed (allData : list student) (byClass : assignment) : Prop :=
  forall cls l, In (cls, l) byClass ->
    l <> [] /\ Forall (fun i => i < List.length allData)%nat l.

(** The values [Math.random()] returns. *)
Definition unit_interval (random : nat -> Q) : Prop :=
  forall k, 0 <= random k /\ random k < 1.

(** The members of a class, none when the class is missing. *)
Definition members (byClass : assignment) (cls : string) : list nat :=
  match JS.get byClass cls with
  | Some l => l
  | None => []
  end.

(** The antinomy codes carried in a class: the non-empty DISSO cells of its
    members that have a student. *)
Definition class_codes (allData : list student) (idxDISSO : Z) (indices : list nat)
  : list string :=
  filter JS.truthy
    (flat_map (fun i => match nth_error allData i with
                        | Some st => [cell (row st) idxDISSO]
                        | None => []
                        end) indices).

(** No class holds two students with the same non-empty antinomy code. *)
Definition antinomy_free (allData : list student) (headers : list string)
  (byClass : assignment) : Prop :=
  forall cls indices, In (cls, indices) byClass ->
    NoDup (class_codes allData (JS.indexOf headers "DISSO") indices).

(** The class has no positive target: no name, no context, no table, no
    entry, or a zero entry. *)
Definition no_positive_target (className : string) (ctx : option context) : Prop :=
  forall c tbl t, ctx = Some c -> targets c = Some tbl ->
                  JS.get tbl className = Some t -> t = 0%N.

(** The member indices of all classes, class after class. *)
Definition all_members (byClass : assignment) : list nat :=
  List.concat (map snd byClass).

(** A member of [indices] other than [self] has a student whose cell [i]
    reads [code]. *)
Definition carried_by_other (allData : list student) (i : Z) (code : string)
  (self : nat) (indices : list nat) : Prop :=
  exists j sj, In j indices /\ j <> self /\ nth_error allData j = Some sj
               /\ cell (row sj) i = code.

(** A student with the second language [lv2] and the option [opt] may enter
    a class with the quotas [q]: the class offers the language when it is a
    known one that is not universal, it offers the option when it is a known
    one, and a class that offers LATIN or CHAV takes no student without one
    of the two unless the language is ESP or empty. *)
Definition may_enter (q : list (string * Z)) (lv2U : list string) (lv2 opt : string)
  : Prop :=
  (isKnownLV2 lv2 = true -> ~ In lv2 lv2U -> offered q lv2 = true)
  /\ (isKnownOPT opt = true -> offered q opt = true)
  /\ (offered q "LATIN" = true \/ offered q "CHAV" = true ->
      opt <> "LATIN" -> opt <> "CHAV" -> lv2 = "" \/ lv2 = "ESP").

(** The rules of the oracle, for the student [s1] at [idx1] in the class
    [c1] of members [l1] and the student [s2] at [idx2] in the class [c2] of
    members [l2]: the sheet has the DISSO column; neither student leaves
    behind a class mate of the same affinity group; each may enter the class
    of the other; neither meets its antinomy code in the class of the other,
    the student who leaves it apart. *)
Definition swap_allowed (idx1 idx2 : nat) (c1 c2 : string) (l1 l2 : list nat)
  (allData : list student) (headers : list string) (ctx : option context)
  (s1 s2 : student) : Prop :=
  let iA := JS.indexOf headers "ASSO" in
  let iD := JS.indexOf headers "DISSO" in
  let iL := JS.indexOf headers "LV2" in
  let iO := JS.indexOf headers "OPT" in
  let lv2U := match ctx with Some c => lv2Universelles c | None => [] end in
  In "DISSO" headers
  /\ (In "ASSO" headers ->
      (cell (row s1) iA <> "" ->
       ~ carried_by_other allData iA (cell (row s1) iA) idx1 l1)
      /\ (cell (row s2) iA <> "" ->
          ~ carried_by_other allData iA (cell (row s2) iA) idx2 l2))
  /\ may_enter (quotas_of ctx c2) lv2U (cell (row s1) iL) (cell (row s1) iO)
  /\ may_enter (quotas_of ctx c1) lv2U (cell (row s2) iL) (cell (row s2) iO)
  /\ (cell (row s1) iD <> "" ->
      ~ carried_by_other allData iD (cell (row s1) iD) idx2 l2)
  /\ (cell (row s2) iD <> "" ->
      ~ carried_by_other allData iD (cell (row s2) iD) idx1 l1).

(** The complementarity [findPartnerClass_Ultimate] computes for the
    students of a class, against the counts and means of the worst class. *)
Definition class_complementarity (globalStats : stats)
  (worstNbTetes worstNbNiv1 : Z) (worstRatioF worstAvgCOM : Q)
  (clsStudents : list student) : Q :=
  let clsTotal := Qnat (List.length clsStudents) in
  complementarity globalStats worstNbTetes worstNbNiv1 worstRatioF worstAvgCOM
    (Z.of_nat (count isHead clsStudents)) (Z.of_nat (count isNiv1 clsStudents))
    (Qnat (count is_F clsStudents) / clsTotal)
    (sum_field COM clsStudents / clsTotal).

(** The complementarity of the class of students [clsStudents] with the
    worst class, of students [worstStudents]. *)
Definition complementarity_with (globalStats : stats)
  (worstStudents clsStudents : list student) : Q :=
  let worstTotal := Qnat (List.length worstStudents) in
  class_complementarity globalStats
    (Z.of_nat (count isHead worstStudents)) (Z.of_nat (count isNiv1 worstStudents))
    (Qnat (count is_F worstStudents) / worstTotal)
    (sum_field COM worstStudents / worstTotal) clsStudents.

(** ** The profile helpers of [App.HarmonyConstants.js] *)


(** [HARMONY_SCORE_VALUES]: the marks of the scale. *)
Definition HARMONY_SCORE_VALUES : list Q := [1; 2; 3; 4].

(** A mark of the scale, or the 2.5 the loader gives for a cell that holds
    no number.  These marks are halves of integers, which the program adds
    up without rounding. *)
Definition is_scale_mark (q : Q) : bool :=
  existsb (Qeq_bool q) (2.5 :: HARMONY_SCORE_VALUES).

(** The three marks of the student are of this kind. *)
Definition on_scale (s : student) : bool :=
  is_scale_mark (COM s) && is_scale_mark (TRA s) && is_scale_mark (PART s).

(** [isHeadStudent(com, tra, part)]; [part] may be [undefined]. *)
Definition isHeadStudent (com tra : Q) (part : option Q) : bool :=
  let scoreMoy :=
    match part with
    | Some p => (com + tra + p) / 3
    | None => (com + tra) / 2
    end in
  (Qle_bool 4 com || Qle_bool 4 tra) || Qle_bool 3.5 scoreMoy.

(** [isNiv1Student(com, tra)] *)
Definition isNiv1Student (com tra : Q) : bool :=
  Qle_bool com 1 || Qle_bool tra 1.

(** ** The loader: [loadAndClassifyData_Ultimate] *)

(** [lv2Counts[optName] = (lv2Counts[optName] || 0) + 1] *)
Definition bump (lv2Counts : list (string * nat)) (optName : string)
  : list (string * nat) :=
  JS.set lv2Counts optName
    (match JS.get lv2Counts optName with Some n => n | None => 0%nat end + 1)%nat.

(** The loop over the options of one class of [ctx.quotas]. *)
Definition count_class_lv2 (lv2Counts : list (string * nat)) (q : list (string * Z))
  : list (string * nat) :=
  fold_left (fun acc optName =>
               if isKnownLV2 optName && offered q optName then bump acc optName
               else acc)
            (JS.keys q) lv2Counts.

(** The loop over the classes of [ctx.quotas]. *)
Definition lv2_counts (tbl : list (string * list (string * Z))) : list (string * nat) :=
  fold_left (fun acc classe =>
               count_class_lv2 acc
                 (match JS.get tbl classe with Some q => q | None => [] end))
            (JS.keys tbl) [].

(** Lines 313-330: the second languages counted in as many classes of
    [ctx.quotas] as [ctx.niveaux] has entries; both fields may be missing. *)
Definition detect_lv2Universelles (quotas : option (list (string * list (string * Z))))
  (niveaux : option (list string)) : list string :=
  let nbClasses := List.length (match niveaux with Some l => l | None => [] end) in
  let lv2Counts := lv2_counts (match quotas with Some tbl => tbl | None => [] end) in
  filter (fun lv2 => match JS.get lv2Counts lv2 with
                     | Some n => (n =? nbClasses)%nat
                     | None => false
                     end)
         (JS.keys lv2Counts).

(** [ctx] after the loader has set [ctx.lv2Universelles]. *)
Definition loaded_context (ctx : context) (niveaux : option (list string)) : context :=
  mkContext (targets ctx) (quotas ctx) (detect_lv2Universelles (quotas ctx) niveaux).

(** [sheetName.replace(/TEST$/i, '')]: the suffix is dropped where what is
    left of the name reads TEST in capitals. *)
Fixpoint strip_TEST (sheetName : string) : string :=
  match sheetName with
  | EmptyString => EmptyString
  | String c t =>
      if String.eqb (JS.toUpperCase sheetName) "TEST" then EmptyString
      else String c (strip_TEST t)
  end.

(** [s.charAt(0)] *)
Definition charAt0 (s : string) : string :=
  match s with
  | EmptyString => EmptyString
  | String c _ => String c EmptyString
  end.

(** [cell || d] for a cell that may be [undefined]. *)
Definition or_cell (c : option string) (d : string) : string :=
  match c with
  | Some s => if JS.truthy s then s else d
  | None => d
  end.

(** The state of the loader: [allData], [byClass] and [headersRef]. *)
Record loader_state := mkLoader {
  ld_allData : list student;
  ld_byClass : assignment;
  ld_headers : option (list string)
}.

Section Coercions.

(** [Number(cell)] on the text of a cell, [None] being [NaN]; [Number] of
    [undefined] is [NaN]. *)
Variable Number : string -> option Q.


(** [Number(cell) || d] *)
Definition number_or (x : option Q) (d : Q) : Q :=
  match x with
  | Some q => JS.or_number q d
  | None => d
  end.


(** Lines 360-374: the student built from a row of a sheet with the headers
    [headers]. *)
Definition load_student (headers r : list string) : student :=
  let at_col (name : string) := JS.at_index r (JS.indexOf headers name) in
  let sexe :=
    charAt0 (JS.trim (JS.toUpperCase (or_cell (at_col "SEXE") "M"))) in
  let COM := number_or (c <-? at_col "COM" ;; Number c) 2.5 in
  let TRA := number_or (c <-? at_col "TRA" ;; Number c) 2.5 in
  let PART := number_or (c <-? at_col "PART" ;; Number c) 2.5 in
  let mobilite :=
    JS.toUpperCase (or_cell (at_col "MOBILITE") (or_cell (at_col "FIXE") "")) in
  let scoreMoy := (COM + TRA + PART) / 3 in
  let isHead := (Qle_bool 4 COM || Qle_bool 4 TRA) || Qle_bool 3.5 scoreMoy in
  let isNiv1 := Qle_bool COM 1 || Qle_bool TRA 1 in
  mkStudent r sexe COM TRA PART mobilite isHead isNiv1.

(** Lines 357-385: one row of the sheet of the class [className]; the state
    is [(allData, byClass)].  A class met for the first time gets an empty
    list, to which the index of the new student is pushed. *)
Definition load_row (className : string) (headers : list string)
  (st : list student * assignment) (r : list string) : list student * assignment :=
  if negb (JS.truthy (or_cell (JS.at_index r (JS.indexOf headers "ID_ELEVE")) ""))
  then st
  else
    let allData := (fst st ++ [load_student headers r])%list in
    let indices :=
      match JS.get (snd st) className with
      | Some l => l
      | None => []
      end in
    (allData,
     JS.set (snd st) className (indices ++ [(List.length allData - 1)%nat])%list).

(** Lines 339-386: one sheet, given by its name and its values. *)
Definition load_sheet (st : loader_state) (sh : string * list (list string))
  : loader_state :=
  match snd sh with
  | headers :: ((_ :: _) as rows) =>
      let headersRef :=
        match ld_headers st with
        | Some h => Some h
        | None => Some headers
        end in
      let res := fold_left (load_row (strip_TEST (fst sh)) headers) rows
                   (ld_allData st, ld_byClass st) in
      mkLoader (fst res) (snd res) headersRef
  | _ => st
  end.

(** [loadAndClassifyData_Ultimate(ctx)], from the sheets of
    [ctx.cacheSheets] that exist, in that order. *)
Definition loadAndClassifyData_Ultimate (sheets : list (string * list (list string)))
  : dataResult :=
  let st := fold_left load_sheet sheets (mkLoader [] [] None) in
  mkData true (ld_allData st) (ld_byClass st) (ld_headers st).

End Coercions.

(** The headers of the first sheet that has a row below its first one. *)
Definition first_headers (sheets : list (string * list (list string)))
  : option (list string) :=
  match find (fun sh => (2 <=? List.length (snd sh))%nat) sheets with
  | Some sh => hd_error (snd sh)
  | None => None
  end.

(** [Phase4_Ultimate_Run(ctx)] from the spreadsheet: the loader sets
    [ctx.lv2Universelles] and returns the data the driver works on. *)
Definition Phase4_Ultimate_Run_sheets (random : nat -> Q) (sheet : string -> option bool)
  (Number : string -> option Q) (ctx : context) (niveaux : option (list string))
  (sheets : list (string * list (list string))) : Rand (run_result * assignment) :=
  Phase4_Ultimate_Run random sheet (loaded_context ctx niveaux)
    (loadAndClassifyData_Ultimate Number sheets).

(** ** Concrete cohorts used by the examples *)

Module Examples.

Definition headers : list string := ["ID_ELEVE"; "NOM"; "SEXE"; "DISSO"].

(** Headers of a sheet without the antinomy column. *)
Definition plain_headers : list string := ["ID_ELEVE"; "NOM"; "SEXE"].

(** A student of average scores, as the loader builds it from a row
    [id, name, sex, antinomy code]. *)
Definition pupil (nom sx disso mob : string) : student :=
  mkStudent ["id"; nom; sx; disso] sx 2.5 2.5 2.5 mob false false.

(** A context without targets nor quotas, as [testPhase4Ultimate] passes. *)
Definition bare_ctx : context := mkContext None None [].

(** Six students in three classes; [x] (in A) and [c] (in C) carry the same
    antinomy code. *)
Definition cohort : list student :=
  [pupil "a" "F" "" ""; pupil "x" "F" "D1" "";
   pupil "b" "F" "" ""; pupil "y" "M" "" "";
   pupil "c" "M" "D1" ""; pupil "z" "M" "" ""].

(** The same cohort with [x] fixed. *)
Definition cohort_fixed : list student :=
  [pupil "a" "F" "" ""; pupil "x" "F" "D1" "FIXE";
   pupil "b" "F" "" ""; pupil "y" "M" "" "";
   pupil "c" "M" "D1" ""; pupil "z" "M" "" ""].

Definition three_classes : assignment :=
  [("A", [0; 1]); ("B", [2; 3]); ("C", [4; 5])]%nat.

(** The three classes after the rotation of [a], [b] and [c]. *)
Definition rotated : assignment :=
  [("A", [1; 4]); ("B", [3; 0]); ("C", [5; 2])]%nat.

(** A random source: zero everywhere but at two positions. *)
Definition draws (n : nat) : Q :=
  if (n =? 401)%nat then 0.4 else if (n =? 402)%nat then 0.7 else 0.

(** Every sheet exists and is written. *)
Definition all_sheets (name : string) : option bool := Some true.

(** Two girls in one class and two boys in the other, and the classes after
    the swap of [f1] and [m1]. *)
Definition girls_boys : list student :=
  [pupil "f1" "F" "" ""; pupil "f2" "F" "" "";
   pupil "m1" "M" "" ""; pupil "m2" "M" "" ""].

Definition two_classes : assignment := [("A", [0; 1]); ("B", [2; 3])]%nat.

Definition mixed_classes : assignment := [("A", [1; 2]); ("B", [3; 0])]%nat.

(** Two top students, alone in one class. *)
Definition top (nom : string) : student :=
  mkStudent ["id"; nom; "F"; ""] "F" 4 4 4 "" true false.

Definition two_tops : list student := [top "p"; top "q"].

Definition one_class : assignment := [("A", [0; 1])]%nat.

(** Two classes, the first of which is empty. *)
Definition with_empty_class : assignment := [("A", []); ("B", [0; 1])]%nat.

End Examples.

(** ** Further cases *)

Module Cases.

(** Four students who may not move, in two classes. *)
Definition fixed_cohort : list student :=
  [Examples.pupil "a" "F" "" "FIXE"; Examples.pupil "b" "F" "" "NON";
   Examples.pupil "c" "M" "" "FIXE"; Examples.pupil "d" "M" "" "SPEC FIXE"].

(** Sheets with the columns of the electives and of the groups. *)
Definition full_headers : list string :=
  ["ID_ELEVE"; "NOM"; "SEXE"; "LV2"; "OPT"; "ASSO"; "DISSO"].

Definition learner (nom sx lv2 opt asso disso : string) : student :=
  mkStudent ["id"; nom; sx; lv2; opt; asso; disso] sx 2.5 2.5 2.5 "" false false.

(** Two classes of two; [b] carries the affinity code G1 and [c] the
    antinomy code D7. *)
Definition languages : list student :=
  [learner "a" "F" "ITA" "" "" ""; learner "b" "F" "ESP" "" "G1" "";
   learner "c" "M" "ITA" "" "" "D7"; learner "d" "M" "ESP" "LATIN" "" ""].

(** Both classes offer ITA and ESP. *)
Definition quota_ctx : context :=
  mkContext None
    (Some [("A", [("ITA", 5%Z); ("ESP", 10%Z)]); ("B", [("ITA", 5%Z); ("ESP", 10%Z)])])
    [].

(** [Number] on the cells of the sheets below: the four marks, zero for an
    empty cell, [NaN] for the rest. *)
Definition number (c : string) : option Q :=
  if String.eqb c "" then Some 0
  else if String.eqb c "1" then Some 1
  else if String.eqb c "2" then Some 2
  else if String.eqb c "3" then Some 3
  else if String.eqb c "4" then Some 4
  else None.

Definition sheet_headers : list string :=
  ["ID_ELEVE"; "NOM"; "SEXE"; "COM"; "TRA"; "PART"; "MOBILITE"; "DISSO"].

(** An empty sheet, then two sheets of two students; the third row of the
    first class has no identifier. *)
Definition sheets : list (string * list (list string)) :=
  [("5A0TEST", [[""]]);
   ("5A1TEST", [sheet_headers;
                ["e1"; "Ana"; "f"; "4"; "3"; "2"; "libre"; ""];
                ["e2"; "Bob"; "M"; "1"; ""; "x"; "Fixe"; "D1"];
                [""; "Eve"; "F"; "2"; "2"; "2"; ""; ""]]);
   ("5A2test", [sheet_headers;
                ["e3"; "Cat"; "F"; "2"; "4"; "4"; ""; "D1"];
                ["e4"; "Dan"; "M"; "3"; "3"; "3"; ""; ""]])].

(** Five students in two classes: [a] and [b] are in the affinity group G1,
    [e] and [d] are alone in theirs. *)
Definition groups : list student :=
  [learner "a" "F" "" "" "G1" ""; learner "b" "F" "" "" "G1" "";
   learner "e" "F" "" "" "G3" ""; learner "c" "M" "" "" "" "";
   learner "d" "M" "" "" "G2" ""].




(** Four students with different marks of the scale. *)
Definition marked : list student :=
  [mkStudent ["id"; "p"; "F"; ""] "F" 4 3 2 "" true false;
   mkStudent ["id"; "q"; "M"; ""] "M" 1 2 2.5 "" false true;
   mkStudent ["id"; "r"; "F"; ""] "F" 2.5 4 1 "" true false;
   mkStudent ["id"; "s"; "M"; ""] "M" 3 1 4 "" false true].

End Cases.

(** ** Properties of the cost function *)

Lemma fold_left_Qplus_acc (g : student -> Q) (l : list student) (acc : Q) :
  fold_left (fun a s => a + g s) l acc == acc + Spec.Qsum (map g l).
Proof.
  revert acc; induction l as [|s l IH]; intro acc; simpl.
  - ring.
  - rewrite IH. unfold Spec.Qsum. simpl. ring.
Qed.

Lemma sum_or_default_mean (f : student -> Q) (l : list student) :
  sum_or_default f l / Qnat (List.length l) == Spec.mean f l.
Proof.
  unfold sum_or_default, Spec.mean.
  rewrite (fold_left_Qplus_acc (fun s => JS.or_number (f s) 2.5)).
  apply Qdiv_comp; [ring | reflexivity].
Qed.

Lemma score_of_profile (students : list student) (gs : stats) (className : string)
  (ctx : option context) :
  score_of students gs className ctx ==
  match target_of className ctx with
  | Some t => Spec.headcount_term (List.length students) t
  | None => 0
  end + Spec.profile_terms students gs (JS.or_number (avgPART gs) 2.5).
Proof.
  unfold score_of, Spec.profile_terms, Spec.headcount_term, Spec.ratio_F.
  rewrite <- !sum_or_default_mean.
  unfold ULTIMATE_CONFIG.headMin, ULTIMATE_CONFIG.headMax, ULTIMATE_CONFIG.niv1Max,
    ULTIMATE_CONFIG.w_parity, ULTIMATE_CONFIG.w_distrib,
    Spec.head_min, Spec.head_max, Spec.niv1_max.
  destruct (target_of className ctx);
    destruct (Z.of_nat (count isHead students) <? 2)%Z;
    destruct (5 <? Z.of_nat (count isHead students))%Z;
    destruct (4 <? Z.of_nat (count isNiv1 students))%Z; ring.
Qed.

Lemma defined_nil_inv {A : Type} (l : list (option A)) :
  defined l = Some [] -> l = [].
Proof.
  destruct l as [|[x|] l]; simpl; try discriminate; auto.
  destruct (defined l); discriminate.
Qed.

Lemma defined_length {A : Type} (l : list (option A)) (l' : list A) :
  defined l = Some l' -> List.length l' = List.length l.
Proof.
  revert l'; induction l as [|[x|] l IH]; simpl; intros l' H.
  - inversion H; reflexivity.
  - destruct (defined l) eqn:E; inversion H; subst. simpl. f_equal. auto.
  - discriminate.
Qed.

(** What [calculateScore_Ultimate] returns on a class whose members all have
    a student. *)
Lemma calculateScore_amended (indices : list nat) (allData : list student)
  (gs : stats) (className : string) (ctx : option context) (students : list student) :
  defined (students_at allData indices) = Some students ->
  returns (calculateScore_Ultimate indices allData gs className ctx)
          (Spec.amended_score (target_of className ctx) students gs).
Proof.
  intro Hd. unfold calculateScore_Ultimate.
  destruct indices as [|i indices].
  - simpl in Hd. inversion Hd; subst. simpl. reflexivity.
  - rewrite Hd. simpl.
    destruct students as [|s students].
    + apply defined_length in Hd. discriminate.
    + unfold Spec.amended_score. apply score_of_profile.
Qed.

Lemma target_of_Some (className : string) (ctx : option context) (t : N) :
  target_of className ctx = Some t <->
  className <> "" /\
  exists c tbl, ctx = Some c /\ targets c = Some tbl /\
                JS.get tbl className = Some t /\ t <> 0%N.
Proof.
  unfold target_of, JS.truthy. split.
  - destruct (String.eqb_spec className ""); simpl; try discriminate.
    destruct ctx as [c|]; try discriminate.
    destruct (targets c) as [tbl|] eqn:Et; try discriminate.
    destruct (JS.get tbl className) as [t'|] eqn:Eg; try discriminate.
    destruct (N.eqb_spec t' 0); try discriminate.
    intro H; inversion H; subst. split; auto.
    exists c, tbl. auto.
  - intros (Hn & c & tbl & -> & Et & Eg & Ht).
    destruct (String.eqb_spec className ""); [contradiction|]. simpl.
    rewrite Et, Eg. destruct (N.eqb_spec t 0); [contradiction|reflexivity].
Qed.

Lemma target_of_None (className : string) (ctx : option context) :
  className = "" \/ no_positive_target className ctx -> target_of className ctx = None.
Proof.
  intros H. destruct (target_of className ctx) as [t|] eqn:E; auto.
  apply target_of_Some in E. destruct E as (Hn & c & tbl & Hc & Et & Eg & Ht).
  destruct H as [H|H]; [contradiction|].
  elim Ht. eapply H; eauto.
Qed.

(** C2, as amended.  On a class whose members all have a student,
    [calculateScore_Ultimate] returns 10000 when the class is empty and
    otherwise the sum of the heads-min, heads-max, low-tier, gender and
    COM/TRA/PART terms of the specification (class means counting a zero
    score as 2.5, and 2.5 standing for a zero cohort mean of PART), plus the
    headcount term (n - target)^2 * 800 exactly when the class name is not
    empty and the context holds a positive target for it. *)
Theorem calculateScore_Ultimate_sum
  (indices : list nat) (allData : list student) (gs : stats)
  (className : string) (ctx : option context) (students : list student) :
  defined (students_at allData indices) = Some students ->
  (forall c tbl t,
      className <> "" -> ctx = Some c -> targets c = Some tbl ->
      JS.get tbl className = Some t -> t <> 0%N ->
      returns (calculateScore_Ultimate indices allData gs className ctx)
              (Spec.amended_score (Some t) students gs))
  /\ (className = "" \/ no_positive_target className ctx ->
      returns (calculateScore_Ultimate indices allData gs className ctx)
              (Spec.amended_score None students gs)).
Proof.
  intro Hd. split.
  - intros c tbl t Hn Hc Et Eg Ht.
    assert (E : target_of className ctx = Some t)
      by (apply target_of_Some; split; auto; exists c, tbl; auto).
    rewrite <- E. now apply calculateScore_amended.
  - intro H. rewrite <- (target_of_None className ctx H).
    now apply calculateScore_amended.
Qed.

Lemma calculateScore_Ultimate_sum_witness :
  returns (calculateScore_Ultimate [0%nat; 1%nat] Examples.two_tops
             (calculateGlobalStats_Ultimate Examples.two_tops) "A"
             (Some (mkContext (Some [("A", 3%N)]) None [])))
          (Spec.amended_score (Some 3%N) Examples.two_tops
             (calculateGlobalStats_Ultimate Examples.two_tops)).
Proof.
  refine (proj1 (calculateScore_Ultimate_sum [0%nat; 1%nat] Examples.two_tops _ "A"
                   (Some (mkContext (Some [("A", 3%N)]) None [])) Examples.two_tops _)
                _ _ 3%N _ eq_refl eq_refl eq_refl _).
  - reflexivity.
  - discriminate.
  - discriminate.
Defined.

(** C2 as stated fails: with a context that holds no targets, no target
    value makes the stated sum agree with the code on the classes {p} and
    {p, q} of the same name. *)
Lemma calculateScore_Ultimate_claimed_counterexample :
  ~ exists target : Q,
      returns (calculateScore_Ultimate [0%nat] Examples.two_tops
                 (calculateGlobalStats_Ultimate Examples.two_tops) "A"
                 (Some Examples.bare_ctx))
              (Spec.claimed_score target [Examples.top "p"]
                 (calculateGlobalStats_Ultimate Examples.two_tops))
      /\
      returns (calculateScore_Ultimate [0%nat; 1%nat] Examples.two_tops
                 (calculateGlobalStats_Ultimate Examples.two_tops) "A"
                 (Some Examples.bare_ctx))
              (Spec.claimed_score target Examples.two_tops
                 (calculateGlobalStats_Ultimate Examples.two_tops)).
Proof.
  intros [target [H1 H2]].
  assert (E1 : exists q, calculateScore_Ultimate [0%nat] Examples.two_tops
                 (calculateGlobalStats_Ultimate Examples.two_tops) "A"
                 (Some Examples.bare_ctx) = Some q /\ q == 500)
    by (eexists; split; vm_compute; reflexivity).
  assert (E2 : exists q, calculateScore_Ultimate [0%nat; 1%nat] Examples.two_tops
                 (calculateGlobalStats_Ultimate Examples.two_tops) "A"
                 (Some Examples.bare_ctx) = Some q /\ q == 0)
    by (eexists; split; vm_compute; reflexivity).
  destruct E1 as (q1 & E1 & Q1). destruct E2 as (q2 & E2 & Q2).
  rewrite E1 in H1. rewrite E2 in H2. unfold returns in H1, H2.
  rewrite Q1 in H1. rewrite Q2 in H2.
  assert (P1 : Spec.profile_terms [Examples.top "p"]
                 (calculateGlobalStats_Ultimate Examples.two_tops)
                 (avgPART (calculateGlobalStats_Ultimate Examples.two_tops)) == 500)
    by (vm_compute; reflexivity).
  assert (P2 : Spec.profile_terms Examples.two_tops
                 (calculateGlobalStats_Ultimate Examples.two_tops)
                 (avgPART (calculateGlobalStats_Ultimate Examples.two_tops)) == 0)
    by (vm_compute; reflexivity).
  unfold Spec.claimed_score, Examples.two_tops in H1, H2.
  fold Examples.two_tops in H1, H2.
  rewrite P1 in H1. rewrite P2 in H2.
  change (Qnat (List.length [Examples.top "p"])) with 1 in H1.
  change (Qnat (List.length Examples.two_tops)) with 2 in H2.
  assert (Z1 : (1 - target) * (1 - target) == 0)
    by (change ((1 - target) ^ 2) with ((1 - target) * (1 - target)) in H1; lra).
  assert (Z2 : (2 - target) * (2 - target) == 0)
    by (change ((2 - target) ^ 2) with ((2 - target) * (2 - target)) in H2; lra).
  nra.
Qed.

(** C10.  For a class whose name has no positive entry in the target table
    of the context (or when the context or the table is absent), the score
    is the one computed without any context: it carries no headcount term,
    whatever the size of the class.  Conversely the score differs from the
    context-free one only when the table holds a positive target for the
    class name. *)
Theorem calculateScore_Ultimate_without_target
  (indices : list nat) (allData : list student) (gs : stats)
  (className : string) (ctx : option context) :
  (no_positive_target className ctx ->
     calculateScore_Ultimate indices allData gs className ctx
     = calculateScore_Ultimate indices allData gs className None
     /\ forall students,
          defined (students_at allData indices) = Some students ->
          students <> [] ->
          returns (calculateScore_Ultimate indices allData gs className ctx)
                  (Spec.profile_terms students gs (JS.or_number (avgPART gs) 2.5)))
  /\ (calculateScore_Ultimate indices allData gs className ctx
      <> calculateScore_Ultimate indices allData gs className None ->
      exists c tbl t, ctx = Some c /\ targets c = Some tbl /\
                      JS.get tbl className = Some t /\ (0 < t)%N).
Proof.
  assert (same : target_of className ctx = None ->
                 calculateScore_Ultimate indices allData gs className ctx
                 = calculateScore_Ultimate indices allData gs className None).
  { intro E. unfold calculateScore_Ultimate.
    destruct indices; auto.
    destruct (defined (students_at allData (n :: indices))); auto.
    f_equal. unfold score_of. rewrite E.
    replace (target_of className None) with (@None N); auto.
    unfold target_of. now destruct (JS.truthy className). }
  split.
  - intro H.
    assert (E : target_of className ctx = None) by (apply target_of_None; auto).
    split; auto.
    intros students Hd Hne.
    pose proof (calculateScore_amended indices allData gs className ctx students Hd) as R.
    rewrite E in R. unfold Spec.amended_score in R.
    destruct students; [contradiction|].
    destruct (calculateScore_Ultimate indices allData gs className ctx); simpl in *; auto.
    rewrite R. ring.
  - intro Hdiff.
    destruct (target_of className ctx) as [t|] eqn:E.
    + apply target_of_Some in E. destruct E as (_ & c & tbl & Hc & Et & Eg & Ht).
      exists c, tbl, t. repeat split; auto. lia.
    + elim Hdiff. auto.
Qed.

Lemma calculateScore_Ultimate_without_target_witness :
  calculateScore_Ultimate [0%nat; 1%nat] Examples.two_tops
    (calculateGlobalStats_Ultimate Examples.two_tops) "A"
    (Some (mkContext (Some [("B", 25%N)]) None []))
  = calculateScore_Ultimate [0%nat; 1%nat] Examples.two_tops
      (calculateGlobalStats_Ultimate Examples.two_tops) "A" None.
Proof.
  refine (proj1 (proj1 (calculateScore_Ultimate_without_target [0%nat; 1%nat]
                          Examples.two_tops _ "A"
                          (Some (mkContext (Some [("B", 25%N)]) None []))) _)).
  intros c tbl t Hc Ht Hg.
  injection Hc as <-. simpl in Ht. injection Ht as <-. simpl in Hg. discriminate.
Defined.

(** ** Reasoning on randomised computations *)

Lemma bind_inv {A B : Type} (m : Rand A) (k : A -> Rand B) (n : nat) (r : B * nat) :
  bind m k n = Some r -> exists x n1, m n = Some (x, n1) /\ k x n1 = Some r.
Proof.
  unfold bind. destruct (m n) as [[x n1]|]; [|discriminate].
  intro H. exists x, n1. auto.
Qed.

Lemma lift_inv {A : Type} (o : option A) (n : nat) (x : A) (n' : nat) :
  lift o n = Some (x, n') -> o = Some x /\ n' = n.
Proof.
  unfold lift. destruct o; [|discriminate]. intro H; inversion H; auto.
Qed.

Lemma ret_inv {A : Type} (x y : A) (n n' : nat) :
  ret x n = Some (y, n') -> y = x /\ n' = n.
Proof. unfold ret. intro H; inversion H; auto. Qed.

Lemma obind_inv {A B : Type} (m : option A) (k : A -> option B) (r : B) :
  obind m k = Some r -> exists x, m = Some x /\ k x = Some r.
Proof. destruct m; simpl; [|discriminate]. intro H. eauto. Qed.

(** Splits a hypothesis on a sequence of steps into one hypothesis per
    step. *)
Ltac step H :=
  match type of H with
  | bind (lift _) _ _ = Some _ =>
      let x := fresh "x" in let n := fresh "n" in
      let E := fresh "E" in let En := fresh "En" in
      apply bind_inv in H; destruct H as (x & n & E & H);
      apply lift_inv in E; destruct E as [E En]; subst n
  | bind _ _ _ = Some _ =>
      let x := fresh "x" in let n := fresh "n" in let E := fresh "E" in
      apply bind_inv in H; destruct H as (x & n & E & H)
  | ret _ _ = Some (_, _) =>
      let E := fresh "E" in let En := fresh "En" in
      apply ret_inv in H; destruct H as [E En]
  | obind _ _ = Some _ =>
      let x := fresh "x" in let E := fresh "E" in
      apply obind_inv in H; destruct H as (x & E & H)
  end.

(** The same for one binding step, with chosen names. *)
Ltac step_as H x E :=
  match type of H with
  | bind (lift _) _ _ = Some _ =>
      let n := fresh "n" in let En := fresh "En" in
      apply bind_inv in H; destruct H as (x & n & E & H);
      apply lift_inv in E; destruct E as [E En]; subst n
  | bind _ _ _ = Some _ =>
      let n := fresh "n" in
      apply bind_inv in H; destruct H as (x & n & E & H)
  | obind _ _ = Some _ =>
      apply obind_inv in H; destruct H as (x & E & H)
  end.

(** An invariant of the body of a loop is an invariant of the loop. *)
Lemma for_loop_invariant {St : Type} (P : St -> Prop)
  (body : St -> Rand (St * bool)) :
  (forall st n r n', P st -> body st n = Some (r, n') -> P (fst r)) ->
  forall k st n st' n',
    P st -> for_loop k body st n = Some (st', n') -> P st'.
Proof.
  intros Hbody k. induction k as [|k IH]; intros st n st' n' HP H; simpl in H.
  - step H. now subst.
  - step H. destruct x as [st1 brk]. simpl in H.
    pose proof (Hbody _ _ _ _ HP E) as HP1. simpl in HP1.
    destruct brk.
    + step H. now subst.
    + eapply IH; eauto.
Qed.

(** ** The oracle without the DISSO column *)

Lemma indexOf_from_bounds (l : list string) (x : string) (k : Z) :
  (0 <= k)%Z ->
  (JS.indexOf_from l x k = -1 /\ ~ In x l
   \/ (k <= JS.indexOf_from l x k)%Z /\ In x l)%Z.
Proof.
  revert k; induction l as [|y l IH]; intros k Hk; simpl.
  - left; auto.
  - destruct (String.eqb_spec y x).
    + right. split; [lia | auto].
    + destruct (IH (k + 1)%Z ltac:(lia)) as [[E Hn]|[E Hi]].
      * left. split; auto. intros [H|H]; auto.
      * right. split; [lia | auto].
Qed.

Lemma indexOf_absent (l : list string) (x : string) :
  ~ In x l <-> JS.indexOf l x = (-1)%Z.
Proof.
  unfold JS.indexOf.
  destruct (indexOf_from_bounds l x 0 ltac:(lia)) as [[E Hn]|[E Hi]]; split; intro H;
    auto; try contradiction; lia.
Qed.

Lemma asso_peers_defined (allData : list student) (idxASSO : Z) (code : string)
  (self : nat) (idxList : list nat) :
  Forall (fun i => i < List.length allData)%nat idxList ->
  exists peers, asso_peers allData idxASSO code self idxList = Some peers.
Proof.
  induction 1 as [|i l Hi Hl IH]; simpl; eauto.
  destruct (i =? self)%nat; auto.
  destruct (nth_error allData i) as [s|] eqn:E.
  - simpl. destruct IH as [peers ->]. simpl. eauto.
  - apply nth_error_None in E. lia.
Qed.

Lemma canSwap_never_without_DISSO
  (idx1 idx2 : nat) (cls1Name cls2Name : string) (idxList1 idxList2 : list nat)
  (allData : list student) (headers : list string) (ctx : option context) :
  ~ In "DISSO" headers ->
  canSwapStudents_Ultimate idx1 idx2 cls1Name cls2Name idxList1 idxList2
    allData headers ctx <> Some true.
Proof.
  intro Hno. apply indexOf_absent in Hno.
  unfold canSwapStudents_Ultimate. rewrite Hno. simpl (_ =? _)%Z.
  match goal with |- obind ?m _ <> _ => destruct m as [[|]|] end; simpl; discriminate.
Qed.

Lemma canSwap_false_without_DISSO
  (idx1 idx2 : nat) (cls1Name cls2Name : string) (idxList1 idxList2 : list nat)
  (allData : list student) (headers : list string) (ctx : option context) :
  ~ In "DISSO" headers ->
  (idx1 < List.length allData)%nat -> (idx2 < List.length allData)%nat ->
  Forall (fun i => i < List.length allData)%nat idxList1 ->
  Forall (fun i => i < List.length allData)%nat idxList2 ->
  canSwapStudents_Ultimate idx1 idx2 cls1Name cls2Name idxList1 idxList2
    allData headers ctx = Some false.
Proof.
  intros Hno H1 H2 Hl1 Hl2.
  pose proof (canSwap_never_without_DISSO idx1 idx2 cls1Name cls2Name idxList1
                idxList2 allData headers ctx Hno) as Hne.
  destruct (canSwapStudents_Ultimate idx1 idx2 cls1Name cls2Name idxList1 idxList2
              allData headers ctx) as [[|]|] eqn:E; auto; [congruence|].
  exfalso. revert E. apply indexOf_absent in Hno.
  unfold canSwapStudents_Ultimate. rewrite Hno. simpl (_ =? _)%Z.
  destruct (nth_error allData idx1) as [s1|] eqn:E1;
    [|apply nth_error_None in E1; lia].
  destruct (nth_error allData idx2) as [s2|] eqn:E2;
    [|apply nth_error_None in E2; lia].
  destruct (0 <=? JS.indexOf headers "ASSO")%Z; simpl; [|discriminate].
  destruct (asso_peers_defined allData (JS.indexOf headers "ASSO")
              (cell (row s1) (JS.indexOf headers "ASSO")) idx1 idxList1 Hl1) as [p1 ->].
  destruct (asso_peers_defined allData (JS.indexOf headers "ASSO")
              (cell (row s2) (JS.indexOf headers "ASSO")) idx2 idxList2 Hl2) as [p2 ->].
  destruct (JS.truthy (cell (row s1) (JS.indexOf headers "ASSO"))); simpl;
    [destruct (0 <? List.length p1)%nat; simpl|];
    try discriminate;
    destruct (JS.truthy (cell (row s2) (JS.indexOf headers "ASSO"))); simpl;
    try (destruct (0 <? List.length p2)%nat; simpl); discriminate.
Qed.

(** ** What the search returns *)

Section Search.

Variable random : nat -> Q.
Variables (allData : list student) (headers : option (list string)).
Variables (globalStats : stats) (ctx : option context).

Lemma at_index_In {A : Type} (l : list A) (i : Z) (x : A) :
  JS.at_index l i = Some x -> In x l.
Proof.
  unfold JS.at_index. destruct (i <? 0)%Z; [discriminate|]. apply nth_error_In.
Qed.

Lemma pick_In {A : Type} (l : list A) (n n' : nat) (x : A) :
  pick random l n = Some (Some x, n') -> In x l.
Proof.
  unfold pick. intro H. step H. step H. eapply at_index_In. eauto.
Qed.

Lemma evaluate_swap_shape (i1 : nat) (i2 : option nat) (c1 c2 : string)
  (l1 l2 : list nat) (before : Q) (sw : swap) :
  evaluate_swap i1 i2 c1 c2 l1 l2 allData headers globalStats ctx before
  = Some (Some sw) ->
  i2 = Some (idx2 sw) /\ idx1 sw = i1 /\ cls1 sw = c1 /\ cls2 sw = c2.
Proof.
  unfold evaluate_swap. intro H.
  step H. step H. destruct (isFixed x0); [discriminate|].
  step H. step H. destruct (negb x2); [discriminate|].
  step H. step H. inversion H; subst; simpl. auto.
Qed.

Lemma try_pair_candidate (i1 : nat) (c1 c2 : string) (l1 l2 : list nat)
  (before : Q) (st : option swap * Q) (n n' : nat) (r : (option swap * Q) * bool) :
  In i1 l1 ->
  (exists s1, nth_error allData i1 = Some s1 /\ isFixed s1 = false) ->
  (forall sw, fst st = Some sw -> candidate allData headers globalStats ctx c1 c2 l1 l2 before sw) ->
  try_pair random i1 c1 c2 l1 l2 allData headers globalStats ctx before st n
  = Some (r, n') ->
  forall sw, fst (fst r) = Some sw ->
             candidate allData headers globalStats ctx c1 c2 l1 l2 before sw.
Proof.
  intros Hi1 Hs1 HP H.
  unfold try_pair in H. step H. step H.
  destruct x0 as [sw0|].
  - destruct (JS.gt (gain sw0) (snd st)).
    + step H. subst r. simpl. intros sw Hsw. inversion Hsw; subst sw0.
      destruct (evaluate_swap_shape _ _ _ _ _ _ _ _ E0) as (Ei2 & Ei1 & Ec1 & Ec2).
      subst x. apply pick_In in E.
      unfold candidate. rewrite Ei1. repeat split; auto.
    + step H. subst r. simpl. auto.
  - step H. subst r. simpl. auto.
Qed.

Lemma try_first_candidate (sampleSize : nat) (c1 c2 : string) (l1 l2 : list nat)
  (before : Q) (st : option swap * Q) (n n' : nat) (r : (option swap * Q) * bool) :
  (forall sw, fst st = Some sw -> candidate allData headers globalStats ctx c1 c2 l1 l2 before sw) ->
  try_first random sampleSize c1 c2 l1 l2 allData headers globalStats ctx before st n
  = Some (r, n') ->
  forall sw, fst (fst r) = Some sw ->
             candidate allData headers globalStats ctx c1 c2 l1 l2 before sw.
Proof.
  intros HP H. unfold try_first in H.
  step H. step H. step H.
  destruct (isFixed x1) eqn:Ef.
  - step H. subst r. simpl. auto.
  - step H. step H. subst r. simpl.
    subst x. apply pick_In in E.
    refine (for_loop_invariant
              (fun st => forall sw, fst st = Some sw ->
                 candidate allData headers globalStats ctx c1 c2 l1 l2 before sw)
              _ _ _ _ _ _ _ HP E2).
    intros st0 m r0 m' HP0 Hb. eapply try_pair_candidate; eauto.
Qed.

Lemma findBestSwapBetween_candidate (c1 c2 : string) (byClass : assignment)
  (n n' : nat) (sw : swap) :
  findBestSwapBetween_Ultimate random c1 c2 allData byClass headers globalStats ctx n
  = Some (Some sw, n') ->
  exists l1 l2 before1 before2,
    JS.get byClass c1 = Some l1 /\ JS.get byClass c2 = Some l2
    /\ calculateScore_Ultimate l1 allData globalStats c1 ctx = Some before1
    /\ calculateScore_Ultimate l2 allData globalStats c2 ctx = Some before2
    /\ candidate allData headers globalStats ctx c1 c2 l1 l2 (before1 + before2) sw.
Proof.
  unfold findBestSwapBetween_Ultimate. intro H.
  step H. step H. step H. step H. step H. step H.
  exists x, x1, x0, x2. do 4 (split; [assumption|]).
  refine (for_loop_invariant
            (fun st => forall sw, fst st = Some sw ->
               candidate allData headers globalStats ctx c1 c2 x x1 (x0 + x2) sw)
            _ _ _ _ _ _ _ _ E3 sw _); auto.
  - intros st0 m r0 m' HP0 Hb. eapply try_first_candidate; eauto.
  - simpl. discriminate.
Qed.

Lemma findPartner_loop_member (classes : list string) (byClass : assignment)
  (wt wn : Z) (wr wa : Q) (bestC : option Q) (bestP : option string) (p : string) :
  findPartner_loop classes byClass allData globalStats wt wn wr wa bestC bestP
  = Some (Some p) ->
  In p classes \/ bestP = Some p.
Proof.
  revert bestC bestP. induction classes as [|cls t IH]; intros bestC bestP H; simpl in H.
  - right. now inversion H.
  - step H. destruct x as [|i x].
    + apply IH in H. destruct H; [left; right|]; auto.
    + step H.
      match type of H with (if ?b then _ else _) = _ => destruct b end;
        apply IH in H; destruct H as [H|H]; auto; try (left; right; assumption).
      inversion H; subst. left; left; reflexivity.
Qed.

Lemma findPartnerClass_other (worst : string) (byClass : assignment)
  (n n' : nat) (p : string) :
  findPartnerClass_Ultimate random worst byClass allData globalStats n
  = Some (Some p, n') ->
  In p (other_classes byClass worst).
Proof.
  unfold findPartnerClass_Ultimate. intro H.
  destruct (other_classes byClass worst) as [|c0 cs] eqn:Ec.
  - step H. discriminate.
  - step H. destruct x as [|i x].
    + step H. discriminate.
    + step H. step H. step H.
      destruct (JS.lt x2 0.2).
      * eapply pick_In; eauto.
      * step H. subst x1.
        apply findPartner_loop_member in E1. destruct E1 as [E1|E1]; [auto|discriminate].
Qed.

Lemma other_classes_spec (byClass : assignment) (worst p : string) :
  In p (other_classes byClass worst) <-> In p (JS.keys byClass) /\ p <> worst.
Proof.
  unfold other_classes. rewrite filter_In.
  destruct (String.eqb_spec p worst); simpl; intuition congruence.
Qed.

End Search.

(** ** Dictionaries *)

Lemma keys_set {V : Type} (o : list (string * V)) (k : string) (v v0 : V) :
  JS.get o k = Some v0 -> JS.keys (JS.set o k v) = JS.keys o.
Proof.
  induction o as [|[k' v'] o IH]; simpl; [discriminate|].
  destruct (String.eqb k' k); simpl; auto.
  intro H. f_equal. auto.
Qed.

Lemma get_set_same {V : Type} (o : list (string * V)) (k : string) (v : V) :
  JS.get (JS.set o k v) k = Some v.
Proof.
  induction o as [|[k' v'] o IH]; simpl.
  - now rewrite String.eqb_refl.
  - destruct (String.eqb k' k) eqn:E; simpl; rewrite E; auto.
Qed.

Lemma get_set_other {V : Type} (o : list (string * V)) (k k' : string) (v : V) :
  k <> k' -> JS.get (JS.set o k v) k' = JS.get o k'.
Proof.
  intro Hne. induction o as [|[k0 v0] o IH]; simpl.
  - apply String.eqb_neq in Hne. now rewrite Hne.
  - destruct (String.eqb_spec k0 k); simpl.
    + subst k0. apply String.eqb_neq in Hne. now rewrite Hne.
    + destruct (String.eqb k0 k'); auto.
Qed.

Lemma applySwap_keys (allData : list student) (byClass byClass' : assignment)
  (sw : swap) (headers : option (list string)) :
  applySwap_Ultimate allData byClass sw headers = Some byClass' ->
  JS.keys byClass' = JS.keys byClass.
Proof.
  unfold applySwap_Ultimate. intro H.
  step H. step H. step H. step H. step H. inversion H; subst.
  erewrite keys_set by eassumption. eapply keys_set; eassumption.
Qed.

Lemma applyRotation_keys (byClass byClass' : assignment) (r : rotation) :
  applyRotation byClass r = Some byClass' -> JS.keys byClass' = JS.keys byClass.
Proof.
  unfold applyRotation. intro H.
  step H. step H. step H. inversion H; subst.
  erewrite keys_set by eassumption. erewrite keys_set by eassumption.
  eapply keys_set; eassumption.
Qed.

(** ** One iteration of each loop of the driver *)

Lemma gt_true (x y : Q) : JS.gt x y = true <-> y < x.
Proof.
  unfold JS.gt. rewrite negb_true_iff, <- not_true_iff_false, Qle_bool_iff.
  split; [apply Qnot_le_lt | apply Qlt_not_le].
Qed.

Lemma usable_Some (key : option string) (k : string) :
  usable key = Some k -> key = Some k.
Proof.
  unfold usable. destruct key as [k'|]; [|discriminate].
  destruct (JS.truthy k'); [congruence|discriminate].
Qed.

Ltac unchanged := split; [reflexivity | left; split; reflexivity].

Section Driver.

Variable random : nat -> Q.
Variables (allData : list student) (headers : option (list string)).
Variables (globalStats : stats) (ctx : context).

(** An iteration of the two-way loop either leaves the assignment and the
    count of swaps as they are, or applies one swap. *)
Lemma twoWay_body_step (st st' : driver_state) (brk : bool) (n n' : nat) :
  twoWay_body random allData headers globalStats ctx st n = Some ((st', brk), n') ->
  st_swaps3Way st' = st_swaps3Way st
  /\ ((st_byClass st' = st_byClass st /\ st_swapsApplied st' = st_swapsApplied st)
      \/ (applied_swap allData headers globalStats (Some ctx)
            (st_byClass st) (st_byClass st')
          /\ st_swapsApplied st' = S (st_swapsApplied st))).
Proof.
  unfold twoWay_body. intro H. step H.
  destruct (usable x) as [worst|] eqn:Ew.
  2:{ step H. inversion E0; subst. unchanged. }
  step H. destruct (usable x0) as [partner|] eqn:Ep.
  2:{ step H. inversion E1; subst. simpl. unchanged. }
  apply usable_Some in Ep. subst x0.
  apply findPartnerClass_other in E0. apply other_classes_spec in E0.
  destruct E0 as [_ Hne].
  step H. step H. step H. inversion E2; subst st' brk. clear E2.
  destruct x0 as [sw|].
  - destruct (JS.gt (gain sw) 0.0001) eqn:Eg.
    + step E1. step E1. subst x1. simpl. split; auto. right. split; auto.
      apply findBestSwapBetween_candidate in E0.
      destruct E0 as (l1 & l2 & b1 & b2 & G1 & G2 & S1 & S2 & C).
      pose proof C as C'. destruct C' as (Ec1 & Ec2 & _).
      exists sw. split; [|split]; auto.
      * exists l1, l2, b1, b2. rewrite Ec1, Ec2.
        split; [congruence|]. do 4 (split; [assumption|]). exact C.
      * now apply gt_true.
    + step E1. subst x1. simpl. unchanged.
  - step E1. subst x1. simpl. unchanged.
Qed.

Lemma evaluate_rotation_shape (a b c : option nat) (c1 c2 c3 : string)
  (l1 l2 l3 : list nat) (before : Q) (r : rotation) (g : Q) :
  evaluate_rotation a b c c1 c2 c3 l1 l2 l3 allData headers globalStats (Some ctx)
    before = Some (Some (r, g)) ->
  a = Some (rot_a r) /\ b = Some (rot_b r) /\ c = Some (rot_c r)
  /\ rot_c1 r = c1 /\ rot_c2 r = c2 /\ rot_c3 r = c3.
Proof.
  unfold evaluate_rotation, evaluate_rotation_with. intro H.
  step H. step H. destruct (isFixed x0); [discriminate|].
  step H. step H. destruct (isFixed x2); [discriminate|].
  step H. step H. destruct (isFixed x4); [discriminate|].
  step H. step H. destruct (negb x6); [discriminate|].
  step H. destruct (negb x7); [discriminate|].
  step H. step H. step H. inversion H; subst; simpl. repeat split; reflexivity.
Qed.

(** The invariant of the sampling loops of the three-way phase: the best
    gain is at least the threshold, and a recorded rotation was scored in
    [byClass] with that gain, above the threshold. *)
Lemma try_rotation_found (byClass : assignment) (c1 c2 c3 : string)
  (l1 l2 l3 : list nat) (b1 b2 b3 : Q) (st : Q * option rotation)
  (n n' : nat) (res : (Q * option rotation) * bool) :
  c1 <> c2 -> c2 <> c3 -> c1 <> c3 ->
  JS.get byClass c1 = Some l1 -> JS.get byClass c2 = Some l2 ->
  JS.get byClass c3 = Some l3 ->
  calculateScore_Ultimate l1 allData globalStats c1 (Some ctx) = Some b1 ->
  calculateScore_Ultimate l2 allData globalStats c2 (Some ctx) = Some b2 ->
  calculateScore_Ultimate l3 allData globalStats c3 (Some ctx) = Some b3 ->
  (0.001 <= fst st /\
   forall r, snd st = Some r ->
     0.001 < fst st /\ rotation_found allData headers globalStats (Some ctx) byClass r (fst st)) ->
  try_rotation random c1 c2 c3 l1 l2 l3 allData headers globalStats (Some ctx)
    (b1 + b2 + b3) st n = Some (res, n') ->
  0.001 <= fst (fst res) /\
  forall r, snd (fst res) = Some r ->
    0.001 < fst (fst res)
    /\ rotation_found allData headers globalStats (Some ctx) byClass r (fst (fst res)).
Proof.
  intros N12 N23 N13 G1 G2 G3 S1 S2 S3 [Hb HP] H.
  unfold try_rotation in H. step H. step H. step H. step H.
  destruct x2 as [[r g]|].
  - destruct (JS.gt g (fst st)) eqn:Eg.
    + step H. subst res. simpl. apply gt_true in Eg.
      split; [apply Qlt_le_weak; eapply Qle_lt_trans; eauto|].
      intros r' Hr. inversion Hr; subst r'. split; [eapply Qle_lt_trans; eauto|].
      destruct (evaluate_rotation_shape _ _ _ _ _ _ _ _ _ _ _ _ E2)
        as (Ea & Eb & Ec & Ec1 & Ec2 & Ec3).
      subst x x0 x1. apply pick_In in E, E0, E1.
      exists l1, l2, l3, b1, b2, b3. rewrite Ec1, Ec2, Ec3.
      repeat (split; [assumption|]). exact E2.
    + step H. subst res. simpl. auto.
  - step H. subst res. simpl. auto.
Qed.

Lemma option_string_eqb_false (k1 k2 : option string) (c1 c2 : string) :
  option_string_eqb k1 k2 = false -> k1 = Some c1 -> k2 = Some c2 -> c1 <> c2.
Proof.
  intros H -> ->. simpl in H. now apply String.eqb_neq.
Qed.

Lemma try_classes_found (byClass : assignment) (st : Q * option rotation)
  (n n' : nat) (res : (Q * option rotation) * bool) :
  (0.001 <= fst st /\
   forall r, snd st = Some r ->
     0.001 < fst st /\ rotation_found allData headers globalStats (Some ctx) byClass r (fst st)) ->
  try_classes random (JS.keys byClass) byClass allData headers globalStats (Some ctx)
    st n = Some (res, n') ->
  0.001 <= fst (fst res) /\
  forall r, snd (fst res) = Some r ->
    0.001 < fst (fst res)
    /\ rotation_found allData headers globalStats (Some ctx) byClass r (fst (fst res)).
Proof.
  intros HP H. unfold try_classes in H.
  step_as H k1 P1. step_as H k2 P2. step_as H k3 P3.
  destruct (option_string_eqb k1 k2) eqn:E12; cbn [orb] in H.
  { step H. subst res. exact HP. }
  destruct (option_string_eqb k2 k3) eqn:E23; cbn [orb] in H.
  { step H. subst res. exact HP. }
  destruct (option_string_eqb k1 k3) eqn:E13; cbn [orb] in H.
  { step H. subst res. exact HP. }
  step_as H c1 K1. step_as H l1 G1.
  destruct l1 as [|i1 t1]; [step H; subst res; exact HP|].
  step_as H c2 K2. step_as H l2 G2.
  destruct l2 as [|i2 t2]; [step H; subst res; exact HP|].
  step_as H c3 K3. step_as H l3 G3.
  destruct l3 as [|i3 t3]; [step H; subst res; exact HP|].
  step_as H b1 S1. step_as H b2 S2. step_as H b3 S3.
  step_as H st' L. step H. subst res. simpl.
  refine (for_loop_invariant
            (fun st => 0.001 <= fst st /\
               forall r, snd st = Some r ->
                 0.001 < fst st
                 /\ rotation_found allData headers globalStats (Some ctx) byClass r (fst st))
            _ _ _ _ _ _ _ HP L).
  intros st0 m r0 m' HP0 Hb.
  exact (try_rotation_found byClass c1 c2 c3 _ _ _ b1 b2 b3 st0 m m' r0
           (option_string_eqb_false _ _ _ _ E12 K1 K2)
           (option_string_eqb_false _ _ _ _ E23 K2 K3)
           (option_string_eqb_false _ _ _ _ E13 K1 K3)
           G1 G2 G3 S1 S2 S3 HP0 Hb).
Qed.

(** An iteration of the three-way loop either stops the loop, leaving the
    state as it is, or applies one rotation. *)
Lemma threeWay_body_step (st st' : driver_state) (brk : bool) (n n' : nat) :
  threeWay_body random (JS.keys (st_byClass st)) allData headers globalStats ctx st n
  = Some ((st', brk), n') ->
  st' = st
  \/ (applied_rotation allData headers globalStats (Some ctx)
        (st_byClass st) (st_byClass st')
      /\ st_swapsApplied st' = S (st_swapsApplied st)
      /\ st_swaps3Way st' = S (st_swaps3Way st)).
Proof.
  unfold threeWay_body. intro H. step H.
  assert (HP : 0.001 <= fst x /\
               forall r, snd x = Some r ->
                 0.001 < fst x
                 /\ rotation_found allData headers globalStats (Some ctx)
                      (st_byClass st) r (fst x)).
  { refine (for_loop_invariant
              (fun s => 0.001 <= fst s /\
                 forall r, snd s = Some r ->
                   0.001 < fst s
                   /\ rotation_found allData headers globalStats (Some ctx)
                        (st_byClass st) r (fst s))
              _ _ _ _ _ _ _ _ E).
    - intros st0 m r0 m' HP0 Hb. eapply try_classes_found; eauto.
    - simpl. split; [apply Qle_refl | discriminate]. }
  destruct (snd x) as [r|] eqn:Er.
  - step H. step H. inversion E1; subst st' brk. simpl. right.
    destruct HP as [_ HP]. destruct (HP r eq_refl) as [Hg Hf].
    split; auto. exists r, (fst x). auto.
  - step H. inversion E0; subst. auto.
Qed.

End Driver.

(** ** The run as a sequence of applied moves *)

Section Run.

Variable random : nat -> Q.
Variable sheet : string -> option bool.
Variables (allData : list student) (headers : option (list string)).
Variables (ctx : context) (byClass : assignment).

Let globalStats : stats := calculateGlobalStats_Ultimate allData.

Lemma twoWay_loop_reach (k : nat) (st st' : driver_state) (n n' : nat) :
  st_swaps3Way st = 0%nat ->
  reach allData headers globalStats (Some ctx) byClass (st_swapsApplied st) 0
    (st_byClass st) ->
  for_loop k (twoWay_body random allData headers globalStats ctx) st n
  = Some (st', n') ->
  st_swaps3Way st' = 0%nat
  /\ reach allData headers globalStats (Some ctx) byClass (st_swapsApplied st') 0
       (st_byClass st').
Proof.
  intros H3 Hr H.
  refine (for_loop_invariant
            (fun s => st_swaps3Way s = 0%nat
                      /\ reach allData headers globalStats (Some ctx) byClass
                           (st_swapsApplied s) 0 (st_byClass s))
            _ _ _ _ _ _ _ (conj H3 Hr) H).
  intros s m [s' brk] m' [I3 Ir] Hb. simpl.
  apply twoWay_body_step in Hb. destruct Hb as [E3 [[Eb Es]|[Ha Es]]].
  - rewrite E3, Eb, Es. auto.
  - rewrite E3, Es. split; auto. eapply reach_swap; eauto.
Qed.

Lemma threeWay_loop_reach (classNamesU : list string) (j k : nat)
  (st st' : driver_state) (n n' : nat) :
  JS.keys (st_byClass st) = classNamesU ->
  st_swapsApplied st = (k + st_swaps3Way st)%nat ->
  reach allData headers globalStats (Some ctx) byClass k (st_swaps3Way st)
    (st_byClass st) ->
  for_loop j (threeWay_body random classNamesU allData headers globalStats ctx) st n
  = Some (st', n') ->
  st_swapsApplied st' = (k + st_swaps3Way st')%nat
  /\ reach allData headers globalStats (Some ctx) byClass k (st_swaps3Way st')
       (st_byClass st').
Proof.
  intros Hk Hs Hr H.
  refine (proj2 (for_loop_invariant
            (fun s => JS.keys (st_byClass s) = classNamesU
                      /\ st_swapsApplied s = (k + st_swaps3Way s)%nat
                      /\ reach allData headers globalStats (Some ctx) byClass k
                           (st_swaps3Way s) (st_byClass s))
            _ _ _ _ _ _ _ (conj Hk (conj Hs Hr)) H)).
  intros s m [s' brk] m' (Ik & Is & Ir) Hb. simpl.
  rewrite <- Ik in Hb. apply threeWay_body_step in Hb.
  destruct Hb as [->|(Ha & Es & E3)]; auto.
  split; [|split].
  - destruct Ha as (r & g & _ & _ & Ha). apply applyRotation_keys in Ha. congruence.
  - lia.
  - rewrite E3. eapply reach_rotation; eauto.
Qed.

(** What a run that returns has done: its final assignment is reached from
    the loaded one by as many applied swaps and rotations as it reports, and
    its validation is the validator's verdict on the final assignment. *)
Lemma run_reaches (n n' : nat) (res : run_result) (final : assignment) :
  Phase4_Ultimate_Run random sheet ctx (mkData true allData byClass headers) n
  = Some ((res, final), n') ->
  exists (k m : nat) (validationResult : validation),
    res = RunDone (k + m) m (saveResults_Ultimate sheet allData final headers)
            validationResult
    /\ reach allData headers globalStats (Some ctx) byClass k m final
    /\ validateDISSOConstraints_Ultimate allData final headers = Some validationResult.
Proof.
  unfold Phase4_Ultimate_Run.
  cbn [data_ok negb data_allData data_byClass data_headers]. intro H.
  step_as H st2 L2. step_as H st3 L3. step_as H v V. step H.
  inversion E; subst res final. clear E.
  apply twoWay_loop_reach in L2; auto; [|simpl; constructor].
  destruct L2 as [Z3 R2].
  apply (threeWay_loop_reach _ _ (st_swapsApplied st2)) in L3; auto.
  - destruct L3 as [Es R3].
    exists (st_swapsApplied st2), (st_swaps3Way st3), v.
    rewrite Es. auto.
  - lia.
  - rewrite Z3. exact R2.
Qed.

End Run.

(** ** What a scored move went through *)

Section Scored.

Variables (allData : list student) (headers : option (list string)).
Variables (globalStats : stats) (ctx : option context).

Lemma negb_false_true (b : bool) : negb b = false -> b = true.
Proof. now destruct b. Qed.

Lemma evaluate_swap_inv (i1 : nat) (i2 : option nat) (c1 c2 : string)
  (l1 l2 : list nat) (before : Q) (sw : swap) :
  evaluate_swap i1 i2 c1 c2 l1 l2 allData headers globalStats ctx before
  = Some (Some sw) ->
  exists (v2 : nat) (s2 : student) (h : list string) (after1 after2 : Q),
    i2 = Some v2
    /\ nth_error allData v2 = Some s2 /\ isFixed s2 = false
    /\ headers = Some h
    /\ canSwapStudents_Ultimate i1 v2 c1 c2 l1 l2 allData h ctx = Some true
    /\ calculateScore_Ultimate (replace_member l1 i1 v2) allData globalStats c1 ctx
       = Some after1
    /\ calculateScore_Ultimate (replace_member l2 v2 i1) allData globalStats c2 ctx
       = Some after2
    /\ sw = mkSwap i1 v2 c1 c2 (before - (after1 + after2)).
Proof.
  unfold evaluate_swap. intro H.
  step_as H v2 V. step_as H s2 S2. destruct (isFixed s2) eqn:F2; [discriminate|].
  step_as H h Hh. step_as H can C. destruct (negb can) eqn:N; [discriminate|].
  apply negb_false_true in N. subst can.
  step_as H a1 A1. step_as H a2 A2. inversion H.
  exists v2, s2, h, a1, a2. repeat split; auto.
Qed.

Lemma evaluate_rotation_inv (a b c : option nat) (c1 c2 c3 : string)
  (l1 l2 l3 : list nat) (before : Q) (r : rotation) (g : Q) :
  evaluate_rotation a b c c1 c2 c3 l1 l2 l3 allData headers globalStats ctx before
  = Some (Some (r, g)) ->
  exists (va vb vc : nat) (sa sb sc : student) (h : list string)
         (after1 after2 after3 : Q),
    a = Some va /\ b = Some vb /\ c = Some vc
    /\ nth_error allData va = Some sa /\ isFixed sa = false
    /\ nth_error allData vb = Some sb /\ isFixed sb = false
    /\ nth_error allData vc = Some sc /\ isFixed sc = false
    /\ headers = Some h
    /\ canSwapStudents_Ultimate va vb c1 c2 l1 l2 allData h ctx = Some true
    /\ canSwapStudents_Ultimate vb vc c2 c3 l2 l3 allData h ctx = Some true
    /\ calculateScore_Ultimate (replace_member l1 va vc) allData globalStats c1 ctx
       = Some after1
    /\ calculateScore_Ultimate (replace_member l2 vb va) allData globalStats c2 ctx
       = Some after2
    /\ calculateScore_Ultimate (replace_member l3 vc vb) allData globalStats c3 ctx
       = Some after3
    /\ r = mkRotation va vb vc c1 c2 c3
    /\ g = before - (after1 + after2 + after3).
Proof.
  unfold evaluate_rotation, evaluate_rotation_with. intro H.
  step_as H va Va. step_as H sa Sa. destruct (isFixed sa) eqn:Fa; [discriminate|].
  step_as H vb Vb. step_as H sb Sb. destruct (isFixed sb) eqn:Fb; [discriminate|].
  step_as H vc Vc. step_as H sc Sc. destruct (isFixed sc) eqn:Fc; [discriminate|].
  step_as H h Hh.
  step_as H can1 C1. destruct (negb can1) eqn:N1; [discriminate|].
  apply negb_false_true in N1. subst can1.
  step_as H can2 C2. destruct (negb can2) eqn:N2; [discriminate|].
  apply negb_false_true in N2. subst can2.
  step_as H a1 A1. step_as H a2 A2. step_as H a3 A3. inversion H.
  exists va, vb, vc, sa, sb, sc, h, a1, a2, a3. repeat split; auto.
Qed.

End Scored.

(** ** Runs without the DISSO column *)

Lemma reach_without_DISSO (allData : list student) (hs : list string)
  (globalStats : stats) (ctx : option context) (byClass final : assignment)
  (k m : nat) :
  ~ In "DISSO" hs ->
  reach allData (Some hs) globalStats ctx byClass k m final ->
  k = 0%nat /\ m = 0%nat /\ final = byClass.
Proof.
  intros Hno Hr. induction Hr as [|k m mid bc' Hr IH Ha|k m mid bc' Hr IH Ha]; auto.
  - exfalso. destruct Ha as (sw & (l1 & l2 & b1 & b2 & _ & _ & _ & _ & _ & C) & _).
    destruct C as (_ & _ & _ & _ & _ & Ev).
    apply evaluate_swap_inv in Ev.
    destruct Ev as (v2 & s2 & h & a1 & a2 & _ & _ & _ & Hh & Hc & _).
    inversion Hh; subst h.
    eapply canSwap_never_without_DISSO; eauto.
  - exfalso.
    destruct Ha as (r & g & (l1 & l2 & l3 & b1 & b2 & b3 & F) & _).
    destruct F as (_ & _ & _ & _ & _ & _ & _ & _ & _ & _ & _ & _ & Ev).
    apply evaluate_rotation_inv in Ev.
    destruct Ev as (va & vb & vc & sa & sb & sc & h & a1 & a2 & a3 & Ev).
    destruct Ev as (_ & _ & _ & _ & _ & _ & _ & _ & _ & Hh & Hc & _).
    inversion Hh; subst h.
    eapply canSwap_never_without_DISSO; eauto.
Qed.

(** ** Fixed students *)

Lemma members_set (byClass : assignment) (c cls : string) (l : list nat) :
  members (JS.set byClass c l) cls
  = if String.eqb c cls then l else members byClass cls.
Proof.
  unfold members. destruct (String.eqb_spec c cls).
  - subst. now rewrite get_set_same.
  - now rewrite get_set_other.
Qed.

Lemma count_occ_replace_member (l : list nat) (a b i : nat) :
  i <> a -> i <> b ->
  count_occ Nat.eq_dec (replace_member l a b) i = count_occ Nat.eq_dec l i.
Proof.
  intros Ha Hb. unfold replace_member. rewrite count_occ_app. simpl.
  destruct (Nat.eq_dec b i); [congruence|]. rewrite Nat.add_0_r.
  induction l as [|x l IH]; simpl; auto.
  destruct (Nat.eqb_spec x a); simpl.
  - subst x. destruct (Nat.eq_dec a i); [congruence|]. exact IH.
  - destruct (Nat.eq_dec x i); simpl; rewrite IH; reflexivity.
Qed.

(** Rewriting one class by [replace_member] keeps every other index where
    it is. *)
Lemma replace_keeps (byClass : assignment) (c : string) (l : list nat)
  (a b i : nat) (cls : string) :
  JS.get byClass c = Some l -> i <> a -> i <> b ->
  count_occ Nat.eq_dec (members (JS.set byClass c (replace_member l a b)) cls) i
  = count_occ Nat.eq_dec (members byClass cls) i.
Proof.
  intros G Ha Hb. rewrite members_set.
  destruct (String.eqb_spec c cls); auto.
  subst cls. unfold members. rewrite G. now apply count_occ_replace_member.
Qed.

Section Fixed.

Variables (allData : list student) (headers : option (list string)).
Variables (globalStats : stats) (ctx : option context).

Lemma applied_swap_movable (byClass byClass' : assignment) :
  applied_swap allData headers globalStats ctx byClass byClass' ->
  exists sw s1 s2,
    applySwap_Ultimate allData byClass sw headers = Some byClass'
    /\ nth_error allData (idx1 sw) = Some s1 /\ isFixed s1 = false
    /\ nth_error allData (idx2 sw) = Some s2 /\ isFixed s2 = false.
Proof.
  intros (sw & (l1 & l2 & b1 & b2 & _ & _ & _ & _ & _ & C) & _ & Ha).
  destruct C as (_ & _ & _ & _ & (s1 & N1 & F1) & Ev).
  apply evaluate_swap_inv in Ev.
  destruct Ev as (v2 & s2 & h & a1 & a2 & V & N2 & F2 & _).
  inversion V; subst v2.
  exists sw, s1, s2. auto.
Qed.

Lemma applied_rotation_movable (byClass byClass' : assignment) :
  applied_rotation allData headers globalStats ctx byClass byClass' ->
  exists r sa sb sc,
    applyRotation byClass r = Some byClass'
    /\ nth_error allData (rot_a r) = Some sa /\ isFixed sa = false
    /\ nth_error allData (rot_b r) = Some sb /\ isFixed sb = false
    /\ nth_error allData (rot_c r) = Some sc /\ isFixed sc = false.
Proof.
  intros (r & g & (l1 & l2 & l3 & b1 & b2 & b3 & F) & _ & Ha).
  destruct F as (_ & _ & _ & _ & _ & _ & _ & _ & _ & _ & _ & _ & Ev).
  apply evaluate_rotation_inv in Ev.
  destruct Ev as (va & vb & vc & sa & sb & sc & h & a1 & a2 & a3 & Ev).
  destruct Ev as (Va & Vb & Vc & Na & Fa & Nb & Fb & Nc & Fc & _).
  inversion Va; inversion Vb; inversion Vc; subst va vb vc.
  exists r, sa, sb, sc. repeat split; auto.
Qed.

Lemma reach_keeps_fixed (byClass final : assignment) (k m : nat) :
  reach allData headers globalStats ctx byClass k m final ->
  forall i s cls,
    nth_error allData i = Some s -> isFixed s = true ->
    count_occ Nat.eq_dec (members final cls) i
    = count_occ Nat.eq_dec (members byClass cls) i.
Proof.
  intros Hr i s cls Hi Hf.
  induction Hr as [|k m mid bc' Hr IH Ha|k m mid bc' Hr IH Ha]; auto.
  - rewrite <- IH.
    apply applied_swap_movable in Ha.
    destruct Ha as (sw & s1 & s2 & Ha & N1 & F1 & N2 & F2).
    assert (i <> idx1 sw) by (intro; subst i; congruence).
    assert (i <> idx2 sw) by (intro; subst i; congruence).
    unfold applySwap_Ultimate in Ha.
    step Ha. step Ha. step Ha. step_as Ha l1 G1. step_as Ha l2 G2.
    inversion Ha; subst bc'.
    rewrite (replace_keeps _ _ _ _ _ _ _ G2) by auto.
    now rewrite (replace_keeps _ _ _ _ _ _ _ G1) by auto.
  - rewrite <- IH.
    apply applied_rotation_movable in Ha.
    destruct Ha as (r & sa & sb & sc & Ha & Na & Fa & Nb & Fb & Nc & Fc).
    assert (i <> rot_a r) by (intro; subst i; congruence).
    assert (i <> rot_b r) by (intro; subst i; congruence).
    assert (i <> rot_c r) by (intro; subst i; congruence).
    unfold applyRotation in Ha.
    step_as Ha l1 G1. step_as Ha l2 G2. step_as Ha l3 G3.
    inversion Ha; subst bc'.
    rewrite (replace_keeps _ _ _ _ _ _ _ G3) by auto.
    rewrite (replace_keeps _ _ _ _ _ _ _ G2) by auto.
    now rewrite (replace_keeps _ _ _ _ _ _ _ G1) by auto.
Qed.

End Fixed.

(** C6.  Every swap and every rotation the driver applies exchanges students
    for whom [isFixed] is false, and a student marked fixed is, after a run,
    a member of exactly the classes it was a member of when the run
    started (as often as before). *)
Theorem fixed_students_stay (random : nat -> Q) (sheet : string -> option bool)
  (ctx : context) (allData : list student) (byClass : assignment)
  (headers : option (list string)) :
  let globalStats := calculateGlobalStats_Ultimate allData in
  (forall mid mid',
      applied_swap allData headers globalStats (Some ctx) mid mid' ->
      exists sw s1 s2,
        applySwap_Ultimate allData mid sw headers = Some mid'
        /\ nth_error allData (idx1 sw) = Some s1 /\ isFixed s1 = false
        /\ nth_error allData (idx2 sw) = Some s2 /\ isFixed s2 = false)
  /\ (forall mid mid',
        applied_rotation allData headers globalStats (Some ctx) mid mid' ->
        exists r sa sb sc,
          applyRotation mid r = Some mid'
          /\ nth_error allData (rot_a r) = Some sa /\ isFixed sa = false
          /\ nth_error allData (rot_b r) = Some sb /\ isFixed sb = false
          /\ nth_error allData (rot_c r) = Some sc /\ isFixed sc = false)
  /\ (forall n n' res final,
        Phase4_Ultimate_Run random sheet ctx (mkData true allData byClass headers) n
        = Some ((res, final), n') ->
        (exists k m v,
            res = RunDone (k + m) m (saveResults_Ultimate sheet allData final headers) v
            /\ reach allData headers globalStats (Some ctx) byClass k m final)
        /\ forall i s cls,
             nth_error allData i = Some s -> isFixed s = true ->
             count_occ Nat.eq_dec (members final cls) i
             = count_occ Nat.eq_dec (members byClass cls) i).
Proof.
  intro globalStats. split; [|split].
  - intros mid mid' H. exact (applied_swap_movable _ _ _ _ _ _ H).
  - intros mid mid' H. exact (applied_rotation_movable _ _ _ _ _ _ H).
  - intros n n' res final H. apply run_reaches in H.
    destruct H as (k & m & v & Hres & Hr & _). split.
    + exists k, m, v. auto.
    + intros i s cls Hi Hf. eapply reach_keeps_fixed; eauto.
Qed.

Lemma fixed_students_stay_witness :
  exists res final n',
    Phase4_Ultimate_Run Examples.draws Examples.all_sheets Examples.bare_ctx
      (mkData true Examples.cohort_fixed Examples.three_classes
         (Some Examples.headers)) 0%nat
    = Some ((res, final), n')
    /\ count_occ Nat.eq_dec (members final "A") 1%nat
       = count_occ Nat.eq_dec (members Examples.three_classes "A") 1%nat.
Proof.
  destruct (Phase4_Ultimate_Run Examples.draws Examples.all_sheets Examples.bare_ctx
              (mkData true Examples.cohort_fixed Examples.three_classes
                 (Some Examples.headers)) 0%nat)
    as [[[res final] n']|] eqn:E.
  - exists res, final, n'. split; auto.
    destruct (fixed_students_stay Examples.draws Examples.all_sheets Examples.bare_ctx
                Examples.cohort_fixed Examples.three_classes (Some Examples.headers))
      as (_ & _ & R).
    destruct (R _ _ _ _ E) as [_ K].
    apply (K 1%nat (Examples.pupil "x" "F" "D1" "FIXE") "A"); reflexivity.
  - vm_compute in E. discriminate.
Defined.

(** ** The total score along the moves *)

Section Total.

Variables (allData : list student) (headers : option (list string)).
Variables (globalStats : stats) (ctx : option context).

(** Rewriting the members of one class changes the total by the change of
    the score of that class. *)
Lemma total_score_set (byClass : assignment) (c : string) (l l' : list nat)
  (T s s' : Q) :
  JS.get byClass c = Some l ->
  total_score allData globalStats ctx byClass = Some T ->
  calculateScore_Ultimate l allData globalStats c ctx = Some s ->
  calculateScore_Ultimate l' allData globalStats c ctx = Some s' ->
  exists T', total_score allData globalStats ctx (JS.set byClass c l') = Some T'
             /\ T' == T - s + s'.
Proof.
  revert T. induction byClass as [|[k v] t IH]; intros T G HT Hs Hs'; simpl in *.
  - discriminate.
  - step_as HT sv Sv. step_as HT rest R. inversion HT; subst T. clear HT.
    destruct (String.eqb_spec k c).
    + subst k. inversion G; subst v. simpl. rewrite Hs', R. simpl.
      rewrite Hs in Sv. inversion Sv; subst sv.
      eexists. split; [reflexivity|]. ring.
    + simpl. rewrite Sv. simpl.
      destruct (IH rest G R Hs Hs') as (T' & -> & ET). simpl.
      eexists. split; [reflexivity|]. rewrite ET. ring.
Qed.

Lemma applied_swap_total (byClass byClass' : assignment) (T : Q) :
  applied_swap allData headers globalStats ctx byClass byClass' ->
  total_score allData globalStats ctx byClass = Some T ->
  exists T' sw before1 before2 after1 after2,
    total_score allData globalStats ctx byClass' = Some T'
    /\ calculateScore_Ultimate (members byClass (cls1 sw)) allData globalStats
         (cls1 sw) ctx = Some before1
    /\ calculateScore_Ultimate (members byClass (cls2 sw)) allData globalStats
         (cls2 sw) ctx = Some before2
    /\ calculateScore_Ultimate (members byClass' (cls1 sw)) allData globalStats
         (cls1 sw) ctx = Some after1
    /\ calculateScore_Ultimate (members byClass' (cls2 sw)) allData globalStats
         (cls2 sw) ctx = Some after2
    /\ gain sw = before1 + before2 - (after1 + after2)
    /\ 0.0001 < gain sw
    /\ T' == T - gain sw
    /\ forall cls, cls <> cls1 sw -> cls <> cls2 sw ->
                   members byClass' cls = members byClass cls.
Proof.
  intros (sw & (l1 & l2 & b1 & b2 & Hne & G1 & G2 & S1 & S2 & C) & Hg & Ha) HT.
  destruct C as (_ & _ & _ & _ & _ & Ev).
  apply evaluate_swap_inv in Ev.
  destruct Ev as (v2 & s2 & h & a1 & a2 & V & _ & _ & _ & _ & A1 & A2 & Esw).
  inversion V; subst v2. clear V.
  unfold applySwap_Ultimate in Ha.
  step Ha. step Ha. step Ha. step_as Ha l1' G1'. step_as Ha l2' G2'.
  inversion Ha; subst byClass'. clear Ha.
  rewrite G1 in G1'. inversion G1'; subst l1'.
  rewrite get_set_other in G2' by assumption.
  rewrite G2 in G2'. inversion G2'; subst l2'.
  destruct (total_score_set byClass (cls1 sw) l1
              (replace_member l1 (idx1 sw) (idx2 sw)) T b1 a1 G1 HT S1 A1)
    as (T1 & HT1 & Q1).
  assert (G2b : JS.get (JS.set byClass (cls1 sw)
                          (replace_member l1 (idx1 sw) (idx2 sw))) (cls2 sw) = Some l2)
    by (rewrite get_set_other; assumption).
  destruct (total_score_set _ (cls2 sw) l2
              (replace_member l2 (idx2 sw) (idx1 sw)) T1 b2 a2 G2b HT1 S2 A2)
    as (T2 & HT2 & Q2).
  exists T2, sw, b1, b2, a1, a2.
  assert (N21 : cls2 sw <> cls1 sw) by congruence.
  split; [assumption|].
  split; [unfold members; rewrite G1; assumption|].
  split; [unfold members; rewrite G2; assumption|].
  split; [rewrite members_set, (proj2 (String.eqb_neq _ _) N21), members_set,
            String.eqb_refl; assumption|].
  split; [rewrite members_set, String.eqb_refl; assumption|].
  split; [rewrite Esw; reflexivity|].
  split; [assumption|].
  split.
  - rewrite Q2, Q1. rewrite Esw. simpl. ring.
  - intros cls N1 N2. rewrite !members_set.
    destruct (String.eqb_spec (cls2 sw) cls); [congruence|].
    destruct (String.eqb_spec (cls1 sw) cls); [congruence|]. reflexivity.
Qed.

Lemma applied_rotation_total (byClass byClass' : assignment) (T : Q) :
  applied_rotation allData headers globalStats ctx byClass byClass' ->
  total_score allData globalStats ctx byClass = Some T ->
  exists T' r gain3 before1 before2 before3 after1 after2 after3,
    total_score allData globalStats ctx byClass' = Some T'
    /\ calculateScore_Ultimate (members byClass (rot_c1 r)) allData globalStats
         (rot_c1 r) ctx = Some before1
    /\ calculateScore_Ultimate (members byClass (rot_c2 r)) allData globalStats
         (rot_c2 r) ctx = Some before2
    /\ calculateScore_Ultimate (members byClass (rot_c3 r)) allData globalStats
         (rot_c3 r) ctx = Some before3
    /\ calculateScore_Ultimate (members byClass' (rot_c1 r)) allData globalStats
         (rot_c1 r) ctx = Some after1
    /\ calculateScore_Ultimate (members byClass' (rot_c2 r)) allData globalStats
         (rot_c2 r) ctx = Some after2
    /\ calculateScore_Ultimate (members byClass' (rot_c3 r)) allData globalStats
         (rot_c3 r) ctx = Some after3
    /\ gain3 = before1 + before2 + before3 - (after1 + after2 + after3)
    /\ 0.001 < gain3
    /\ T' == T - gain3
    /\ forall cls, cls <> rot_c1 r -> cls <> rot_c2 r -> cls <> rot_c3 r ->
                   members byClass' cls = members byClass cls.
Proof.
  intros (r & g & (l1 & l2 & l3 & b1 & b2 & b3 & F) & Hg & Ha) HT.
  destruct F as (N12 & N23 & N13 & G1 & G2 & G3 & S1 & S2 & S3 & _ & _ & _ & Ev).
  apply evaluate_rotation_inv in Ev.
  destruct Ev as (va & vb & vc & sa & sb & sc & h & a1 & a2 & a3 & Ev).
  destruct Ev as (Va & Vb & Vc & _ & _ & _ & _ & _ & _ & _ & _ & _ & A1 & A2 & A3 & _ & Eg).
  inversion Va; inversion Vb; inversion Vc; subst va vb vc. clear Va Vb Vc.
  unfold applyRotation in Ha.
  step_as Ha l1' G1'. step_as Ha l2' G2'. step_as Ha l3' G3'.
  inversion Ha; subst byClass'. clear Ha.
  rewrite G1 in G1'. inversion G1'; subst l1'.
  rewrite get_set_other in G2' by assumption.
  rewrite G2 in G2'. inversion G2'; subst l2'.
  rewrite !get_set_other in G3' by assumption.
  rewrite G3 in G3'. inversion G3'; subst l3'.
  destruct (total_score_set byClass (rot_c1 r) l1
              (replace_member l1 (rot_a r) (rot_c r)) T b1 a1 G1 HT S1 A1)
    as (T1 & HT1 & Q1).
  assert (G2b : JS.get (JS.set byClass (rot_c1 r)
                          (replace_member l1 (rot_a r) (rot_c r))) (rot_c2 r) = Some l2)
    by (rewrite get_set_other; assumption).
  destruct (total_score_set _ (rot_c2 r) l2
              (replace_member l2 (rot_b r) (rot_a r)) T1 b2 a2 G2b HT1 S2 A2)
    as (T2 & HT2 & Q2).
  assert (G3b : JS.get (JS.set (JS.set byClass (rot_c1 r)
                                  (replace_member l1 (rot_a r) (rot_c r)))
                          (rot_c2 r) (replace_member l2 (rot_b r) (rot_a r)))
                  (rot_c3 r) = Some l3)
    by (rewrite !get_set_other; assumption).
  destruct (total_score_set _ (rot_c3 r) l3
              (replace_member l3 (rot_c r) (rot_b r)) T2 b3 a3 G3b HT2 S3 A3)
    as (T3 & HT3 & Q3).
  exists T3, r, g, b1, b2, b3, a1, a2, a3.
  assert (N21 : rot_c2 r <> rot_c1 r) by congruence.
  assert (N32 : rot_c3 r <> rot_c2 r) by congruence.
  assert (N31 : rot_c3 r <> rot_c1 r) by congruence.
  split; [assumption|].
  split; [unfold members; rewrite G1; assumption|].
  split; [unfold members; rewrite G2; assumption|].
  split; [unfold members; rewrite G3; assumption|].
  split; [rewrite members_set, (proj2 (String.eqb_neq _ _) N31), members_set,
            (proj2 (String.eqb_neq _ _) N21), members_set, String.eqb_refl;
          assumption|].
  split; [rewrite members_set, (proj2 (String.eqb_neq _ _) N32), members_set,
            String.eqb_refl; assumption|].
  split; [rewrite members_set, String.eqb_refl; assumption|].
  split; [assumption|].
  split; [assumption|].
  split.
  - rewrite Q3, Q2, Q1, Eg. ring.
  - intros cls M1 M2 M3. rewrite !members_set.
    destruct (String.eqb_spec (rot_c3 r) cls); [congruence|].
    destruct (String.eqb_spec (rot_c2 r) cls); [congruence|].
    destruct (String.eqb_spec (rot_c1 r) cls); [congruence|]. reflexivity.
Qed.

Lemma Qnat_S (k : nat) : Qnat (S k) == Qnat k + 1.
Proof.
  unfold Qnat. rewrite Nat2Z.inj_succ. unfold Z.succ.
  rewrite inject_Z_plus. reflexivity.
Qed.

Lemma reach_total (byClass final : assignment) (k m : nat) (T : Q) :
  reach allData headers globalStats ctx byClass k m final ->
  total_score allData globalStats ctx byClass = Some T ->
  exists T', total_score allData globalStats ctx final = Some T'
             /\ T' + Qnat k * 0.0001 + Qnat m * 0.001 <= T.
Proof.
  intros Hr HT.
  induction Hr as [|k m mid bc' Hr IH Ha|k m mid bc' Hr IH Ha].
  - exists T. split; auto. change (Qnat 0%nat) with 0. lra.
  - destruct IH as (T1 & HT1 & L1).
    destruct (applied_swap_total _ _ _ Ha HT1)
      as (T2 & sw & b1 & b2 & a1 & a2 & HT2 & _ & _ & _ & _ & _ & Hg & E2 & _).
    exists T2. split; auto. rewrite Qnat_S. lra.
  - destruct IH as (T1 & HT1 & L1).
    destruct (applied_rotation_total _ _ _ Ha HT1)
      as (T2 & r & g & b1 & b2 & b3 & a1 & a2 & a3 & HT2 & _ & _ & _ & _ & _ & _ & _
          & Hg & E2 & _).
    exists T2. split; auto. rewrite Qnat_S. lra.
Qed.

End Total.

(** C4.  Every applied swap has a gain above 1e-4, which is the score of its
    two classes before minus after; every applied rotation has a gain above
    0.001 over its three classes; both leave the members of every other
    class as they are, so that the sum of the class scores decreases by the
    gain at each applied move.  Over a run, the final sum is below the
    initial one by at least 1e-4 per swap and 0.001 per rotation. *)
Theorem total_score_decreases (random : nat -> Q) (sheet : string -> option bool)
  (ctx : context) (allData : list student) (byClass : assignment)
  (headers : option (list string)) :
  let globalStats := calculateGlobalStats_Ultimate allData in
  (forall mid mid' T,
      applied_swap allData headers globalStats (Some ctx) mid mid' ->
      total_score allData globalStats (Some ctx) mid = Some T ->
      exists T' sw before1 before2 after1 after2,
        total_score allData globalStats (Some ctx) mid' = Some T'
        /\ calculateScore_Ultimate (members mid (cls1 sw)) allData globalStats
             (cls1 sw) (Some ctx) = Some before1
        /\ calculateScore_Ultimate (members mid (cls2 sw)) allData globalStats
             (cls2 sw) (Some ctx) = Some before2
        /\ calculateScore_Ultimate (members mid' (cls1 sw)) allData globalStats
             (cls1 sw) (Some ctx) = Some after1
        /\ calculateScore_Ultimate (members mid' (cls2 sw)) allData globalStats
             (cls2 sw) (Some ctx) = Some after2
        /\ gain sw = before1 + before2 - (after1 + after2)
        /\ 0.0001 < gain sw
        /\ T' == T - gain sw
        /\ T' < T
        /\ forall cls, cls <> cls1 sw -> cls <> cls2 sw ->
                       members mid' cls = members mid cls)
  /\ (forall mid mid' T,
        applied_rotation allData headers globalStats (Some ctx) mid mid' ->
        total_score allData globalStats (Some ctx) mid = Some T ->
        exists T' r gain3 before1 before2 before3 after1 after2 after3,
          total_score allData globalStats (Some ctx) mid' = Some T'
          /\ calculateScore_Ultimate (members mid (rot_c1 r)) allData globalStats
               (rot_c1 r) (Some ctx) = Some before1
          /\ calculateScore_Ultimate (members mid (rot_c2 r)) allData globalStats
               (rot_c2 r) (Some ctx) = Some before2
          /\ calculateScore_Ultimate (members mid (rot_c3 r)) allData globalStats
               (rot_c3 r) (Some ctx) = Some before3
          /\ calculateScore_Ultimate (members mid' (rot_c1 r)) allData globalStats
               (rot_c1 r) (Some ctx) = Some after1
          /\ calculateScore_Ultimate (members mid' (rot_c2 r)) allData globalStats
               (rot_c2 r) (Some ctx) = Some after2
          /\ calculateScore_Ultimate (members mid' (rot_c3 r)) allData globalStats
               (rot_c3 r) (Some ctx) = Some after3
          /\ gain3 = before1 + before2 + before3 - (after1 + after2 + after3)
          /\ 0.001 < gain3
          /\ T' == T - gain3
          /\ T' < T
          /\ forall cls, cls <> rot_c1 r -> cls <> rot_c2 r -> cls <> rot_c3 r ->
                         members mid' cls = members mid cls)
  /\ (forall n n' res final T,
        Phase4_Ultimate_Run random sheet ctx (mkData true allData byClass headers) n
        = Some ((res, final), n') ->
        total_score allData globalStats (Some ctx) byClass = Some T ->
        exists k m v T',
          res = RunDone (k + m) m (saveResults_Ultimate sheet allData final headers) v
          /\ reach allData headers globalStats (Some ctx) byClass k m final
          /\ total_score allData globalStats (Some ctx) final = Some T'
          /\ T' + Qnat k * 0.0001 + Qnat m * 0.001 <= T).
Proof.
  intro globalStats. split; [|split].
  - intros mid mid' T Ha HT.
    destruct (applied_swap_total _ _ _ _ _ _ _ Ha HT)
      as (T' & sw & b1 & b2 & a1 & a2 & H1 & H2 & H3 & H4 & H5 & H6 & H7 & H8 & H9).
    exists T', sw, b1, b2, a1, a2. repeat (split; [assumption|]).
    split; [lra | assumption].
  - intros mid mid' T Ha HT.
    destruct (applied_rotation_total _ _ _ _ _ _ _ Ha HT)
      as (T' & r & g & b1 & b2 & b3 & a1 & a2 & a3 & H1 & H2 & H3 & H4 & H5 & H6 & H7
          & H8 & H9 & H10 & H11).
    exists T', r, g, b1, b2, b3, a1, a2, a3. repeat (split; [assumption|]).
    split; [lra | assumption].
  - intros n n' res final T H HT. apply run_reaches in H.
    destruct H as (k & m & v & Hres & Hr & _).
    destruct (reach_total _ _ _ _ _ _ _ _ _ Hr HT) as (T' & HT' & L).
    exists k, m, v, T'. auto.
Qed.

Lemma total_score_decreases_witness :
  exists T T' k m final,
    total_score Examples.cohort (calculateGlobalStats_Ultimate Examples.cohort)
      (Some Examples.bare_ctx) Examples.three_classes = Some T
    /\ reach Examples.cohort (Some Examples.headers)
         (calculateGlobalStats_Ultimate Examples.cohort) (Some Examples.bare_ctx)
         Examples.three_classes k m final
    /\ total_score Examples.cohort (calculateGlobalStats_Ultimate Examples.cohort)
         (Some Examples.bare_ctx) final = Some T'
    /\ T' + Qnat k * 0.0001 + Qnat m * 0.001 <= T.
Proof.
  destruct (Phase4_Ultimate_Run Examples.draws Examples.all_sheets Examples.bare_ctx
              (mkData true Examples.cohort Examples.three_classes
                 (Some Examples.headers)) 0%nat)
    as [[[res final] n']|] eqn:E; [|vm_compute in E; discriminate].
  destruct (total_score Examples.cohort (calculateGlobalStats_Ultimate Examples.cohort)
              (Some Examples.bare_ctx) Examples.three_classes)
    as [T|] eqn:ET; [|vm_compute in ET; discriminate].
  destruct (total_score_decreases Examples.draws Examples.all_sheets Examples.bare_ctx
              Examples.cohort Examples.three_classes (Some Examples.headers))
    as (_ & _ & R).
  destruct (R _ _ _ _ _ E ET) as (k & m & v & T' & _ & Hr & HT' & L).
  exists T, T', k, m, final. auto.
Defined.

(** ** The empty cohort *)

Lemma for_loop_break {St : Type} (k : nat) (body : St -> Rand (St * bool))
  (st st' : St) (n n' : nat) :
  body st n = Some ((st', true), n') ->
  for_loop (S k) body st n = Some (st', n').
Proof. intro H. simpl. unfold bind. rewrite H. reflexivity. Qed.

(** A body that returns the state it got, after [d] draws, makes a loop that
    returns it after [k * d] draws. *)
Lemma for_loop_idle {St : Type} (k d : nat) (body : St -> Rand (St * bool)) (st : St) :
  (forall n, body st n = Some ((st, false), (n + d)%nat)) ->
  forall n, for_loop k body st n = Some (st, (n + k * d)%nat).
Proof.
  intro H. induction k as [|k IH]; intro n; simpl.
  - unfold ret. do 2 f_equal. lia.
  - unfold bind. rewrite H. simpl. rewrite IH. do 2 f_equal. lia.
Qed.

Lemma at_index_nil {A : Type} (i : Z) : JS.at_index (@nil A) i = None.
Proof.
  unfold JS.at_index. destruct (i <? 0)%Z; auto. now destruct (Z.to_nat i).
Qed.

Section EmptyCohort.

Variable random : nat -> Q.
Variable sheet : string -> option bool.
Variable ctx : context.
Variable headers : option (list string).

Let globalStats : stats := calculateGlobalStats_Ultimate [].

Lemma twoWay_loop_empty (n : nat) :
  for_loop ULTIMATE_CONFIG.maxSwaps (twoWay_body random [] headers globalStats ctx)
    (mkDriver [] 0 0 0) n
  = Some (mkDriver [] 0 0 0, n).
Proof.
  change ULTIMATE_CONFIG.maxSwaps with (S 1999).
  apply for_loop_break. reflexivity.
Qed.

Lemma try_classes_empty (st : Q * option rotation) (n : nat) :
  try_classes random [] [] [] headers globalStats (Some ctx) st n
  = Some ((st, false), (n + 3)%nat).
Proof.
  unfold try_classes, pick, bind, Math_random, ret.
  rewrite !at_index_nil. simpl. do 2 f_equal. lia.
Qed.

Lemma threeWay_loop_empty (n : nat) :
  for_loop 200 (threeWay_body random [] [] headers globalStats ctx)
    (mkDriver [] 0 0 0) n
  = Some (mkDriver [] 0 0 0, (n + 45)%nat).
Proof.
  change 200%nat with (S 199).
  apply for_loop_break. unfold threeWay_body. unfold bind at 1.
  cbn [st_byClass].
  rewrite (for_loop_idle 15 3 _ _ (try_classes_empty (0.001, None))).
  reflexivity.
Qed.

Lemma run_empty (n : nat) :
  Phase4_Ultimate_Run random sheet ctx (mkData true [] [] headers) n
  = match headers with
    | None => None
    | Some h =>
        Some ((RunDone 0 0 (saveResults_Ultimate sheet [] [] headers)
                 (mkValidation true []), []), (n + 45)%nat)
    end.
Proof.
  unfold Phase4_Ultimate_Run.
  cbn [data_ok negb data_allData data_byClass data_headers].
  unfold bind at 1. fold globalStats. rewrite twoWay_loop_empty.
  cbn [st_byClass JS.keys map].
  unfold bind at 1. rewrite threeWay_loop_empty.
  cbn [st_byClass st_swapsApplied st_swaps3Way].
  unfold bind, lift, ret, validateDISSOConstraints_Ultimate.
  destruct headers as [h|]; simpl; auto.
  destruct (JS.indexOf h "DISSO" =? -1)%Z; reflexivity.
Qed.

End EmptyCohort.

(** C9 at its failing input.  On the data of an empty cohort the loader
    leaves [headers] null, and the run raises in the validator, whatever the
    random source; it returns [ok = true] with no swap only when a header
    row was read. *)
Theorem run_empty_cohort (random : nat -> Q) (sheet : string -> option bool)
  (ctx : context) (n : nat) :
  Phase4_Ultimate_Run random sheet ctx (mkData true [] [] None) n = None
  /\ forall h,
       exists res,
         Phase4_Ultimate_Run random sheet ctx (mkData true [] [] (Some h)) n
         = Some ((res, []), (n + 45)%nat)
         /\ result_ok res = true
         /\ res = RunDone 0 0 (saveResults_Ultimate sheet [] [] (Some h))
                    (mkValidation true []).
Proof.
  split.
  - apply (run_empty random sheet ctx None).
  - intro h. eexists. split; [apply (run_empty random sheet ctx (Some h))|].
    split; reflexivity.
Qed.

(** ** The worst class *)

Lemma Qsquare_nonneg (z : Z) : 0 <= inject_Z z ^ 2.
Proof. unfold Qle. simpl. nia. Qed.

Lemma Qcube_nonneg (z : Z) : (0 <= z)%Z -> 0 <= inject_Z z ^ 3.
Proof. intro H. unfold Qle. simpl. nia. Qed.

Lemma profile_terms_nonneg (students : list student) (cohort : stats) (p : Q) :
  0 <= Spec.profile_terms students cohort p.
Proof.
  unfold Spec.profile_terms, Spec.head_min, Spec.head_max, Spec.niv1_max.
  set (h := Z.of_nat (count isHead students)).
  set (l := Z.of_nat (count isNiv1 students)).
  assert (A1 : 0 <= if (h <? 2)%Z then inject_Z (2 - h) ^ 2 * 500 else 0).
  { destruct (h <? 2)%Z; [|lra].
    pose proof (Qsquare_nonneg (2 - h)). lra. }
  assert (A2 : 0 <= if (5 <? h)%Z then inject_Z (h - 5) * 200 else 0).
  { destruct (Z.ltb_spec 5 h); [|lra].
    assert (0 <= inject_Z (h - 5)) by (unfold Qle; simpl; lia). lra. }
  assert (A3 : 0 <= if (4 <? l)%Z then inject_Z (l - 4) ^ 3 * 100 else 0).
  { destruct (Z.ltb_spec 4 l); [|lra].
    pose proof (Qcube_nonneg (l - 4) ltac:(lia)). lra. }
  pose proof (Qabs_nonneg (Spec.ratio_F students - ratioF cohort)).
  pose proof (Qabs_nonneg (Spec.mean COM students - avgCOM cohort)).
  pose proof (Qabs_nonneg (Spec.mean TRA students - avgTRA cohort)).
  pose proof (Qabs_nonneg (Spec.mean PART students - p)).
  lra.
Qed.

(** The score of a class is never negative. *)
Lemma calculateScore_nonneg (indices : list nat) (allData : list student)
  (gs : stats) (className : string) (ctx : option context) (q : Q) :
  calculateScore_Ultimate indices allData gs className ctx = Some q -> 0 <= q.
Proof.
  unfold calculateScore_Ultimate. destruct indices as [|i indices].
  - intro H; inversion H. lra.
  - destruct (defined (students_at allData (i :: indices))) as [students|];
      [|discriminate].
    intro H; inversion H. rewrite score_of_profile.
    pose proof (profile_terms_nonneg students gs (JS.or_number (avgPART gs) 2.5)).
    destruct (target_of className ctx) as [t|]; [|lra].
    unfold Spec.headcount_term.
    pose proof (Qsquare_nonneg (Z.of_nat (List.length students) - Z.of_N t)). lra.
Qed.

Lemma findWorstClass_loop_some (entries : assignment) (allData : list student)
  (gs : stats) (ctx : option context) (maxScore : Q) (worst r : option string) :
  findWorstClass_loop entries allData gs ctx maxScore worst = Some r ->
  (worst <> None -> r <> None)
  /\ (maxScore < 0 -> entries <> [] -> r <> None).
Proof.
  revert maxScore worst. induction entries as [|[cls l] t IH];
    intros maxScore worst H; simpl in H.
  - inversion H; subst. split; [auto | intros _ Hne; now elim Hne].
  - step_as H s Sc. pose proof (calculateScore_nonneg _ _ _ _ _ _ Sc) as Hs.
    destruct (JS.gt s maxScore) eqn:Eg.
    + apply IH in H. destruct H as [H _].
      split; intros; apply H; discriminate.
    + apply IH in H. destruct H as [H _]. split; auto.
      intros Hm _. exfalso.
      assert (maxScore < s) by lra. apply gt_true in H0. congruence.
Qed.

(** [findWorstClass_Ultimate] returns no class exactly when there is no
    class at all. *)
Lemma findWorstClass_none_iff (byClass : assignment) (allData : list student)
  (gs : stats) (ctx : option context) :
  findWorstClass_Ultimate byClass allData gs ctx = Some None <-> byClass = [].
Proof.
  split.
  - intro H. destruct byClass as [|e t]; auto.
    apply findWorstClass_loop_some in H. destruct H as [_ H].
    exfalso. exact (H ltac:(reflexivity) ltac:(discriminate) eq_refl).
  - intros ->. reflexivity.
Qed.

(** C7 at its failing input.  The single class {p, q} has score 0, yet
    [findWorstClass_Ultimate] returns it, and the iteration of the driver
    goes on (it counts a stagnation, having found no partner) instead of
    stopping; no class is returned only when there is no class. *)
Theorem findWorstClass_perfect_class :
  let gs := calculateGlobalStats_Ultimate Examples.two_tops in
  returns (calculateScore_Ultimate [0; 1]%nat Examples.two_tops gs "A"
             (Some Examples.bare_ctx)) 0
  /\ findWorstClass_Ultimate Examples.one_class Examples.two_tops gs
       (Some Examples.bare_ctx) = Some (Some "A")
  /\ twoWay_body Examples.draws Examples.two_tops (Some Examples.headers) gs
       Examples.bare_ctx (mkDriver Examples.one_class 0 0 0) 0%nat
     = Some ((mkDriver Examples.one_class 0 1 0, false), 0%nat)
  /\ forall byClass allData gs ctx,
       findWorstClass_Ultimate byClass allData gs ctx = Some None <-> byClass = [].
Proof.
  intro gs. split; [|split; [|split]].
  - vm_compute. reflexivity.
  - vm_compute. reflexivity.
  - vm_compute. reflexivity.
  - apply findWorstClass_none_iff.
Qed.

(** ** Antinomy codes and the rotations *)

(** C1 at its failing input.  The three classes A = {a, x}, B = {b, y},
    C = {c, z}, where x and c carry the code D1, hold no duplicated code and
    pass the validator; the run on them applies one rotation (a to B, b to
    C, c to A), and the assignment it reaches has x and c, both D1, in
    class A: the validator of the run itself reports the duplication. *)
Theorem rotation_breaks_antinomy :
  let gs := calculateGlobalStats_Ultimate Examples.cohort in
  antinomy_free Examples.cohort Examples.headers Examples.three_classes
  /\ validateDISSOConstraints_Ultimate Examples.cohort Examples.three_classes
       (Some Examples.headers) = Some (mkValidation true [])
  /\ Phase4_Ultimate_Run Examples.draws Examples.all_sheets Examples.bare_ctx
       (mkData true Examples.cohort Examples.three_classes (Some Examples.headers))
       0%nat
     = Some ((RunDone 1 1 (mkSave true 3 0)
                (mkValidation false [mkDuplicate "A" "D1" 2 ["x"; "c"]]),
              Examples.rotated), 520%nat)
  /\ reach Examples.cohort (Some Examples.headers) gs (Some Examples.bare_ctx)
       Examples.three_classes 0 1 Examples.rotated
  /\ ~ antinomy_free Examples.cohort Examples.headers Examples.rotated.
Proof.
  intro gs.
  assert (R : Phase4_Ultimate_Run Examples.draws Examples.all_sheets Examples.bare_ctx
                (mkData true Examples.cohort Examples.three_classes
                   (Some Examples.headers)) 0%nat
              = Some ((RunDone 1 1 (mkSave true 3 0)
                         (mkValidation false [mkDuplicate "A" "D1" 2 ["x"; "c"]]),
                       Examples.rotated), 520%nat))
    by (vm_compute; reflexivity).
  split; [|split; [|split; [|split]]].
  - intros cls indices Hin. simpl in Hin.
    destruct Hin as [H|[H|[H|[]]]]; inversion H; subst; vm_compute;
      repeat constructor; simpl; tauto.
  - vm_compute. reflexivity.
  - exact R.
  - apply run_reaches in R. destruct R as (k & m & v & Hres & Hr & _).
    inversion Hres. subst m. assert (k = 0%nat) by lia. subst k. exact Hr.
  - intro H. specialize (H "A" [1; 4]%nat (or_introl eq_refl)).
    vm_compute in H. inversion H as [|? ? Hn _]. apply Hn. left. reflexivity.
Qed.

(** ** Which rotations are scored *)

Lemma students_defined (allData : list student) (l : list nat) :
  Forall (fun i => i < List.length allData)%nat l ->
  exists students, defined (students_at allData l) = Some students.
Proof.
  induction 1 as [|i l Hi Hl IH]; simpl; eauto.
  destruct (nth_error allData i) eqn:E; [|apply nth_error_None in E; lia].
  destruct IH as [students ->]. eauto.
Qed.

Lemma calculateScore_defined (allData : list student) (l : list nat) (gs : stats)
  (className : string) (ctx : option context) :
  Forall (fun i => i < List.length allData)%nat l ->
  exists q, calculateScore_Ultimate l allData gs className ctx = Some q.
Proof.
  intro H. unfold calculateScore_Ultimate. destruct l; eauto.
  destruct (students_defined allData _ H) as [students ->]. eauto.
Qed.

Lemma replace_member_valid (allData : list student) (l : list nat) (a b : nat) :
  Forall (fun i => i < List.length allData)%nat l ->
  (b < List.length allData)%nat ->
  Forall (fun i => i < List.length allData)%nat (replace_member l a b).
Proof.
  intros Hl Hb. unfold replace_member. apply Forall_app. split.
  - rewrite Forall_forall in *. intros x Hx. apply filter_In in Hx. apply Hl, Hx.
  - auto.
Qed.

Lemma nth_error_valid {A : Type} (l : list A) (i : nat) (x : A) :
  nth_error l i = Some x -> (i < List.length l)%nat.
Proof. intro H. apply nth_error_Some. congruence. Qed.

Lemma valid_member (allData : list student) (l : list nat) (i : nat) :
  Forall (fun i => i < List.length allData)%nat l -> In i l ->
  exists s, nth_error allData i = Some s.
Proof.
  intros V Hin. rewrite Forall_forall in V. apply V in Hin.
  destruct (nth_error allData i) eqn:E; eauto.
  apply nth_error_None in E. lia.
Qed.

(** A triple with a fixed student is skipped before the check is called:
    the evaluation returns without a rotation whatever the check is, one
    that raises at every call included. *)
Lemma fixed_triple_skipped (check : feasibility_check) (a b c : nat)
  (c1 c2 c3 : string) (l1 l2 l3 : list nat) (allData : list student)
  (headers : option (list string)) (gs : stats) (ctx : option context)
  (before : Q) (sa sb sc : student) :
  nth_error allData a = Some sa ->
  nth_error allData b = Some sb ->
  nth_error allData c = Some sc ->
  isFixed sa || isFixed sb || isFixed sc = true ->
  evaluate_rotation_with check (Some a) (Some b) (Some c) c1 c2 c3 l1 l2 l3
    allData headers gs ctx before = Some None.
Proof.
  intros Na Nb Nc F. unfold evaluate_rotation_with. simpl.
  rewrite Na. simpl. destruct (isFixed sa); [reflexivity|].
  rewrite Nb. simpl. destruct (isFixed sb); [reflexivity|].
  rewrite Nc. simpl. destruct (isFixed sc); [reflexivity|].
  discriminate.
Qed.

(** The evaluation asks the check about (a, b) across (c1, c2) and about
    (b, c) across (c2, c3) only: two checks with the same two answers give
    the same evaluation. *)
Lemma evaluate_rotation_two_calls (check check' : feasibility_check) (a b c : nat)
  (c1 c2 c3 : string) (l1 l2 l3 : list nat) (allData : list student)
  (h : list string) (gs : stats) (ctx : option context) (before : Q) :
  check' a b c1 c2 l1 l2 allData h ctx = check a b c1 c2 l1 l2 allData h ctx ->
  check' b c c2 c3 l2 l3 allData h ctx = check b c c2 c3 l2 l3 allData h ctx ->
  evaluate_rotation_with check' (Some a) (Some b) (Some c) c1 c2 c3 l1 l2 l3
    allData (Some h) gs ctx before
  = evaluate_rotation_with check (Some a) (Some b) (Some c) c1 c2 c3 l1 l2 l3
      allData (Some h) gs ctx before.
Proof.
  intros E1 E2. unfold evaluate_rotation_with. simpl.
  rewrite E1, E2. reflexivity.
Qed.

(** C5.  The feasibility check on a pair of students is the mobility test
    of line 124 (neither is fixed) together with [canSwapStudents_Ultimate].
    For a sampled triple (a in c1, b in c2, c in c3) of classes whose
    members all have a student, write tempC1, tempC2, tempC3 for c1 without
    a and with c, c2 without b and with a, c3 without c and with b: their
    scores exist, and
    - the evaluation returns a scored rotation if and only if the checks on
      (a, b) across (c1, c2) and on (b, c) across (c2, c3) both hold; what
      it returns is then the rotation a -> c2, b -> c3, c -> c1 with the
      gain scoreBefore3 minus the three scores;
    - a triple with a fixed student is skipped before the function of lines
      127-128 is called: whatever that function is (one that raises
      included), no rotation is returned;
    - that function is asked nothing but (a, b) across (c1, c2) and (b, c)
      across (c2, c3): one that answers as [canSwapStudents_Ultimate] on
      these two questions, and anything (or raises) on every other, the
      third leg (c, a) across (c3, c1) included, gives the same
      evaluation. *)
Theorem rotation_scored_iff_checks
  (a b c : nat) (c1 c2 c3 : string) (l1 l2 l3 : list nat)
  (allData : list student) (headers : list string) (gs : stats)
  (ctx : option context) (scoreBefore3 : Q) :
  In a l1 -> In b l2 -> In c l3 ->
  Forall (fun i => i < List.length allData)%nat l1 ->
  Forall (fun i => i < List.length allData)%nat l2 ->
  Forall (fun i => i < List.length allData)%nat l3 ->
  let tempC1 := (filter (fun x => negb (x =? a)%nat) l1 ++ [c])%list in
  let tempC2 := (filter (fun x => negb (x =? b)%nat) l2 ++ [a])%list in
  let tempC3 := (filter (fun x => negb (x =? c)%nat) l3 ++ [b])%list in
  let evaluated :=
    evaluate_rotation (Some a) (Some b) (Some c) c1 c2 c3 l1 l2 l3 allData
      (Some headers) gs ctx scoreBefore3 in
  exists (sa sb sc : student) (after1 after2 after3 : Q),
    nth_error allData a = Some sa
    /\ nth_error allData b = Some sb
    /\ nth_error allData c = Some sc
    /\ calculateScore_Ultimate tempC1 allData gs c1 ctx = Some after1
    /\ calculateScore_Ultimate tempC2 allData gs c2 ctx = Some after2
    /\ calculateScore_Ultimate tempC3 allData gs c3 ctx = Some after3
    /\ (forall scored,
          evaluated = Some (Some scored)
          <->
          ((isFixed sa = false /\ isFixed sb = false
            /\ canSwapStudents_Ultimate a b c1 c2 l1 l2 allData headers ctx
               = Some true)
           /\ (isFixed sb = false /\ isFixed sc = false
               /\ canSwapStudents_Ultimate b c c2 c3 l2 l3 allData headers ctx
                  = Some true)
           /\ scored = (mkRotation a b c c1 c2 c3,
                        scoreBefore3 - (after1 + after2 + after3))))
    /\ (isFixed sa = true \/ isFixed sb = true \/ isFixed sc = true ->
        forall check : feasibility_check,
          evaluate_rotation_with check (Some a) (Some b) (Some c) c1 c2 c3
            l1 l2 l3 allData (Some headers) gs ctx scoreBefore3 = Some None)
    /\ (forall check : feasibility_check,
          check a b c1 c2 l1 l2 allData headers ctx
          = canSwapStudents_Ultimate a b c1 c2 l1 l2 allData headers ctx ->
          check b c c2 c3 l2 l3 allData headers ctx
          = canSwapStudents_Ultimate b c c2 c3 l2 l3 allData headers ctx ->
          evaluate_rotation_with check (Some a) (Some b) (Some c) c1 c2 c3
            l1 l2 l3 allData (Some headers) gs ctx scoreBefore3 = evaluated).
Proof.
  intros Ia Ib Ic V1 V2 V3 tempC1 tempC2 tempC3 evaluated.
  destruct (valid_member _ _ _ V1 Ia) as [sa Na].
  destruct (valid_member _ _ _ V2 Ib) as [sb Nb].
  destruct (valid_member _ _ _ V3 Ic) as [sc Nc].
  pose proof (nth_error_valid _ _ _ Na) as La.
  pose proof (nth_error_valid _ _ _ Nb) as Lb.
  pose proof (nth_error_valid _ _ _ Nc) as Lc.
  destruct (calculateScore_defined allData (replace_member l1 a c) gs c1 ctx
              (replace_member_valid _ _ _ _ V1 Lc)) as [a1 A1].
  destruct (calculateScore_defined allData (replace_member l2 b a) gs c2 ctx
              (replace_member_valid _ _ _ _ V2 La)) as [a2 A2].
  destruct (calculateScore_defined allData (replace_member l3 c b) gs c3 ctx
              (replace_member_valid _ _ _ _ V3 Lb)) as [a3 A3].
  exists sa, sb, sc, a1, a2, a3.
  do 6 (split; [assumption|]).
  split; [|split].
  - intros [r g]. subst evaluated. split.
    + intro H. apply evaluate_rotation_inv in H.
      destruct H as (va & vb & vc & sa' & sb' & sc' & h & b1 & b2 & b3 & H).
      destruct H as (Va & Vb & Vc & Na' & Fa & Nb' & Fb & Nc' & Fc & Hh & C1 & C2
                     & B1 & B2 & B3 & Hr & Hg).
      inversion Va; inversion Vb; inversion Vc; inversion Hh; subst va vb vc h.
      rewrite Na in Na'. rewrite Nb in Nb'. rewrite Nc in Nc'.
      inversion Na'; inversion Nb'; inversion Nc'; subst sa' sb' sc'.
      rewrite A1 in B1. rewrite A2 in B2. rewrite A3 in B3.
      inversion B1; inversion B2; inversion B3; subst b1 b2 b3.
      subst r g. auto 10.
    + intros ((Fa & Fb & C1) & (_ & Fc & C2) & Hs). inversion Hs; subst r g.
      unfold evaluate_rotation, evaluate_rotation_with. simpl.
      rewrite Na. simpl. rewrite Fa. rewrite Nb. simpl. rewrite Fb.
      rewrite Nc. simpl. rewrite Fc. rewrite C1. simpl. rewrite C2. simpl.
      rewrite A1. simpl. rewrite A2. simpl. rewrite A3. simpl. reflexivity.
  - intros F check. eapply fixed_triple_skipped; eauto.
    destruct F as [ -> | [ -> | -> ] ]; rewrite ?orb_true_r; reflexivity.
  - intros check E1 E2. subst evaluated. unfold evaluate_rotation.
    apply evaluate_rotation_two_calls; assumption.
Qed.

Lemma rotation_scored_iff_checks_witness :
  exists gain3 : Q,
    gain3 == 4000
    /\ evaluate_rotation (Some 0%nat) (Some 2%nat) (Some 4%nat) "A" "B" "C"
         [0; 1]%nat [2; 3]%nat [4; 5]%nat Examples.cohort (Some Examples.headers)
         (calculateGlobalStats_Ultimate Examples.cohort) (Some Examples.bare_ctx)
         10000
       = Some (Some (mkRotation 0 2 4 "A" "B" "C", gain3))
    /\ canSwapStudents_Ultimate 4 0 "C" "A" [4; 5]%nat [0; 1]%nat Examples.cohort
         Examples.headers (Some Examples.bare_ctx) = Some false
    /\ evaluate_rotation_with
         (fun i1 i2 k1 k2 m1 m2 data h x =>
            if (i1 =? 4)%nat then None
            else canSwapStudents_Ultimate i1 i2 k1 k2 m1 m2 data h x)
         (Some 0%nat) (Some 2%nat) (Some 4%nat) "A" "B" "C"
         [0; 1]%nat [2; 3]%nat [4; 5]%nat Examples.cohort (Some Examples.headers)
         (calculateGlobalStats_Ultimate Examples.cohort) (Some Examples.bare_ctx)
         10000
       = Some (Some (mkRotation 0 2 4 "A" "B" "C", gain3)).
Proof.
  destruct (rotation_scored_iff_checks 0%nat 2%nat 4%nat "A" "B" "C"
              [0; 1]%nat [2; 3]%nat [4; 5]%nat Examples.cohort Examples.headers
              (calculateGlobalStats_Ultimate Examples.cohort)
              (Some Examples.bare_ctx) 10000
              ltac:(simpl; tauto) ltac:(simpl; tauto) ltac:(simpl; tauto)
              ltac:(simpl; repeat constructor) ltac:(simpl; repeat constructor)
              ltac:(simpl; repeat constructor))
    as (sa & sb & sc & after1 & after2 & after3
        & Na & Nb & Nc & A1 & A2 & A3 & Scored & _ & Third).
  simpl in Na, Nb, Nc. inversion Na; inversion Nb; inversion Nc; subst sa sb sc.
  vm_compute in A1, A2, A3.
  inversion A1; inversion A2; inversion A3; subst after1 after2 after3.
  eexists. split; [|split; [|split]].
  2: { apply Scored. repeat split; vm_compute; reflexivity. }
  - vm_compute. reflexivity.
  - vm_compute. reflexivity.
  - rewrite Third; [|reflexivity|reflexivity].
    apply Scored. repeat split; vm_compute; reflexivity.
Defined.

(** ** Partner selection *)

Lemma floor_scaled_range (r : Q) (n : nat) :
  0 <= r -> r < 1 -> (0 < n)%nat ->
  (0 <= JS.floor_scaled r n < Z.of_nat n)%Z.
Proof.
  intros H0 H1 Hn. unfold JS.floor_scaled.
  assert (Hpos : 0 < inject_Z (Z.of_nat n))
    by (rewrite <- (Zlt_Qlt 0); lia).
  split.
  - change 0%Z with (Qfloor 0). apply Qfloor_resp_le. nra.
  - rewrite Zlt_Qlt.
    apply Qle_lt_trans with (r * inject_Z (Z.of_nat n)); [apply Qfloor_le | nra].
Qed.

Lemma pick_defined (random : nat -> Q) {A : Type} (l : list A) (n : nat) :
  (forall k, 0 <= random k /\ random k < 1) -> l <> [] ->
  exists x, pick random l n = Some (Some x, S n).
Proof.
  intros Hr Hl. unfold pick, bind, Math_random, ret.
  destruct (Hr n) as [H0 H1].
  assert (Hn : (0 < List.length l)%nat) by (destruct l; [congruence | simpl; lia]).
  pose proof (floor_scaled_range (random n) (List.length l) H0 H1 Hn) as [F0 F1].
  unfold JS.at_index. destruct (Z.ltb_spec (JS.floor_scaled (random n) (List.length l)) 0);
    [lia|].
  destruct (nth_error l (Z.to_nat (JS.floor_scaled (random n) (List.length l)))) eqn:E.
  - eauto.
  - apply nth_error_None in E. lia.
Qed.

Lemma get_keys {V : Type} (o : list (string * V)) (k : string) :
  In k (JS.keys o) <-> exists v, JS.get o k = Some v.
Proof.
  induction o as [|[k' v'] o IH]; simpl.
  - split; [tauto | intros [v H]; discriminate].
  - destruct (String.eqb_spec k' k).
    + split; eauto.
    + rewrite <- IH. tauto.
Qed.

Lemma findPartner_loop_total (classes : list string) (byClass : assignment)
  (allData : list student) (gs : stats) (wt wn : Z) (wr wa : Q) :
  (forall c, In c classes ->
     exists l, JS.get byClass c = Some l
               /\ Forall (fun i => i < List.length allData)%nat l) ->
  forall bestC bestP,
    (bestC <> None -> bestP <> None) ->
    exists r,
      findPartner_loop classes byClass allData gs wt wn wr wa bestC bestP = Some r
      /\ (bestP <> None -> r <> None)
      /\ ((exists c l, In c classes /\ JS.get byClass c = Some l /\ l <> []) ->
          r <> None).
Proof.
  induction classes as [|c t IH]; intros Hv bestC bestP Hinv; simpl.
  - exists bestP. split; auto. split; auto. intros (c & l & [] & _).
  - destruct (Hv c (or_introl eq_refl)) as (l & G & V). rewrite G. simpl.
    assert (Hv' : forall c', In c' t ->
              exists l', JS.get byClass c' = Some l'
                         /\ Forall (fun i => i < List.length allData)%nat l')
      by (intros; apply Hv; right; assumption).
    destruct l as [|i l].
    + destruct (IH Hv' bestC bestP Hinv) as (r & E & R1 & R2).
      exists r. split; auto. split; auto.
      intros (c' & l' & [Hc|Hc] & G' & Hne).
      * subst c'. rewrite G in G'. inversion G'; subst l'. now elim Hne.
      * apply R2. eauto.
    + destruct (students_defined allData _ V) as [students ->]. simpl.
      match goal with
      | |- context [if ?b then _ else _] => destruct b eqn:Eb
      end.
      * destruct (IH Hv' (Some (complementarity gs wt wn wr wa
                                  (Z.of_nat (count isHead students))
                                  (Z.of_nat (count isNiv1 students))
                                  (Qnat (count is_F students) / Qnat (List.length students))
                                  (sum_field COM students / Qnat (List.length students))))
                    (Some c) ltac:(discriminate)) as (r & E & R1 & _).
        exists r. split; auto.
        split; intros _; apply R1; discriminate.
      * destruct bestC as [best|]; [|discriminate].
        destruct (IH Hv' (Some best) bestP Hinv) as (r & E & R1 & _).
        exists r. split; auto.
        assert (bestP <> None) by (apply Hinv; discriminate).
        split; intros _; apply R1; assumption.
Qed.

(** With members in the worst class and in another class, a partner is
    returned. *)
Lemma findPartnerClass_some (random : nat -> Q) (worst : string)
  (byClass : assignment) (allData : list student) (gs : stats) (n : nat)
  (lw : list nat) (c : string) (lc : list nat) :
  unit_interval random ->
  (forall c l, JS.get byClass c = Some l ->
               Forall (fun i => i < List.length allData)%nat l) ->
  JS.get byClass worst = Some lw -> lw <> [] ->
  c <> worst -> JS.get byClass c = Some lc -> lc <> [] ->
  exists p n',
    findPartnerClass_Ultimate random worst byClass allData gs n = Some (Some p, n').
Proof.
  intros Hr Hv Gw Hw Hc Gc Hlc.
  assert (Hin : In c (other_classes byClass worst)).
  { apply other_classes_spec. split; auto. apply get_keys. eauto. }
  unfold findPartnerClass_Ultimate.
  destruct (other_classes byClass worst) as [|c0 cs] eqn:Eo; [contradiction|].
  rewrite <- Eo in *. unfold bind at 1. unfold lift at 1. rewrite Gw.
  destruct lw as [|i lw]; [congruence|].
  destruct (students_defined allData _ (Hv _ _ Gw)) as [students Es].
  unfold bind at 1. unfold lift at 1. rewrite Es.
  match goal with
  | |- context [findPartner_loop ?cl ?bc ?ad ?g ?wt ?wn ?wr ?wa None None] =>
      destruct (findPartner_loop_total cl bc ad g wt wn wr wa) with
        (bestC := @None Q) (bestP := @None string) as (r & El & _ & R)
  end.
  { intros c' Hc'. apply other_classes_spec in Hc'. destruct Hc' as [Hk _].
    apply get_keys in Hk. destruct Hk as [l' Gl]. eauto. }
  { auto. }
  unfold bind at 1. unfold lift at 1. rewrite El.
  unfold bind at 1. unfold Math_random at 1.
  destruct (JS.lt (random n) 0.2).
  - destruct (pick_defined random (other_classes byClass worst) (S n) Hr)
      as [x Ex]; [rewrite Eo; discriminate|].
    rewrite Ex. eauto.
  - destruct r as [p|]; [unfold ret; eauto|].
    exfalso. apply R; eauto.
Qed.

(** ** Two-way swaps keep the classes free of duplicated antinomy codes *)

Section TwoWayAntinomy.

Variable allData : list student.
Variable idxDISSO : Z.

Lemma class_codes_cons (i : nat) (l : list nat) :
  class_codes allData idxDISSO (i :: l)
  = (class_codes allData idxDISSO [i] ++ class_codes allData idxDISSO l)%list.
Proof.
  unfold class_codes. simpl. rewrite app_nil_r. now rewrite filter_app.
Qed.

Lemma class_codes_app (l l' : list nat) :
  class_codes allData idxDISSO (l ++ l')%list
  = (class_codes allData idxDISSO l ++ class_codes allData idxDISSO l')%list.
Proof.
  unfold class_codes. now rewrite flat_map_app, filter_app.
Qed.

Lemma class_codes_filter_incl (p : nat -> bool) (l : list nat) (code : string) :
  In code (class_codes allData idxDISSO (filter p l)) ->
  In code (class_codes allData idxDISSO l).
Proof.
  induction l as [|i l IH]; simpl; auto.
  rewrite (class_codes_cons i l). destruct (p i).
  - rewrite (class_codes_cons i (filter p l)). rewrite !in_app_iff. tauto.
  - rewrite in_app_iff. auto.
Qed.

Lemma class_codes_filter_NoDup (p : nat -> bool) (l : list nat) :
  NoDup (class_codes allData idxDISSO l) ->
  NoDup (class_codes allData idxDISSO (filter p l)).
Proof.
  induction l as [|i l IH]; simpl; auto.
  rewrite (class_codes_cons i l). intro H.
  assert (Hl : NoDup (class_codes allData idxDISSO l))
    by (eapply NoDup_app_remove_l; eauto).
  destruct (p i); auto.
  rewrite (class_codes_cons i (filter p l)).
  unfold class_codes at 1. unfold class_codes at 1 in H. simpl in *.
  destruct (nth_error allData i) as [st|]; simpl in *; auto.
  destruct (JS.truthy (cell (row st) idxDISSO)); simpl in *; auto.
  inversion H; subst. constructor; auto.
  intro Hin. apply class_codes_filter_incl in Hin. contradiction.
Qed.

Lemma disso_conflict_absent (code : string) (skip : nat) (l : list nat) :
  disso_conflict allData idxDISSO code skip l = Some false ->
  ~ In code (class_codes allData idxDISSO (filter (fun x => negb (x =? skip)%nat) l)).
Proof.
  induction l as [|i l IH]; simpl; auto.
  destruct (i =? skip)%nat; simpl; auto.
  intro H. step_as H other Ho.
  destruct (JS.truthy (cell (row other) idxDISSO)
            && String.eqb (cell (row other) idxDISSO) code) eqn:E; [discriminate|].
  rewrite (class_codes_cons i). rewrite in_app_iff. intros [Hin|Hin].
  - unfold class_codes in Hin. simpl in Hin. rewrite Ho in Hin. simpl in Hin.
    destruct (JS.truthy (cell (row other) idxDISSO)) eqn:T; simpl in *; [|tauto].
    destruct Hin as [Hin|[]]. subst code. rewrite String.eqb_refl in E. discriminate.
  - now apply IH.
Qed.

Lemma NoDup_snoc {A : Type} (l : list A) (x : A) :
  NoDup l -> ~ In x l -> NoDup (l ++ [x]).
Proof.
  induction 1 as [|y l Hy Hl IH]; simpl; intro Hx.
  - constructor; [tauto | constructor].
  - constructor.
    + rewrite in_app_iff. simpl. intuition congruence.
    + apply IH. tauto.
Qed.

(** A member replaced by a student whose code conflicts with none of the
    members that stay leaves the class free of duplicates. *)
Lemma replace_member_codes (l : list nat) (a b : nat) (sb : student) :
  NoDup (class_codes allData idxDISSO l) ->
  nth_error allData b = Some sb ->
  (JS.truthy (cell (row sb) idxDISSO) = true ->
   disso_conflict allData idxDISSO (cell (row sb) idxDISSO) a l = Some false) ->
  NoDup (class_codes allData idxDISSO (replace_member l a b)).
Proof.
  intros Hl Nb Hc. unfold replace_member. rewrite class_codes_app.
  pose proof (class_codes_filter_NoDup (fun x => negb (x =? a)%nat) l Hl) as Hf.
  unfold class_codes at 2. simpl. rewrite Nb. simpl.
  destruct (JS.truthy (cell (row sb) idxDISSO)) eqn:T; simpl.
  - apply NoDup_snoc; auto. apply disso_conflict_absent. auto.
  - now rewrite app_nil_r.
Qed.

End TwoWayAntinomy.

Lemma canSwap_true_inv (idx1 idx2 : nat) (c1 c2 : string) (l1 l2 : list nat)
  (allData : list student) (headers : list string) (ctx : option context) :
  canSwapStudents_Ultimate idx1 idx2 c1 c2 l1 l2 allData headers ctx = Some true ->
  let idxDISSO := JS.indexOf headers "DISSO" in
  exists s1 s2,
    nth_error allData idx1 = Some s1 /\ nth_error allData idx2 = Some s2
    /\ (JS.truthy (cell (row s1) idxDISSO) = true ->
        disso_conflict allData idxDISSO (cell (row s1) idxDISSO) idx2 l2 = Some false)
    /\ (JS.truthy (cell (row s2) idxDISSO) = true ->
        disso_conflict allData idxDISSO (cell (row s2) idxDISSO) idx1 l1 = Some false).
Proof.
  unfold canSwapStudents_Ultimate. intro H. step_as H blocked B.
  destruct blocked; [discriminate|].
  destruct (JS.indexOf headers "DISSO" =? -1)%Z; [discriminate|].
  step_as H s1 N1. step_as H s2 N2.
  destruct (elective_refused _ _ _ _); [discriminate|].
  destruct (elective_refused _ _ _ _); [discriminate|].
  step_as H k1 K1. destruct k1; [discriminate|].
  step_as H k2 K2. destruct k2; [discriminate|].
  exists s1, s2. cbv zeta. repeat split; auto.
  - intro T. now rewrite T in K1.
  - intro T. now rewrite T in K2.
Qed.

Lemma in_set {V : Type} (o : list (string * V)) (k : string) (v : V)
  (e : string * V) :
  In e (JS.set o k v) -> e = (k, v) \/ In e o.
Proof.
  induction o as [|[k' v'] o IH]; simpl.
  - intros [H|[]]; auto.
  - destruct (String.eqb_spec k' k); simpl.
    + subst k'. intros [H|H]; auto.
    + intros [H|H]; auto. apply IH in H. tauto.
Qed.

Lemma get_In {V : Type} (o : list (string * V)) (k : string) (v : V) :
  JS.get o k = Some v -> In (k, v) o.
Proof.
  induction o as [|[k' v'] o IH]; simpl; [discriminate|].
  destruct (String.eqb_spec k' k).
  - intro H; inversion H; subst. auto.
  - auto.
Qed.


(** ** A run that swaps *)

(** On two classes of two girls and of two boys the run applies one two-way
    swap, which mixes them, and no rotation. *)
Example parity_swap_run :
  Phase4_Ultimate_Run (fun _ => 0) Examples.all_sheets Examples.bare_ctx
    (mkData true Examples.girls_boys Examples.two_classes (Some Examples.headers))
    0%nat
  = Some ((RunDone 1 0 (mkSave true 2 0) (mkValidation true []),
           Examples.mixed_classes), 453%nat)
  /\ reach Examples.girls_boys (Some Examples.headers)
       (calculateGlobalStats_Ultimate Examples.girls_boys) (Some Examples.bare_ctx)
       Examples.two_classes 1 0 Examples.mixed_classes.
Proof.
  assert (R : Phase4_Ultimate_Run (fun _ => 0) Examples.all_sheets Examples.bare_ctx
                (mkData true Examples.girls_boys Examples.two_classes
                   (Some Examples.headers)) 0%nat
              = Some ((RunDone 1 0 (mkSave true 2 0) (mkValidation true []),
                       Examples.mixed_classes), 453%nat))
    by (vm_compute; reflexivity).
  split; [exact R|].
  apply run_reaches in R. destruct R as (k & m & v & Hres & Hr & _).
  inversion Hres. subst m. replace k with 1%nat in Hr by lia. exact Hr.
Qed.

(** ** Runs on well-formed data return *)

Lemma for_loop_total {St : Type} (P : St -> Prop) (body : St -> Rand (St * bool)) :
  (forall st n, P st -> exists r n', body st n = Some (r, n') /\ P (fst r)) ->
  forall k st n, P st -> exists st' n', for_loop k body st n = Some (st', n') /\ P st'.
Proof.
  intros Hbody k. induction k as [|k IH]; intros st n HP; simpl.
  - exists st, n. auto.
  - destruct (Hbody st n HP) as ([st1 brk] & n1 & E & HP1). simpl in HP1.
    unfold bind. rewrite E. simpl. destruct brk.
    + exists st1, n1. auto.
    + apply IH. exact HP1.
Qed.

Lemma disso_conflict_defined (allData : list student) (idxDISSO : Z) (code : string)
  (skip : nat) (l : list nat) :
  Forall (fun i => i < List.length allData)%nat l ->
  exists b, disso_conflict allData idxDISSO code skip l = Some b.
Proof.
  induction 1 as [|i l Hi Hl IH]; simpl; eauto.
  destruct (i =? skip)%nat; auto.
  destruct (nth_error allData i) as [s|] eqn:E; [|apply nth_error_None in E; lia].
  simpl. destruct (JS.truthy _ && _); eauto.
Qed.

Lemma canSwap_defined (idx1 idx2 : nat) (c1 c2 : string) (l1 l2 : list nat)
  (allData : list student) (headers : list string) (ctx : option context) :
  (idx1 < List.length allData)%nat -> (idx2 < List.length allData)%nat ->
  Forall (fun i => i < List.length allData)%nat l1 ->
  Forall (fun i => i < List.length allData)%nat l2 ->
  exists b, canSwapStudents_Ultimate idx1 idx2 c1 c2 l1 l2 allData headers ctx = Some b.
Proof.
  intros H1 H2 V1 V2. unfold canSwapStudents_Ultimate.
  destruct (nth_error allData idx1) as [s1|] eqn:E1;
    [|apply nth_error_None in E1; lia].
  destruct (nth_error allData idx2) as [s2|] eqn:E2;
    [|apply nth_error_None in E2; lia].
  set (iA := JS.indexOf headers "ASSO"). set (iD := JS.indexOf headers "DISSO").
  destruct (asso_peers_defined allData iA (cell (row s1) iA) idx1 l1 V1) as [p1 P1].
  destruct (asso_peers_defined allData iA (cell (row s2) iA) idx2 l2 V2) as [p2 P2].
  destruct (disso_conflict_defined allData iD (cell (row s1) iD) idx2 l2 V2) as [k1 K1].
  destruct (disso_conflict_defined allData iD (cell (row s2) iD) idx1 l1 V1) as [k2 K2].
  assert (A : exists blocked,
             (if (0 <=? iA)%Z then
                st1 <-? Some s1 ;;
                st2 <-? Some s2 ;;
                blocked1 <-?
                  (if JS.truthy (cell (row st1) iA) then
                     pairsInCls1 <-? asso_peers allData iA (cell (row st1) iA) idx1 l1 ;;
                     Some (0 <? List.length pairsInCls1)%nat
                   else Some false) ;;
                if blocked1 then Some true
                else if JS.truthy (cell (row st2) iA) then
                  pairsInCls2 <-? asso_peers allData iA (cell (row st2) iA) idx2 l2 ;;
                  Some (0 <? List.length pairsInCls2)%nat
                else Some false
              else Some false) = Some blocked).
  { destruct (0 <=? iA)%Z; [|eauto]. simpl. rewrite P1, P2. simpl.
    destruct (JS.truthy (cell (row s1) iA)); simpl;
      [destruct (0 <? List.length p1)%nat; simpl; eauto|];
      destruct (JS.truthy (cell (row s2) iA)); simpl; eauto. }
  destruct A as [blocked ->]. simpl.
  destruct blocked; eauto.
  destruct (iD =? -1)%Z; eauto.
  destruct (elective_refused _ _ _ _); eauto.
  destruct (elective_refused _ _ _ _); eauto.
  rewrite K1, K2.
  destruct (JS.truthy (cell (row s1) iD)); simpl;
    [destruct k1; simpl; eauto|];
    destruct (JS.truthy (cell (row s2) iD)); simpl; eauto;
    destruct k2; simpl; eauto.
Qed.

Section Total_search.

Variable random : nat -> Q.
Hypothesis Hrandom : unit_interval random.

Variables (allData : list student) (hs : list string).
Variables (globalStats : stats) (ctx : option context).

Let valid : list nat -> Prop := Forall (fun i => i < List.length allData)%nat.

Lemma valid_In (l : list nat) (i : nat) :
  valid l -> In i l -> (i < List.length allData)%nat.
Proof. intros V Hin. unfold valid in V. rewrite Forall_forall in V. auto. Qed.

Lemma nth_error_defined (i : nat) :
  (i < List.length allData)%nat -> exists s, nth_error allData i = Some s.
Proof.
  intro H. destruct (nth_error allData i) eqn:E; eauto.
  apply nth_error_None in E. lia.
Qed.

Lemma evaluate_swap_defined (i1 v2 : nat) (c1 c2 : string) (l1 l2 : list nat)
  (before : Q) :
  (i1 < List.length allData)%nat -> (v2 < List.length allData)%nat ->
  valid l1 -> valid l2 ->
  exists r, evaluate_swap i1 (Some v2) c1 c2 l1 l2 allData (Some hs) globalStats ctx
              before = Some r.
Proof.
  intros H1 H2 V1 V2. unfold evaluate_swap. simpl.
  destruct (nth_error_defined v2 H2) as [s2 ->]. simpl.
  destruct (isFixed s2); eauto.
  destruct (canSwap_defined i1 v2 c1 c2 l1 l2 allData hs ctx H1 H2 V1 V2) as [b ->].
  simpl. destruct b; simpl; eauto.
  destruct (calculateScore_defined allData (replace_member l1 i1 v2) globalStats c1 ctx
              (replace_member_valid _ _ _ _ V1 H2)) as [a1 ->].
  destruct (calculateScore_defined allData (replace_member l2 v2 i1) globalStats c2 ctx
              (replace_member_valid _ _ _ _ V2 H1)) as [a2 ->].
  simpl. eauto.
Qed.

Lemma pick_member {A : Type} (l : list A) (n : nat) :
  l <> [] -> exists x, pick random l n = Some (Some x, S n) /\ In x l.
Proof.
  intro Hl. destruct (pick_defined random l n Hrandom Hl) as [x E].
  exists x. split; auto. eapply pick_In; eauto.
Qed.

Lemma try_pair_total (i1 : nat) (c1 c2 : string) (l1 l2 : list nat) (before : Q)
  (st : option swap * Q) (n : nat) :
  (i1 < List.length allData)%nat -> valid l1 -> valid l2 -> l2 <> [] ->
  exists r n',
    try_pair random i1 c1 c2 l1 l2 allData (Some hs) globalStats ctx before st n
    = Some (r, n').
Proof.
  intros H1 V1 V2 N2. unfold try_pair.
  destruct (pick_member l2 n N2) as (v2 & E & Hin).
  unfold bind at 1. rewrite E. unfold bind at 1, lift at 1.
  destruct (evaluate_swap_defined i1 v2 c1 c2 l1 l2 before H1 (valid_In _ _ V2 Hin)
              V1 V2) as [r ->].
  destruct r as [sw|]; [destruct (JS.gt _ _)|]; unfold ret; eauto.
Qed.

Lemma try_first_total (sampleSize : nat) (c1 c2 : string) (l1 l2 : list nat)
  (before : Q) (st : option swap * Q) (n : nat) :
  valid l1 -> valid l2 -> l1 <> [] -> l2 <> [] ->
  exists r n',
    try_first random sampleSize c1 c2 l1 l2 allData (Some hs) globalStats ctx
      before st n = Some (r, n').
Proof.
  intros V1 V2 N1 N2. unfold try_first.
  destruct (pick_member l1 n N1) as (i1 & E & Hin).
  pose proof (valid_In _ _ V1 Hin) as H1.
  unfold bind at 1. rewrite E. unfold bind at 1, lift at 1.
  unfold bind at 1, lift at 1.
  destruct (nth_error_defined i1 H1) as [s1 ->].
  destruct (isFixed s1); [unfold ret; eauto|].
  destruct (for_loop_total (fun _ => True)
              (try_pair random i1 c1 c2 l1 l2 allData (Some hs) globalStats ctx before))
    with (k := sampleSize) (st := st) (n := S n) as (st' & n' & E' & _); auto.
  { intros st0 m _. destruct (try_pair_total i1 c1 c2 l1 l2 before st0 m H1 V1 V2 N2)
      as (r & m' & E'). eauto. }
  unfold bind. rewrite E'. unfold ret. eauto.
Qed.

Lemma findBestSwapBetween_total (c1 c2 : string) (byClass : assignment)
  (l1 l2 : list nat) (n : nat) :
  JS.get byClass c1 = Some l1 -> JS.get byClass c2 = Some l2 ->
  valid l1 -> valid l2 -> l1 <> [] -> l2 <> [] ->
  exists sw n',
    findBestSwapBetween_Ultimate random c1 c2 allData byClass (Some hs) globalStats
      ctx n = Some (sw, n').
Proof.
  intros G1 G2 V1 V2 N1 N2. unfold findBestSwapBetween_Ultimate.
  unfold bind at 1, lift at 1. rewrite G1.
  destruct (calculateScore_defined allData l1 globalStats c1 ctx V1) as [b1 B1].
  unfold bind at 1, lift at 1. rewrite B1.
  unfold bind at 1, lift at 1. rewrite G2.
  destruct (calculateScore_defined allData l2 globalStats c2 ctx V2) as [b2 B2].
  unfold bind at 1, lift at 1. rewrite B2.
  assert (Hb : forall (st0 : option swap * Q) (m : nat), True ->
            exists r m',
              try_first random
                (Nat.min 25 (Nat.max (List.length l1) (List.length l2)))
                c1 c2 l1 l2 allData (Some hs) globalStats ctx (b1 + b2) st0 m
              = Some (r, m') /\ True).
  { intros st0 m _.
    destruct (try_first_total
                (Nat.min 25 (Nat.max (List.length l1) (List.length l2)))
                c1 c2 l1 l2 (b1 + b2) st0 m V1 V2 N1 N2) as (r & m' & E). eauto. }
  destruct (for_loop_total (fun _ => True) _ Hb
              (Nat.min 25 (Nat.max (List.length l1) (List.length l2)))
              (None, 0) n I) as (st' & n' & E & _).
  unfold bind at 1. rewrite E. unfold ret. eauto.
Qed.

Lemma findWorstClass_loop_total (entries : assignment) (maxScore : Q)
  (worst : option string) :
  (forall cls l, In (cls, l) entries -> valid l) ->
  exists r, findWorstClass_loop entries allData globalStats ctx maxScore worst = Some r
            /\ (r = worst \/ exists k, r = Some k /\ In k (JS.keys entries)).
Proof.
  revert maxScore worst. induction entries as [|[cls l] t IH]; intros maxScore worst Hv;
    simpl.
  - eauto.
  - destruct (calculateScore_defined allData l globalStats cls ctx
                (Hv cls l (or_introl eq_refl))) as [s ->]. simpl.
    assert (Hv' : forall c l', In (c, l') t -> valid l')
      by (intros; eapply Hv; right; eauto).
    destruct (JS.gt s maxScore).
    + destruct (IH s (Some cls) Hv') as (r & -> & [->|(k & -> & Hk)]); eauto 8.
    + destruct (IH maxScore worst Hv') as (r & -> & [->|(k & -> & Hk)]); eauto 8.
Qed.

End Total_search.

Lemma well_formed_get (allData : list student) (byClass : assignment)
  (c : string) (l : list nat) :
  well_formed allData byClass -> JS.get byClass c = Some l ->
  l <> [] /\ Forall (fun i => i < List.length allData)%nat l.
Proof. intros W G. eapply W, get_In; eauto. Qed.

Lemma well_formed_replace (allData : list student) (byClass : assignment)
  (c : string) (l : list nat) (a b : nat) :
  well_formed allData byClass -> JS.get byClass c = Some l ->
  (b < List.length allData)%nat ->
  well_formed allData (JS.set byClass c (replace_member l a b)).
Proof.
  intros W G Hb cls l' Hin. apply in_set in Hin. destruct Hin as [Hin|Hin].
  - inversion Hin; subst. split.
    + unfold replace_member. intro E. apply app_eq_nil in E. destruct E; discriminate.
    + apply replace_member_valid; auto. eapply well_formed_get; eauto.
  - eapply W; eauto.
Qed.

Section Total_driver.

Variable random : nat -> Q.
Hypothesis Hrandom : unit_interval random.

Variables (allData : list student) (hs : list string).
Variables (globalStats : stats) (ctx : context).

Lemma findPartnerClass_total (worst : string) (byClass : assignment) (n : nat) :
  well_formed allData byClass -> In worst (JS.keys byClass) ->
  exists p n',
    findPartnerClass_Ultimate random worst byClass allData globalStats n = Some (p, n').
Proof.
  intros W Hin. apply get_keys in Hin. destruct Hin as [lw Gw].
  destruct (well_formed_get _ _ _ _ W Gw) as [Nw Vw].
  destruct (other_classes byClass worst) as [|c cs] eqn:Eo.
  - unfold findPartnerClass_Ultimate. rewrite Eo. unfold ret. eauto.
  - assert (Hc : In c (other_classes byClass worst)) by (rewrite Eo; left; auto).
    apply other_classes_spec in Hc. destruct Hc as [Hk Hne].
    apply get_keys in Hk. destruct Hk as [lc Gc].
    destruct (well_formed_get _ _ _ _ W Gc) as [Nc Vc].
    destruct (findPartnerClass_some random worst byClass allData globalStats n lw c lc
                Hrandom) as (p & n' & E); auto.
    + intros c' l' G'. eapply well_formed_get; eauto.
    + eauto.
Qed.

Lemma applySwap_total (byClass : assignment) (sw : swap) (l1 l2 : list nat) :
  well_formed allData byClass ->
  cls1 sw <> cls2 sw ->
  JS.get byClass (cls1 sw) = Some l1 -> JS.get byClass (cls2 sw) = Some l2 ->
  In (idx1 sw) l1 -> In (idx2 sw) l2 ->
  exists byClass',
    applySwap_Ultimate allData byClass sw (Some hs) = Some byClass'
    /\ well_formed allData byClass'.
Proof.
  intros W Hne G1 G2 I1 I2.
  destruct (well_formed_get _ _ _ _ W G1) as [_ V1].
  destruct (well_formed_get _ _ _ _ W G2) as [_ V2].
  pose proof (valid_In allData _ _ V1 I1) as H1.
  pose proof (valid_In allData _ _ V2 I2) as H2.
  unfold applySwap_Ultimate.
  destruct (nth_error_defined allData _ H1) as [s1 ->].
  destruct (nth_error_defined allData _ H2) as [s2 ->]. simpl.
  rewrite G1. simpl. rewrite get_set_other by assumption. rewrite G2. simpl.
  eexists. split; [reflexivity|].
  apply well_formed_replace; auto.
  - apply well_formed_replace; auto.
  - rewrite get_set_other; assumption.
Qed.

(** An iteration of the two-way loop on a well-formed assignment returns,
    with a well-formed assignment. *)
Lemma twoWay_body_total (st : driver_state) (n : nat) :
  well_formed allData (st_byClass st) ->
  exists r n',
    twoWay_body random allData (Some hs) globalStats ctx st n = Some (r, n')
    /\ well_formed allData (st_byClass (fst r)).
Proof.
  intro W. unfold twoWay_body.
  destruct (findWorstClass_loop_total allData globalStats (Some ctx) (st_byClass st)
              (-1) None) as (w & Ew & Hw).
  { intros cls l Hin. apply (W cls l Hin). }
  unfold findWorstClass_Ultimate. unfold bind at 1, lift at 1. rewrite Ew.
  destruct (usable w) as [worst|] eqn:Uw; [|unfold ret; eauto].
  apply usable_Some in Uw. subst w.
  destruct Hw as [Hw|(k & Hk & Hin)]; [discriminate|]. inversion Hk; subst k.
  destruct (findPartnerClass_total worst (st_byClass st) n W Hin) as (p & n1 & Ep).
  unfold bind at 1. rewrite Ep.
  destruct (usable p) as [partner|] eqn:Up; [|unfold ret; simpl; eauto].
  apply usable_Some in Up. subst p.
  pose proof (findPartnerClass_other _ _ _ _ _ _ _ _ Ep) as Ho.
  apply other_classes_spec in Ho. destruct Ho as [Hkp Hne].
  apply get_keys in Hin. destruct Hin as [l1 G1].
  apply get_keys in Hkp. destruct Hkp as [l2 G2].
  destruct (well_formed_get _ _ _ _ W G1) as [N1 V1].
  destruct (well_formed_get _ _ _ _ W G2) as [N2 V2].
  destruct (findBestSwapBetween_total random Hrandom allData hs globalStats (Some ctx)
              worst partner (st_byClass st) l1 l2 n1 G1 G2 V1 V2 N1 N2)
    as (best & n2 & Eb).
  unfold bind at 1. rewrite Eb.
  destruct best as [sw|].
  - destruct (JS.gt (gain sw) 0.0001).
    + apply findBestSwapBetween_candidate in Eb.
      destruct Eb as (l1' & l2' & b1 & b2 & G1' & G2' & _ & _ & C).
      destruct C as (Ec1 & Ec2 & I1 & I2 & _).
      rewrite G1 in G1'. rewrite G2 in G2'. inversion G1'; inversion G2'; subst l1' l2'.
      destruct (applySwap_total (st_byClass st) sw l1 l2 W) as (bc' & Ea & W');
        try (rewrite ?Ec1, ?Ec2; assumption); [congruence|].
      unfold bind at 1. unfold bind at 1, lift at 1. rewrite Ea.
      unfold ret. simpl. eauto.
    + unfold bind, ret. simpl. eauto.
  - unfold bind, ret. simpl. eauto.
Qed.

End Total_driver.

Section Total_rotations.

Variable random : nat -> Q.
Hypothesis Hrandom : unit_interval random.

Variables (allData : list student) (hs : list string).
Variables (globalStats : stats) (ctx : option context).

Let valid : list nat -> Prop := Forall (fun i => i < List.length allData)%nat.

Lemma evaluate_rotation_defined (a b c : nat) (c1 c2 c3 : string)
  (l1 l2 l3 : list nat) (before : Q) :
  In a l1 -> In b l2 -> In c l3 -> valid l1 -> valid l2 -> valid l3 ->
  exists r, evaluate_rotation (Some a) (Some b) (Some c) c1 c2 c3 l1 l2 l3 allData
              (Some hs) globalStats ctx before = Some r.
Proof.
  intros Ia Ib Ic V1 V2 V3.
  pose proof (valid_In allData _ _ V1 Ia) as Ha.
  pose proof (valid_In allData _ _ V2 Ib) as Hb.
  pose proof (valid_In allData _ _ V3 Ic) as Hc.
  unfold evaluate_rotation, evaluate_rotation_with. simpl.
  destruct (nth_error_defined allData a Ha) as [sa ->]. simpl.
  destruct (isFixed sa); eauto.
  destruct (nth_error_defined allData b Hb) as [sb ->]. simpl.
  destruct (isFixed sb); eauto.
  destruct (nth_error_defined allData c Hc) as [sc ->]. simpl.
  destruct (isFixed sc); eauto.
  destruct (canSwap_defined a b c1 c2 l1 l2 allData hs ctx Ha Hb V1 V2) as [k1 ->].
  simpl. destruct k1; simpl; eauto.
  destruct (canSwap_defined b c c2 c3 l2 l3 allData hs ctx Hb Hc V2 V3) as [k2 ->].
  simpl. destruct k2; simpl; eauto.
  destruct (calculateScore_defined allData (replace_member l1 a c) globalStats c1 ctx
              (replace_member_valid _ _ _ _ V1 Hc)) as [a1 ->].
  destruct (calculateScore_defined allData (replace_member l2 b a) globalStats c2 ctx
              (replace_member_valid _ _ _ _ V2 Ha)) as [a2 ->].
  destruct (calculateScore_defined allData (replace_member l3 c b) globalStats c3 ctx
              (replace_member_valid _ _ _ _ V3 Hb)) as [a3 ->].
  simpl. eauto.
Qed.

Lemma try_rotation_total (c1 c2 c3 : string) (l1 l2 l3 : list nat) (before : Q)
  (st : Q * option rotation) (n : nat) :
  valid l1 -> valid l2 -> valid l3 -> l1 <> [] -> l2 <> [] -> l3 <> [] ->
  exists r n',
    try_rotation random c1 c2 c3 l1 l2 l3 allData (Some hs) globalStats ctx before
      st n = Some (r, n').
Proof.
  intros V1 V2 V3 N1 N2 N3. unfold try_rotation.
  destruct (pick_member random Hrandom l1 n N1) as (a & Ea & Ia).
  destruct (pick_member random Hrandom l2 (S n) N2) as (b & Eb & Ib).
  destruct (pick_member random Hrandom l3 (S (S n)) N3) as (c & Ec & Ic).
  unfold bind at 1. rewrite Ea. unfold bind at 1. rewrite Eb.
  unfold bind at 1. rewrite Ec.
  destruct (evaluate_rotation_defined a b c c1 c2 c3 l1 l2 l3 before Ia Ib Ic V1 V2 V3)
    as [r Er].
  unfold bind at 1, lift at 1. rewrite Er.
  destruct r as [[r g]|]; [destruct (JS.gt _ _)|]; unfold ret; eauto.
Qed.

Lemma pick_keys (byClass : assignment) (n n' : nat) (k : string) :
  well_formed allData byClass ->
  pick random (JS.keys byClass) n = Some (Some k, n') ->
  exists l, JS.get byClass k = Some l /\ l <> [] /\ valid l.
Proof.
  intros W H. apply pick_In in H. apply get_keys in H. destruct H as [l G].
  exists l. split; auto. eapply well_formed_get; eauto.
Qed.

Lemma pick_nil {A : Type} (n : nat) : pick random (@nil A) n = Some (None, S n).
Proof. unfold pick, bind, Math_random, ret. now rewrite at_index_nil. Qed.

Lemma try_classes_total (byClass : assignment) (st : Q * option rotation) (n : nat) :
  well_formed allData byClass ->
  exists r n',
    try_classes random (JS.keys byClass) byClass allData (Some hs) globalStats ctx
      st n = Some (r, n').
Proof.
  intro W. unfold try_classes.
  destruct (JS.keys byClass) as [|k0 ks] eqn:Ek.
  { unfold bind. rewrite !pick_nil. simpl. unfold ret. eauto. }
  rewrite <- Ek.
  assert (Hne : JS.keys byClass <> []) by (rewrite Ek; discriminate).
  destruct (pick_member random Hrandom (JS.keys byClass) n Hne) as (c1 & P1 & _).
  destruct (pick_member random Hrandom (JS.keys byClass) (S n) Hne) as (c2 & P2 & _).
  destruct (pick_member random Hrandom (JS.keys byClass) (S (S n)) Hne)
    as (c3 & P3 & _).
  unfold bind at 1. rewrite P1. unfold bind at 1. rewrite P2.
  unfold bind at 1. rewrite P3.
  destruct (option_string_eqb (Some c1) (Some c2) || option_string_eqb (Some c2) (Some c3)
            || option_string_eqb (Some c1) (Some c3)); [unfold ret; eauto|].
  destruct (pick_keys _ _ _ _ W P1) as (l1 & G1 & N1 & V1).
  destruct (pick_keys _ _ _ _ W P2) as (l2 & G2 & N2 & V2).
  destruct (pick_keys _ _ _ _ W P3) as (l3 & G3 & N3 & V3).
  unfold bind at 1, lift at 1. unfold bind at 1, lift at 1. rewrite G1.
  destruct l1 as [|i1 t1]; [congruence|].
  unfold bind at 1, lift at 1. unfold bind at 1, lift at 1. rewrite G2.
  destruct l2 as [|i2 t2]; [congruence|].
  unfold bind at 1, lift at 1. unfold bind at 1, lift at 1. rewrite G3.
  destruct l3 as [|i3 t3]; [congruence|].
  destruct (calculateScore_defined allData (i1 :: t1) globalStats c1 ctx V1) as [b1 B1].
  destruct (calculateScore_defined allData (i2 :: t2) globalStats c2 ctx V2) as [b2 B2].
  destruct (calculateScore_defined allData (i3 :: t3) globalStats c3 ctx V3) as [b3 B3].
  unfold bind at 1, lift at 1. rewrite B1.
  unfold bind at 1, lift at 1. rewrite B2.
  unfold bind at 1, lift at 1. rewrite B3.
  assert (Hb : forall (st0 : Q * option rotation) (m : nat), True ->
            exists r m',
              try_rotation random c1 c2 c3 (i1 :: t1) (i2 :: t2) (i3 :: t3) allData
                (Some hs) globalStats ctx (b1 + b2 + b3) st0 m = Some (r, m') /\ True).
  { intros st0 m _.
    destruct (try_rotation_total c1 c2 c3 (i1 :: t1) (i2 :: t2) (i3 :: t3)
                (b1 + b2 + b3) st0 m V1 V2 V3 N1 N2 N3) as (r & m' & E). eauto. }
  destruct (for_loop_total (fun _ => True) _ Hb 10 st (S (S (S n))) I)
    as (st' & n' & E & _).
  unfold bind at 1. rewrite E. unfold ret. eauto.
Qed.

End Total_rotations.

Section Total_run.

Variable random : nat -> Q.
Hypothesis Hrandom : unit_interval random.

Variable sheet : string -> option bool.
Variables (allData : list student) (hs : list string).
Variables (globalStats : stats) (ctx : context).

Lemma applyRotation_total (byClass : assignment) (r : rotation) (gain3 : Q) :
  well_formed allData byClass ->
  rotation_found allData (Some hs) globalStats (Some ctx) byClass r gain3 ->
  exists byClass',
    applyRotation byClass r = Some byClass' /\ well_formed allData byClass'.
Proof.
  intros W (l1 & l2 & l3 & b1 & b2 & b3 & F).
  destruct F as (N12 & N23 & N13 & G1 & G2 & G3 & _ & _ & _ & Ia & Ib & Ic & _).
  destruct (well_formed_get _ _ _ _ W G1) as [_ V1].
  destruct (well_formed_get _ _ _ _ W G2) as [_ V2].
  destruct (well_formed_get _ _ _ _ W G3) as [_ V3].
  pose proof (valid_In allData _ _ V1 Ia) as Ha.
  pose proof (valid_In allData _ _ V2 Ib) as Hb.
  pose proof (valid_In allData _ _ V3 Ic) as Hc.
  unfold applyRotation. rewrite G1. simpl.
  rewrite get_set_other by assumption. rewrite G2. simpl.
  rewrite !get_set_other by assumption. rewrite G3. simpl.
  eexists. split; [reflexivity|].
  apply well_formed_replace; auto.
  - apply well_formed_replace; auto.
    + apply well_formed_replace; auto.
    + rewrite get_set_other; assumption.
  - rewrite !get_set_other; assumption.
Qed.

(** An iteration of the three-way loop on a well-formed assignment returns,
    with a well-formed assignment over the same classes. *)
Lemma threeWay_body_total (st : driver_state) (n : nat) :
  well_formed allData (st_byClass st) ->
  exists r n',
    threeWay_body random (JS.keys (st_byClass st)) allData (Some hs) globalStats ctx
      st n = Some (r, n')
    /\ well_formed allData (st_byClass (fst r))
    /\ JS.keys (st_byClass (fst r)) = JS.keys (st_byClass st).
Proof.
  intro W. unfold threeWay_body.
  assert (Hb : forall (st0 : Q * option rotation) (m : nat), True ->
            exists r m',
              try_classes random (JS.keys (st_byClass st)) (st_byClass st) allData
                (Some hs) globalStats (Some ctx) st0 m = Some (r, m') /\ True).
  { intros st0 m _.
    destruct (try_classes_total random Hrandom allData hs globalStats (Some ctx)
                (st_byClass st) st0 m W) as (r & m' & E). eauto. }
  destruct (for_loop_total (fun _ => True) _ Hb 15 (0.001, None) n I)
    as (best & n1 & E & _).
  unfold bind at 1. rewrite E.
  destruct (snd best) as [r|] eqn:Er; [|unfold ret; simpl; eauto].
  assert (HP : 0.001 <= fst best /\
               forall r, snd best = Some r ->
                 0.001 < fst best
                 /\ rotation_found allData (Some hs) globalStats (Some ctx)
                      (st_byClass st) r (fst best)).
  { refine (for_loop_invariant
              (fun s => 0.001 <= fst s /\
                 forall r, snd s = Some r ->
                   0.001 < fst s
                   /\ rotation_found allData (Some hs) globalStats (Some ctx)
                        (st_byClass st) r (fst s))
              _ _ _ _ _ _ _ _ E).
    - intros st0 m r0 m' HP0 Hb0. eapply try_classes_found; eauto.
    - simpl. split; [apply Qle_refl | discriminate]. }
  destruct HP as [_ HP]. destruct (HP r Er) as [_ Hf].
  destruct (applyRotation_total _ _ _ W Hf) as (bc' & Ea & W').
  unfold bind at 1, lift at 1. rewrite Ea. unfold ret. simpl.
  eexists. eexists. split; [reflexivity|]. simpl. split; auto.
  eapply applyRotation_keys; eauto.
Qed.

Lemma class_disso_counts_defined (idxDISSO idxNom : Z) (indices : list nat) :
  Forall (fun i => i < List.length allData)%nat indices ->
  forall counts,
    exists r, class_disso_counts allData idxDISSO idxNom indices counts = Some r.
Proof.
  induction 1 as [|i l Hi Hl IH]; intro counts; simpl; eauto.
  destruct (nth_error_defined allData i Hi) as [s ->]. simpl.
  destruct (JS.truthy _); apply IH.
Qed.

Lemma validate_total (byClass : assignment) :
  well_formed allData byClass ->
  exists v, validateDISSOConstraints_Ultimate allData byClass (Some hs) = Some v.
Proof.
  intro W. unfold validateDISSOConstraints_Ultimate. simpl.
  destruct (JS.indexOf hs "DISSO" =? -1)%Z; eauto.
  assert (D : exists d, all_duplicates allData (JS.indexOf hs "DISSO")
                          (JS.indexOf hs "NOM") byClass = Some d).
  { clear - W. induction byClass as [|[cls l] t IH]; simpl; eauto.
    destruct (class_disso_counts_defined (JS.indexOf hs "DISSO") (JS.indexOf hs "NOM") l
                (proj2 (W cls l (or_introl eq_refl))) []) as [r ->]. simpl.
    destruct IH as [d ->]; [intros c l' Hin; apply (W c l'); right; exact Hin|].
    simpl. eauto. }
  destruct D as [d ->]. simpl. eauto.
Qed.

End Total_run.

(** The moves keep the assignment well formed: so is every state of a run
    that starts from a well-formed assignment, as the loader builds it. *)
Lemma reach_well_formed (allData : list student) (hs : list string)
  (gs : stats) (ctx : context) (byClass final : assignment) (k m : nat) :
  well_formed allData byClass ->
  reach allData (Some hs) gs (Some ctx) byClass k m final ->
  well_formed allData final.
Proof.
  intros W R. induction R as [|k m mid byClass' R IH Ha|k m mid byClass' R IH Ha].
  - assumption.
  - destruct Ha as (sw & (l1 & l2 & b1 & b2 & Hne & G1 & G2 & _ & _ & C) & _ & Ha).
    destruct C as (_ & _ & I1 & I2 & _).
    destruct (applySwap_total allData hs mid sw l1 l2 IH Hne G1 G2 I1 I2)
      as (bc & E & W').
    rewrite E in Ha. inversion Ha; subst. assumption.
  - destruct Ha as (r & g & F & _ & Ha).
    destruct (applyRotation_total allData hs gs ctx mid r g IH F) as (bc & E & W').
    rewrite E in Ha. inversion Ha; subst. assumption.
Qed.

(** C8.  In a state of a run every class has a member and every member has
    a student: the loader creates a class when it reads its first student,
    and swaps and rotations keep the headcounts.  For such a state and a
    worst class among its classes, [findPartnerClass_Ultimate] returns a
    class of the state other than the worst one as soon as there is a
    second class, and returns no partner, drawing nothing, when the worst
    class is the only one. *)
Theorem findPartnerClass_returns_other (random : nat -> Q) (worst : string)
  (byClass : assignment) (allData : list student) (gs : stats) (n : nat) :
  unit_interval random ->
  well_formed allData byClass ->
  In worst (JS.keys byClass) ->
  ((exists c, In c (JS.keys byClass) /\ c <> worst) ->
   exists p n',
     findPartnerClass_Ultimate random worst byClass allData gs n = Some (Some p, n')
     /\ p <> worst /\ In p (JS.keys byClass))
  /\ ((forall c, In c (JS.keys byClass) -> c = worst) ->
      findPartnerClass_Ultimate random worst byClass allData gs n = Some (None, n)).
Proof.
  intros Hr W Hin. split.
  - intros (c & Hc & Hne).
    apply get_keys in Hin. destruct Hin as [lw Gw].
    apply get_keys in Hc. destruct Hc as [lc Gc].
    destruct (well_formed_get _ _ _ _ W Gw) as [Nw _].
    destruct (well_formed_get _ _ _ _ W Gc) as [Nc _].
    destruct (findPartnerClass_some random worst byClass allData gs n lw c lc)
      as (p & n' & E); auto.
    + intros c' l' G'. eapply well_formed_get; eauto.
    + exists p, n'. split; auto.
      apply findPartnerClass_other in E. apply other_classes_spec in E. tauto.
  - intro Single. unfold findPartnerClass_Ultimate.
    destruct (other_classes byClass worst) as [|c cs] eqn:Eo; [reflexivity|].
    assert (Hc : In c (other_classes byClass worst)) by (rewrite Eo; left; auto).
    apply other_classes_spec in Hc. destruct Hc as [Hk Hne].
    elim Hne. auto.
Qed.

Lemma findPartnerClass_returns_other_witness :
  exists p n',
    findPartnerClass_Ultimate Examples.draws "A" Examples.three_classes
      Examples.cohort (calculateGlobalStats_Ultimate Examples.cohort) 0%nat
    = Some (Some p, n')
    /\ p <> "A" /\ In p (JS.keys Examples.three_classes).
Proof.
  assert (Hr : unit_interval Examples.draws).
  { intro k. unfold Examples.draws.
    destruct (k =? 401)%nat; [split; [discriminate | reflexivity]|].
    destruct (k =? 402)%nat; split; try discriminate; reflexivity. }
  assert (W : well_formed Examples.cohort Examples.three_classes).
  { intros c l [H|[H|[H|[]]]]; inversion H; subst;
      (split; [discriminate | simpl; repeat constructor]). }
  destruct (findPartnerClass_returns_other Examples.draws "A" Examples.three_classes
              Examples.cohort (calculateGlobalStats_Ultimate Examples.cohort) 0%nat
              Hr W ltac:(simpl; tauto)) as [T _].
  apply T. exists "B". split; [simpl; tauto | discriminate].
Defined.

(** A run on well-formed data, with headers and draws in [0, 1), returns a
    result with [ok = true]. *)
Lemma run_returns (random : nat -> Q) (sheet : string -> option bool) (ctx : context)
  (allData : list student) (byClass : assignment) (hs : list string) (n : nat) :
  unit_interval random ->
  well_formed allData byClass ->
  exists swapsApplied swaps3Way saveResult validationResult final n',
    Phase4_Ultimate_Run random sheet ctx (mkData true allData byClass (Some hs)) n
    = Some ((RunDone swapsApplied swaps3Way saveResult validationResult, final), n')
    /\ well_formed allData final.
Proof.
  intros Hr W. unfold Phase4_Ultimate_Run.
  cbn [data_ok negb data_allData data_byClass data_headers].
  set (gs := calculateGlobalStats_Ultimate allData).
  assert (B2 : forall (st : driver_state) (m : nat),
            well_formed allData (st_byClass st) ->
            exists r m',
              twoWay_body random allData (Some hs) gs ctx st m = Some (r, m')
              /\ well_formed allData (st_byClass (fst r)))
    by (intros; apply twoWay_body_total; assumption).
  destruct (for_loop_total (fun st => well_formed allData (st_byClass st)) _ B2
              ULTIMATE_CONFIG.maxSwaps (mkDriver byClass 0 0 0) n W)
    as (st2 & n2 & E2 & W2).
  unfold bind at 1. rewrite E2.
  set (names := JS.keys (st_byClass st2)).
  assert (B3 : forall (st : driver_state) (m : nat),
            well_formed allData (st_byClass st)
            /\ JS.keys (st_byClass st) = names ->
            exists r m',
              threeWay_body random names allData (Some hs) gs ctx st m = Some (r, m')
              /\ (well_formed allData (st_byClass (fst r))
                  /\ JS.keys (st_byClass (fst r)) = names)).
  { intros st m [Wst Kst]. rewrite <- Kst.
    destruct (threeWay_body_total random Hr allData hs gs ctx st m Wst)
      as (r & m' & E & Wr & Kr).
    exists r, m'. split; [exact E | split; [exact Wr | exact Kr]]. }
  destruct (for_loop_total
              (fun st => well_formed allData (st_byClass st)
                         /\ JS.keys (st_byClass st) = names) _ B3
              200%nat st2 n2 (conj W2 eq_refl))
    as (st3 & n3 & E3 & W3 & _).
  unfold bind at 1. rewrite E3.
  destruct (validate_total allData hs (st_byClass st3) W3) as [v V].
  unfold bind at 1, lift at 1. rewrite V. unfold ret.
  do 6 eexists. split; [reflexivity | exact W3].
Qed.

(** ** The run without the DISSO column *)

(** C3.  When the headers hold no DISSO column the oracle never returns
    true, and returns false for every pair of students and classes whose
    members all have a student; consequently a run on such headers applies
    no swap (and no rotation) and leaves the assignment as loaded, and on
    well-formed data such a run does return, with zero swaps. *)
Theorem canSwap_fails_closed_without_DISSO (headers : list string) :
  ~ In "DISSO" headers ->
  (forall idx1 idx2 cls1Name cls2Name idxList1 idxList2 allData ctx,
      canSwapStudents_Ultimate idx1 idx2 cls1Name cls2Name idxList1 idxList2
        allData headers ctx <> Some true)
  /\ (forall idx1 idx2 cls1Name cls2Name idxList1 idxList2 allData ctx,
        (idx1 < List.length allData)%nat -> (idx2 < List.length allData)%nat ->
        Forall (fun i => i < List.length allData)%nat idxList1 ->
        Forall (fun i => i < List.length allData)%nat idxList2 ->
        canSwapStudents_Ultimate idx1 idx2 cls1Name cls2Name idxList1 idxList2
          allData headers ctx = Some false)
  /\ (forall random sheet ctx allData byClass n n' res final,
        Phase4_Ultimate_Run random sheet ctx
          (mkData true allData byClass (Some headers)) n = Some ((res, final), n') ->
        final = byClass
        /\ exists validationResult,
             res = RunDone 0 0 (saveResults_Ultimate sheet allData byClass (Some headers))
                     validationResult)
  /\ (forall random sheet ctx allData byClass n,
        unit_interval random -> well_formed allData byClass ->
        exists validationResult n',
          Phase4_Ultimate_Run random sheet ctx
            (mkData true allData byClass (Some headers)) n
          = Some ((RunDone 0 0
                     (saveResults_Ultimate sheet allData byClass (Some headers))
                     validationResult, byClass), n')).
Proof.
  intro Hno.
  assert (R : forall random sheet ctx allData byClass n n' res final,
             Phase4_Ultimate_Run random sheet ctx
               (mkData true allData byClass (Some headers)) n
             = Some ((res, final), n') ->
             final = byClass
             /\ exists validationResult,
                  res = RunDone 0 0
                          (saveResults_Ultimate sheet allData byClass (Some headers))
                          validationResult).
  { intros random sheet ctx allData byClass n n' res final H.
    apply run_reaches in H. destruct H as (k & m & v & Hres & Hr & Hv).
    apply reach_without_DISSO in Hr; auto. destruct Hr as (-> & -> & ->).
    split; auto. exists v. exact Hres. }
  split; [|split; [|split]].
  - intros. now apply canSwap_never_without_DISSO.
  - intros. now apply canSwap_false_without_DISSO.
  - exact R.
  - intros random sheet ctx allData byClass n Hr W.
    destruct (run_returns random sheet ctx allData byClass headers n Hr W)
      as (sa & s3 & sv & v & final & n' & E & _).
    destruct (R _ _ _ _ _ _ _ _ _ E) as [-> [v' Hres]].
    rewrite Hres in E. eauto.
Qed.

Lemma canSwap_fails_closed_without_DISSO_witness :
  canSwapStudents_Ultimate 0 2 "A" "B" [0; 1]%nat [2; 3]%nat Examples.cohort
    Examples.plain_headers (Some Examples.bare_ctx) = Some false
  /\ exists res n',
       Phase4_Ultimate_Run Examples.draws Examples.all_sheets Examples.bare_ctx
         (mkData true Examples.cohort Examples.three_classes
            (Some Examples.plain_headers)) 0%nat
       = Some ((res, Examples.three_classes), n').
Proof.
  assert (Hno : ~ In "DISSO" Examples.plain_headers)
    by (simpl; intuition discriminate).
  destruct (canSwap_fails_closed_without_DISSO Examples.plain_headers Hno)
    as (_ & F & R & _).
  split.
  - apply F; simpl; repeat constructor.
  - destruct (Phase4_Ultimate_Run Examples.draws Examples.all_sheets Examples.bare_ctx
                (mkData true Examples.cohort Examples.three_classes
                   (Some Examples.plain_headers)) 0%nat)
      as [[[res final] n']|] eqn:E.
    + destruct (R _ _ _ _ _ _ _ _ _ E) as [-> _]. eauto.
    + vm_compute in E. discriminate.
Defined.

(** * Further properties of the optimiser *)

(** ** Conservation of the cohort *)

Lemma count_occ_filter_neq (l : list nat) (a x : nat) :
  count_occ Nat.eq_dec (filter (fun y => negb (y =? a)%nat) l) x
  = if (x =? a)%nat then 0%nat else count_occ Nat.eq_dec l x.
Proof.
  induction l as [|y t IH]; simpl.
  - now destruct (x =? a)%nat.
  - destruct (Nat.eqb_spec y a) as [Hya|Hya]; simpl.
    + rewrite IH. destruct (Nat.eqb_spec x a) as [Hxa|Hxa]; [reflexivity|].
      destruct (Nat.eq_dec y x); [congruence | reflexivity].
    + rewrite IH. destruct (Nat.eqb_spec x a) as [Hxa|Hxa];
        destruct (Nat.eq_dec y x); congruence.
Qed.

Lemma count_occ_replace (l : list nat) (a b x : nat) :
  count_occ Nat.eq_dec (replace_member l a b) x
  = ((if (x =? a)%nat then 0 else count_occ Nat.eq_dec l x)
     + (if (x =? b)%nat then 1 else 0))%nat.
Proof.
  unfold replace_member. rewrite count_occ_app, count_occ_filter_neq. simpl.
  destruct (Nat.eq_dec b x) as [Hbx|Hbx].
  - subst b. now rewrite Nat.eqb_refl.
  - destruct (Nat.eqb_spec x b); [congruence | reflexivity].
Qed.

Lemma length_filter_neq (l : list nat) (a : nat) :
  (List.length (filter (fun y => negb (y =? a)%nat) l) + count_occ Nat.eq_dec l a
   = List.length l)%nat.
Proof.
  induction l as [|y t IH]; simpl; [reflexivity|].
  destruct (Nat.eqb_spec y a) as [Hya|Hya]; simpl.
  - destruct (Nat.eq_dec y a); [lia | congruence].
  - destruct (Nat.eq_dec y a); [congruence | lia].
Qed.

Lemma length_replace (l : list nat) (a b : nat) :
  count_occ Nat.eq_dec l a = 1%nat ->
  List.length (replace_member l a b) = List.length l.
Proof.
  intro H. unfold replace_member. rewrite length_app. simpl.
  pose proof (length_filter_neq l a). lia.
Qed.

Lemma count_all_members_set (byClass : assignment) (c : string) (l l' : list nat)
  (x : nat) :
  JS.get byClass c = Some l ->
  (count_occ Nat.eq_dec (all_members (JS.set byClass c l')) x
   + count_occ Nat.eq_dec l x
   = count_occ Nat.eq_dec (all_members byClass) x + count_occ Nat.eq_dec l' x)%nat.
Proof.
  unfold all_members.
  induction byClass as [|[k v] t IH]; simpl; [discriminate|].
  destruct (String.eqb_spec k c) as [->|Hk].
  - intro H; inversion H; subst v. simpl. rewrite !count_occ_app. lia.
  - intro H. simpl. rewrite !count_occ_app. specialize (IH H). lia.
Qed.

(** In an assignment that lists no student twice, a member of a class
    occurs once in the list of the class. *)
Lemma member_once (byClass : assignment) (c : string) (l : list nat) (i : nat) :
  NoDup (all_members byClass) -> JS.get byClass c = Some l -> In i l ->
  count_occ Nat.eq_dec l i = 1%nat.
Proof.
  intros Hnd Hg Hi.
  pose proof (count_all_members_set byClass c l [] i Hg) as Hc. simpl in Hc.
  pose proof (proj1 (NoDup_count_occ Nat.eq_dec _) Hnd i) as Hle.
  pose proof (proj1 (count_occ_In Nat.eq_dec l i) Hi). lia.
Qed.

(** Replacing the member [a] of the class [c] by [b]. *)
Lemma move_counts (byClass : assignment) (c : string) (l : list nat) (a b : nat) :
  JS.get byClass c = Some l -> count_occ Nat.eq_dec l a = 1%nat ->
  (forall x,
      (count_occ Nat.eq_dec (all_members (JS.set byClass c (replace_member l a b))) x
       + (if (x =? a)%nat then 1 else 0)
       = count_occ Nat.eq_dec (all_members byClass) x
         + (if (x =? b)%nat then 1 else 0))%nat)
  /\ (forall cls,
         List.length (members (JS.set byClass c (replace_member l a b)) cls)
         = List.length (members byClass cls)).
Proof.
  intros Hg H1. split.
  - intro x.
    pose proof (count_all_members_set byClass c l (replace_member l a b) x Hg) as Hc.
    rewrite count_occ_replace in Hc.
    destruct (Nat.eqb_spec x a) as [Hxa|Hxa]; [subst x|]; lia.
  - intro cls. rewrite members_set.
    destruct (String.eqb_spec c cls) as [<-|Hc]; [|reflexivity].
    unfold members. rewrite Hg. now apply length_replace.
Qed.

Section Conservation.

Variables (allData : list student) (headers : option (list string)).
Variables (globalStats : stats) (ctx : option context).

(** What the moves keep: the occurrences of every student over all classes,
    the headcount of every class, and the class names. *)
Let same_cohort (byClass byClass' : assignment) : Prop :=
  (forall x, count_occ Nat.eq_dec (all_members byClass') x
             = count_occ Nat.eq_dec (all_members byClass) x)
  /\ (forall cls, List.length (members byClass' cls) = List.length (members byClass cls))
  /\ JS.keys byClass' = JS.keys byClass.

Lemma applied_swap_conserves (byClass byClass' : assignment) :
  NoDup (all_members byClass) ->
  applied_swap allData headers globalStats ctx byClass byClass' ->
  same_cohort byClass byClass'.
Proof.
  intros Hnd (sw & (l1 & l2 & b1 & b2 & Hne & G1 & G2 & _ & _ & Hc) & _ & Ha).
  destruct Hc as (_ & _ & I1 & I2 & _).
  pose proof (applySwap_keys _ _ _ _ _ Ha) as Hk.
  unfold applySwap_Ultimate in Ha.
  step_as Ha s1 E1. step_as Ha s2 E2. step_as Ha h Eh.
  step_as Ha l1' G1'. step_as Ha l2' G2'. inversion Ha; subst byClass'. clear Ha.
  rewrite G1 in G1'. inversion G1'; subst l1'. clear G1'.
  rewrite get_set_other in G2' by exact Hne.
  rewrite G2 in G2'. inversion G2'; subst l2'. clear G2'.
  pose proof (member_once _ _ _ _ Hnd G1 I1) as O1.
  pose proof (member_once _ _ _ _ Hnd G2 I2) as O2.
  destruct (move_counts byClass (cls1 sw) l1 (idx1 sw) (idx2 sw) G1 O1) as [C1 L1].
  set (mid := JS.set byClass (cls1 sw) (replace_member l1 (idx1 sw) (idx2 sw))) in *.
  assert (G2m : JS.get mid (cls2 sw) = Some l2)
    by (unfold mid; rewrite get_set_other by exact Hne; exact G2).
  destruct (move_counts mid (cls2 sw) l2 (idx2 sw) (idx1 sw) G2m O2) as [C2 L2].
  split; [|split].
  - intro x. specialize (C1 x). specialize (C2 x).
    destruct (x =? idx1 sw)%nat, (x =? idx2 sw)%nat; lia.
  - intro cls. rewrite L2. apply L1.
  - exact Hk.
Qed.

Lemma applied_rotation_conserves (byClass byClass' : assignment) :
  NoDup (all_members byClass) ->
  applied_rotation allData headers globalStats ctx byClass byClass' ->
  same_cohort byClass byClass'.
Proof.
  intros Hnd (r & g & Hf & _ & Ha).
  destruct Hf as (l1 & l2 & l3 & b1 & b2 & b3 & N12 & N23 & N13 & G1 & G2 & G3
                  & _ & _ & _ & I1 & I2 & I3 & _).
  pose proof (applyRotation_keys _ _ _ Ha) as Hk.
  unfold applyRotation in Ha.
  step_as Ha l1' G1'. step_as Ha l2' G2'. step_as Ha l3' G3'.
  inversion Ha; subst byClass'. clear Ha.
  rewrite G1 in G1'. inversion G1'; subst l1'. clear G1'.
  rewrite get_set_other in G2' by exact N12.
  rewrite G2 in G2'. inversion G2'; subst l2'. clear G2'.
  rewrite get_set_other in G3' by exact N23.
  rewrite get_set_other in G3' by exact N13.
  rewrite G3 in G3'. inversion G3'; subst l3'. clear G3'.
  pose proof (member_once _ _ _ _ Hnd G1 I1) as O1.
  pose proof (member_once _ _ _ _ Hnd G2 I2) as O2.
  pose proof (member_once _ _ _ _ Hnd G3 I3) as O3.
  destruct (move_counts byClass (rot_c1 r) l1 (rot_a r) (rot_c r) G1 O1) as [C1 L1].
  set (m1 := JS.set byClass (rot_c1 r) (replace_member l1 (rot_a r) (rot_c r))) in *.
  assert (G2m : JS.get m1 (rot_c2 r) = Some l2)
    by (unfold m1; rewrite get_set_other by exact N12; exact G2).
  destruct (move_counts m1 (rot_c2 r) l2 (rot_b r) (rot_a r) G2m O2) as [C2 L2].
  set (m2 := JS.set m1 (rot_c2 r) (replace_member l2 (rot_b r) (rot_a r))) in *.
  assert (G3m : JS.get m2 (rot_c3 r) = Some l3).
  { unfold m2, m1. rewrite get_set_other by exact N23.
    rewrite get_set_other by exact N13. exact G3. }
  destruct (move_counts m2 (rot_c3 r) l3 (rot_c r) (rot_b r) G3m O3) as [C3 L3].
  split; [|split].
  - intro x. specialize (C1 x). specialize (C2 x). specialize (C3 x).
    destruct (x =? rot_a r)%nat, (x =? rot_b r)%nat, (x =? rot_c r)%nat; lia.
  - intro cls. rewrite L3, L2. apply L1.
  - exact Hk.
Qed.

Lemma reach_conserves (byClass final : assignment) (k m : nat) :
  NoDup (all_members byClass) ->
  reach allData headers globalStats ctx byClass k m final ->
  same_cohort byClass final.
Proof.
  intros Hnd Hr.
  induction Hr as [|k m mid byClass' Hr IH Ha|k m mid byClass' Hr IH Ha].
  - repeat split; reflexivity.
  - destruct IH as (C & L & K).
    assert (Hmid : NoDup (all_members mid)).
    { apply (NoDup_count_occ Nat.eq_dec). intro x. rewrite C.
      now apply (NoDup_count_occ Nat.eq_dec). }
    destruct (applied_swap_conserves _ _ Hmid Ha) as (C' & L' & K').
    split; [|split].
    + intro x. now rewrite C'.
    + intro cls. now rewrite L'.
    + congruence.
  - destruct IH as (C & L & K).
    assert (Hmid : NoDup (all_members mid)).
    { apply (NoDup_count_occ Nat.eq_dec). intro x. rewrite C.
      now apply (NoDup_count_occ Nat.eq_dec). }
    destruct (applied_rotation_conserves _ _ Hmid Ha) as (C' & L' & K').
    split; [|split].
    + intro x. now rewrite C'.
    + intro cls. now rewrite L'.
    + congruence.
Qed.

End Conservation.

Lemma run_conserves (random : nat -> Q) (sheet : string -> option bool)
  (ctx : context) (allData : list student) (byClass : assignment)
  (headers : option (list string)) (n n' : nat) (res : run_result)
  (final : assignment) :
  NoDup (all_members byClass) ->
  Phase4_Ultimate_Run random sheet ctx (mkData true allData byClass headers) n
  = Some ((res, final), n') ->
  Permutation (all_members final) (all_members byClass)
  /\ (forall cls, List.length (members final cls) = List.length (members byClass cls))
  /\ JS.keys final = JS.keys byClass.
Proof.
  intros Hnd H. apply run_reaches in H. destruct H as (k & m & v & _ & Hr & _).
  destruct (reach_conserves _ _ _ _ _ _ _ _ Hnd Hr) as (C & L & K).
  split; [|split; assumption].
  apply (Permutation_count_occ Nat.eq_dec). exact C.
Qed.

(** X1.  Conservation.  When the loaded assignment lists no student twice,
    a run that returns has only permuted the students: the members of all
    classes taken together are the same students, every class has the
    headcount it started with, and the class names are unchanged. *)
Theorem run_keeps_cohort (random : nat -> Q) (sheet : string -> option bool)
  (ctx : context) (allData : list student) (byClass : assignment)
  (headers : option (list string)) (n n' : nat) (res : run_result)
  (final : assignment) :
  NoDup (all_members byClass) ->
  Phase4_Ultimate_Run random sheet ctx (mkData true allData byClass headers) n
  = Some ((res, final), n') ->
  Permutation (all_members final) (all_members byClass)
  /\ (forall cls, List.length (members final cls) = List.length (members byClass cls))
  /\ JS.keys final = JS.keys byClass.
Proof. apply run_conserves. Qed.

Lemma run_keeps_cohort_witness :
  Permutation (all_members Examples.mixed_classes) (all_members Examples.two_classes)
  /\ List.length (members Examples.mixed_classes "A") = 2%nat.
Proof.
  assert (Hnd : NoDup (all_members Examples.two_classes)).
  { vm_compute. repeat constructor; simpl; intuition discriminate. }
  destruct (run_keeps_cohort (fun _ => 0) Examples.all_sheets Examples.bare_ctx
              Examples.girls_boys Examples.two_classes (Some Examples.headers)
              0%nat 453%nat _ _ Hnd (proj1 parity_swap_run)) as (P & L & _).
  split; [exact P | exact (L "A")].
Defined.

(** ** The budget of the run *)

Lemma for_loop_counter {St : Type} (P : St -> Prop) (f : St -> nat)
  (body : St -> Rand (St * bool)) :
  (forall st n r n', P st -> body st n = Some (r, n') ->
                     P (fst r) /\ (f (fst r) <= S (f st))%nat) ->
  forall k st n st' n',
    P st -> for_loop k body st n = Some (st', n') ->
    P st' /\ (f st' <= f st + k)%nat.
Proof.
  intros Hbody k. induction k as [|k IH]; intros st n st' n' HP H; simpl in H.
  - step H. subst. split; [assumption | lia].
  - step H. destruct x as [st1 brk]. simpl in H.
    destruct (Hbody _ _ _ _ HP E) as [HP1 H1]. simpl in HP1, H1.
    destruct brk.
    + step H. subst. split; [assumption | lia].
    + destruct (IH _ _ _ _ HP1 H) as [HP' H']. split; [assumption | lia].
Qed.

(** X2.  The budget.  A run that returns has applied at most 2000 two-way
    swaps and at most 200 rotations; the count of swaps it reports includes
    the rotations. *)
Theorem run_within_budget (random : nat -> Q) (sheet : string -> option bool)
  (ctx : context) (allData : list student) (byClass : assignment)
  (headers : option (list string)) (n n' : nat) (res : run_result)
  (final : assignment) :
  Phase4_Ultimate_Run random sheet ctx (mkData true allData byClass headers) n
  = Some ((res, final), n') ->
  exists swapsApplied swaps3Way saveResult validationResult,
    res = RunDone swapsApplied swaps3Way saveResult validationResult
    /\ (swaps3Way <= 200)%nat
    /\ (swaps3Way <= swapsApplied)%nat
    /\ (swapsApplied - swaps3Way <= ULTIMATE_CONFIG.maxSwaps)%nat.
Proof.
  unfold Phase4_Ultimate_Run.
  cbn [data_ok negb data_allData data_byClass data_headers]. intro H.
  set (gs := calculateGlobalStats_Ultimate allData) in H.
  step_as H st2 L2. step_as H st3 L3. step_as H v V. step H.
  inversion E; subst res final. clear E.
  destruct (for_loop_counter (fun s => st_swaps3Way s = 0%nat) st_swapsApplied
              (twoWay_body random allData headers gs ctx)) with
    (k := ULTIMATE_CONFIG.maxSwaps) (st := mkDriver byClass 0 0 0) (n := n)
    (st' := st2) (n' := n0) as [Z2 B2]; [| reflexivity | exact L2 |].
  { intros s m [s' brk] m' Hs Hb. simpl.
    apply twoWay_body_step in Hb. destruct Hb as [E3 [[_ Es]|[_ Es]]]; split; lia. }
  simpl in B2.
  destruct (for_loop_counter
              (fun s => JS.keys (st_byClass s) = JS.keys (st_byClass st2)
                        /\ st_swapsApplied s
                           = (st_swapsApplied st2 + st_swaps3Way s)%nat)
              st_swaps3Way
              (threeWay_body random (JS.keys (st_byClass st2)) allData headers gs ctx))
    with (k := 200%nat) (st := st2) (n := n0) (st' := st3) (n' := n1)
    as [[_ A3] B3]; [| split; [reflexivity | lia] | exact L3 |].
  { intros s m [s' brk] m' [Ks As] Hb. simpl.
    rewrite <- Ks in Hb. apply threeWay_body_step in Hb.
    destruct Hb as [Hb|(Ha & Es & E3)].
    - subst s'. repeat split; auto.
    - split; [split|]; [| lia | lia].
      destruct Ha as (r & g & _ & _ & Ha). apply applyRotation_keys in Ha.
      congruence. }
  exists (st_swapsApplied st3), (st_swaps3Way st3),
    (saveResults_Ultimate sheet allData (st_byClass st3) headers), v.
  split; [reflexivity|]. unfold ULTIMATE_CONFIG.maxSwaps in *. lia.
Qed.

Lemma run_within_budget_witness :
  exists swapsApplied swaps3Way saveResult validationResult,
    RunDone 1 0 (mkSave true 2 0) (mkValidation true [])
    = RunDone swapsApplied swaps3Way saveResult validationResult
    /\ (swaps3Way <= 200)%nat
    /\ (swaps3Way <= swapsApplied)%nat
    /\ (swapsApplied - swaps3Way <= ULTIMATE_CONFIG.maxSwaps)%nat.
Proof.
  exact (run_within_budget (fun _ => 0) Examples.all_sheets Examples.bare_ctx
           Examples.girls_boys Examples.two_classes (Some Examples.headers)
           0%nat 453%nat _ _ (proj1 parity_swap_run)).
Defined.

(** ** Runs that cannot move anyone *)

Lemma reach_keys (allData : list student) (headers : option (list string))
  (gs : stats) (ctx : option context) (byClass final : assignment) (k m : nat) :
  reach allData headers gs ctx byClass k m final -> JS.keys final = JS.keys byClass.
Proof.
  induction 1 as [|k m mid byClass' Hr IH Ha|k m mid byClass' Hr IH Ha]; auto.
  - destruct Ha as (sw & _ & _ & Ha). apply applySwap_keys in Ha. congruence.
  - destruct Ha as (r & g & _ & _ & Ha). apply applyRotation_keys in Ha. congruence.
Qed.

Lemma reach_all_fixed (allData : list student) (headers : option (list string))
  (gs : stats) (ctx : option context) (byClass final : assignment) (k m : nat) :
  (forall cls l i s, In (cls, l) byClass -> In i l ->
                     nth_error allData i = Some s -> isFixed s = true) ->
  reach allData headers gs ctx byClass k m final ->
  k = 0%nat /\ m = 0%nat /\ final = byClass.
Proof.
  intros Hfix Hr.
  induction Hr as [|k m mid byClass' Hr IH Ha|k m mid byClass' Hr IH Ha]; auto;
    destruct IH as (-> & -> & ->); exfalso.
  - destruct Ha as (sw & (l1 & l2 & b1 & b2 & _ & G1 & _ & _ & _ & Hc) & _).
    destruct Hc as (_ & _ & I1 & _ & (s1 & N1 & F1) & _).
    rewrite (Hfix _ _ _ _ (get_In _ _ _ G1) I1 N1) in F1. discriminate.
  - destruct Ha as (r & g & Hf & _).
    destruct Hf as (l1 & l2 & l3 & b1 & b2 & b3 & _ & _ & _ & G1 & _ & _
                    & _ & _ & _ & I1 & _ & _ & He).
    apply evaluate_rotation_inv in He.
    destruct He as (va & vb & vc & sa & sb & sc & h & a1 & a2 & a3 & Ea & _ & _
                    & Na & Fa & _).
    inversion Ea; subst va.
    rewrite (Hfix _ _ _ _ (get_In _ _ _ G1) I1 Na) in Fa. discriminate.
Qed.

(** X3.  When every member of every class is fixed, a run on well-formed
    data returns with zero swaps and zero rotations, leaves the assignment
    as loaded, and still saves and validates it. *)
Theorem all_fixed_run_is_idle (random : nat -> Q) (sheet : string -> option bool)
  (ctx : context) (allData : list student) (byClass : assignment)
  (hs : list string) (n : nat) :
  unit_interval random ->
  well_formed allData byClass ->
  (forall cls l i s, In (cls, l) byClass -> In i l ->
                     nth_error allData i = Some s -> isFixed s = true) ->
  exists validationResult n',
    Phase4_Ultimate_Run random sheet ctx (mkData true allData byClass (Some hs)) n
    = Some ((RunDone 0 0 (saveResults_Ultimate sheet allData byClass (Some hs))
               validationResult, byClass), n')
    /\ validateDISSOConstraints_Ultimate allData byClass (Some hs)
       = Some validationResult.
Proof.
  intros Hr W Hfix.
  destruct (run_returns random sheet ctx allData byClass hs n Hr W)
    as (sa & s3 & sv & v & final & n' & E & _).
  pose proof (run_reaches _ _ _ _ _ _ _ _ _ _ E) as (k & m & v' & Hres & Hreach & Hv).
  destruct (reach_all_fixed _ _ _ _ _ _ _ _ Hfix Hreach) as (-> & -> & ->).
  exists v', n'. split; [|exact Hv]. rewrite E, Hres. reflexivity.
Qed.

(** X4.  A run needs two classes to swap and three to rotate: with at most
    one class it changes nothing, and with at most two it applies no
    rotation. *)
Theorem few_classes_few_moves (random : nat -> Q) (sheet : string -> option bool)
  (ctx : context) (allData : list student) (byClass : assignment)
  (headers : option (list string)) (n n' : nat) (res : run_result)
  (final : assignment) :
  Phase4_Ultimate_Run random sheet ctx (mkData true allData byClass headers) n
  = Some ((res, final), n') ->
  ((List.length (JS.keys byClass) <= 1)%nat ->
     final = byClass
     /\ exists saveResult validationResult,
          res = RunDone 0 0 saveResult validationResult)
  /\ ((List.length (JS.keys byClass) <= 2)%nat ->
      exists swapsApplied saveResult validationResult,
        res = RunDone swapsApplied 0 saveResult validationResult).
Proof.
  intro H. apply run_reaches in H. destruct H as (k & m & v & Hres & Hr & _).
  assert (R3 : (List.length (JS.keys byClass) <= 2)%nat -> m = 0%nat).
  { intro Hlen. clear Hres.
    induction Hr as [|k m mid byClass' Hr IH Ha|k m mid byClass' Hr IH Ha]; auto.
    exfalso. pose proof (reach_keys _ _ _ _ _ _ _ _ Hr) as Hk.
    destruct Ha as (r & g & Hf & _).
    destruct Hf as (l1 & l2 & l3 & b1 & b2 & b3 & N12 & N23 & N13 & G1 & G2 & G3 & _).
    assert (I1 : In (rot_c1 r) (JS.keys byClass))
      by (rewrite <- Hk; apply get_keys; eauto).
    assert (I2 : In (rot_c2 r) (JS.keys byClass))
      by (rewrite <- Hk; apply get_keys; eauto).
    assert (I3 : In (rot_c3 r) (JS.keys byClass))
      by (rewrite <- Hk; apply get_keys; eauto).
    destruct (JS.keys byClass) as [|x [|y [|z t]]]; simpl in *;
      try lia; intuition congruence. }
  assert (R2 : (List.length (JS.keys byClass) <= 1)%nat ->
               k = 0%nat /\ m = 0%nat /\ final = byClass).
  { intro Hlen. pose proof (R3 ltac:(lia)) as ->. clear Hres R3.
    remember 0%nat as z eqn:Ez.
    induction Hr as [|k m mid byClass' Hr IH Ha|k m mid byClass' Hr IH Ha]; auto.
    - exfalso. pose proof (reach_keys _ _ _ _ _ _ _ _ Hr) as Hk.
      destruct Ha as (sw & (l1 & l2 & b1 & b2 & Hne & G1 & G2 & _) & _).
      assert (I1 : In (cls1 sw) (JS.keys byClass))
        by (rewrite <- Hk; apply get_keys; eauto).
      assert (I2 : In (cls2 sw) (JS.keys byClass))
        by (rewrite <- Hk; apply get_keys; eauto).
      destruct (JS.keys byClass) as [|x [|y t]]; simpl in *;
        try lia; intuition congruence.
    - discriminate. }
  split.
  - intro Hlen. destruct (R2 Hlen) as (-> & -> & ->). split; [reflexivity|].
    rewrite Hres. simpl. eauto.
  - intro Hlen. rewrite (R3 Hlen) in Hres. rewrite Hres. eauto.
Qed.

Lemma unit_interval_zero : unit_interval (fun _ => 0).
Proof. intro k. split; [discriminate | reflexivity]. Qed.

Lemma well_formed_two_classes (allData : list student) :
  (4 <= List.length allData)%nat -> well_formed allData Examples.two_classes.
Proof.
  intros Hlen cls l [E|[E|[]]]; inversion E; subst; (split; [discriminate|]);
    repeat constructor; lia.
Qed.

Lemma all_fixed_run_is_idle_witness :
  exists validationResult n',
    Phase4_Ultimate_Run (fun _ => 0) Examples.all_sheets Examples.bare_ctx
      (mkData true Cases.fixed_cohort Examples.two_classes (Some Examples.headers))
      0%nat
    = Some ((RunDone 0 0 (mkSave true 2 0) validationResult, Examples.two_classes), n').
Proof.
  destruct (all_fixed_run_is_idle (fun _ => 0) Examples.all_sheets Examples.bare_ctx
              Cases.fixed_cohort Examples.two_classes Examples.headers 0%nat
              unit_interval_zero
              (well_formed_two_classes Cases.fixed_cohort ltac:(simpl; lia)))
    as (v & n' & E & _).
  - intros cls l i s [E|[E|[]]] Hi Hn; inversion E; subst; simpl in Hi;
      repeat (destruct Hi as [<-|Hi]; [inversion Hn; reflexivity|]);
      destruct Hi.
  - exists v, n'. exact E.
Defined.

Lemma few_classes_few_moves_witness :
  exists swapsApplied saveResult validationResult,
    RunDone 1 0 (mkSave true 2 0) (mkValidation true [])
    = RunDone swapsApplied 0 saveResult validationResult.
Proof.
  exact (proj2 (few_classes_few_moves (fun _ => 0) Examples.all_sheets
                  Examples.bare_ctx Examples.girls_boys Examples.two_classes
                  (Some Examples.headers) 0%nat 453%nat _ _ (proj1 parity_swap_run))
           ltac:(simpl; lia)).
Defined.

(** ** The worst class *)

Lemma findWorstClass_loop_max (entries : assignment) (allData : list student)
  (gs : stats) (ctx : option context) :
  forall (maxScore : Q) (worst r : option string),
    findWorstClass_loop entries allData gs ctx maxScore worst = Some r ->
    (r = worst
     /\ forall cls l, In (cls, l) entries ->
          exists s, calculateScore_Ultimate l allData gs cls ctx = Some s
                    /\ s <= maxScore)
    \/ exists before w l after sw,
         entries = (before ++ (w, l) :: after)%list
         /\ r = Some w
         /\ calculateScore_Ultimate l allData gs w ctx = Some sw
         /\ maxScore < sw
         /\ (forall cls l', In (cls, l') before ->
               exists s, calculateScore_Ultimate l' allData gs cls ctx = Some s
                         /\ s < sw)
         /\ (forall cls l', In (cls, l') after ->
               exists s, calculateScore_Ultimate l' allData gs cls ctx = Some s
                         /\ s <= sw).
Proof.
  induction entries as [|[cls l] t IH]; intros maxScore worst r H; simpl in H.
  - left. inversion H. split; [reflexivity | intros ? ? []].
  - step_as H s Es. destruct (JS.gt s maxScore) eqn:G.
    + apply gt_true in G. apply IH in H.
      destruct H as [[-> Hall]|(before & w & l' & after & sw & -> & -> & Ew & Hlt & Hb & Ha)].
      * right. exists [], cls, l, t, s. simpl.
        split; [reflexivity|]. split; [reflexivity|]. split; [exact Es|].
        split; [exact G|]. split; [intros ? ? []| exact Hall].
      * right. exists ((cls, l) :: before), w, l', after, sw. simpl.
        split; [reflexivity|]. split; [reflexivity|]. split; [exact Ew|].
        split; [eapply Qlt_trans; eauto|]. split; [|exact Ha].
        intros c x [E|Hin]; [inversion E; subst; eauto | eauto].
    + assert (Hle : s <= maxScore).
      { apply Qnot_lt_le. intro C. apply gt_true in C. congruence. }
      apply IH in H.
      destruct H as [[-> Hall]|(before & w & l' & after & sw & -> & -> & Ew & Hlt & Hb & Ha)].
      * left. split; [reflexivity|].
        intros c x [E|Hin]; [inversion E; subst; eauto | eauto].
      * right. exists ((cls, l) :: before), w, l', after, sw. simpl.
        split; [reflexivity|]. split; [reflexivity|]. split; [exact Ew|].
        split; [exact Hlt|]. split; [|exact Ha].
        intros c x [E|Hin]; [inversion E; subst | eauto].
        exists s. split; [exact Es | eapply Qle_lt_trans; eauto].
Qed.

(** X5.  The class [findWorstClass_Ultimate] returns has the highest score of
    all classes, and is the first of those that have it: every class before
    it scores strictly less, every class after it at most as much. *)
Theorem findWorstClass_is_first_maximum (byClass : assignment)
  (allData : list student) (gs : stats) (ctx : option context) (w : string) :
  findWorstClass_Ultimate byClass allData gs ctx = Some (Some w) ->
  exists before l after sw,
    byClass = (before ++ (w, l) :: after)%list
    /\ calculateScore_Ultimate l allData gs w ctx = Some sw
    /\ (forall cls l', In (cls, l') before ->
          exists s, calculateScore_Ultimate l' allData gs cls ctx = Some s /\ s < sw)
    /\ (forall cls l', In (cls, l') after ->
          exists s, calculateScore_Ultimate l' allData gs cls ctx = Some s /\ s <= sw).
Proof.
  intro H. apply findWorstClass_loop_max in H.
  destruct H as [[C _]|(before & w' & l & after & sw & E & R & Ew & _ & Hb & Ha)];
    [discriminate|].
  inversion R; subst w'. exists before, l, after, sw. auto.
Qed.

Lemma findWorstClass_is_first_maximum_witness :
  exists before l after sw,
    Examples.with_empty_class = (before ++ ("A", l) :: after)%list
    /\ calculateScore_Ultimate l Examples.two_tops
         (calculateGlobalStats_Ultimate Examples.two_tops) "A"
         (Some Examples.bare_ctx) = Some sw
    /\ (forall cls l', In (cls, l') before ->
          exists s, calculateScore_Ultimate l' Examples.two_tops
                      (calculateGlobalStats_Ultimate Examples.two_tops) cls
                      (Some Examples.bare_ctx) = Some s /\ s < sw)
    /\ (forall cls l', In (cls, l') after ->
          exists s, calculateScore_Ultimate l' Examples.two_tops
                      (calculateGlobalStats_Ultimate Examples.two_tops) cls
                      (Some Examples.bare_ctx) = Some s /\ s <= sw).
Proof.
  apply findWorstClass_is_first_maximum. vm_compute. reflexivity.
Defined.

(** ** The validator *)

Lemma count_code_get (h : list (string * (nat * list string))) (code nom c : string) :
  JS.get (count_code h code nom) c
  = if String.eqb code c
    then match JS.get h code with
         | Some (n, noms) => Some (S n, (noms ++ [nom])%list)
         | None => Some (1%nat, [nom])
         end
    else JS.get h c.
Proof.
  induction h as [|[k [n noms]] t IH]; simpl.
  - destruct (String.eqb code c); reflexivity.
  - destruct (String.eqb_spec k code) as [Hk|Hk]; simpl.
    + subst k. destruct (String.eqb code c); reflexivity.
    + rewrite IH. destruct (String.eqb_spec code c) as [Hc|Hc].
      * subst c. destruct (String.eqb_spec k code); [contradiction | reflexivity].
      * reflexivity.
Qed.

Lemma count_code_keys (h : list (string * (nat * list string))) (code nom : string) :
  JS.keys (count_code h code nom)
  = if existsb (String.eqb code) (JS.keys h) then JS.keys h
    else (JS.keys h ++ [code])%list.
Proof.
  induction h as [|[k [n noms]] t IH]; simpl; [reflexivity|].
  destruct (String.eqb_spec k code) as [Hk|Hk]; simpl.
  - subst k. now rewrite String.eqb_refl.
  - destruct (String.eqb_spec code k) as [Hc|Hc]; [congruence|]. simpl.
    rewrite IH. now destruct (existsb _ _).
Qed.

Lemma In_get {V : Type} (o : list (string * V)) (k : string) (v : V) :
  NoDup (JS.keys o) -> In (k, v) o -> JS.get o k = Some v.
Proof.
  induction o as [|[k' v'] t IH]; simpl; [intros _ []|].
  intros Hnd [E|Hin].
  - inversion E; subst. now rewrite String.eqb_refl.
  - inversion Hnd as [|? ? Hni Hnd']; subst.
    destruct (String.eqb_spec k' k) as [Hk|Hk]; [|now apply IH].
    subst k'. exfalso. apply Hni. unfold JS.keys.
    change k with (fst (k, v)). now apply in_map.
Qed.

Section Histogram.

Variables (allData : list student) (idxDISSO idxNom : Z).

(** The table the validator builds for a class whose codes read so far are
    [codes]: one entry for each code, with its number of occurrences and as
    many names. *)
Let tallies (h : list (string * (nat * list string))) (codes : list string) : Prop :=
  NoDup (JS.keys h)
  /\ forall c,
       match JS.get h c with
       | Some (n, noms) =>
           n = count_occ string_dec codes c /\ (0 < n)%nat /\ List.length noms = n
       | None => count_occ string_dec codes c = 0%nat
       end.

Lemma count_code_tallies (h : list (string * (nat * list string)))
  (codes : list string) (code nom : string) :
  tallies h codes -> tallies (count_code h code nom) (codes ++ [code]).
Proof.
  intros [Hnd Hc]. split.
  - rewrite count_code_keys. destruct (existsb _ _) eqn:E; [exact Hnd|].
    apply NoDup_snoc; [exact Hnd|]. intro Hin.
    assert (existsb (String.eqb code) (JS.keys h) = true); [|congruence].
    apply existsb_exists. exists code. split; [exact Hin | apply String.eqb_refl].
  - intro c. rewrite count_code_get, count_occ_app. simpl.
    destruct (String.eqb_spec code c) as [E|E].
    + subst c. specialize (Hc code).
      destruct (string_dec code code); [|congruence].
      destruct (JS.get h code) as [[n noms]|].
      * destruct Hc as (-> & Hp & Hl). rewrite length_app. simpl. lia.
      * rewrite Hc. simpl. auto.
    + specialize (Hc c). destruct (string_dec code c) as [|Hne]; [contradiction|].
      destruct (JS.get h c) as [[n noms]|]; [|lia].
      destruct Hc as (-> & Hp & Hl). repeat split; auto; lia.
Qed.

Lemma class_disso_counts_tallies (indices : list nat) :
  forall (acc r : list (string * (nat * list string))) (codes : list string),
    class_disso_counts allData idxDISSO idxNom indices acc = Some r ->
    tallies acc codes ->
    tallies r (codes ++ class_codes allData idxDISSO indices)
    /\ Forall (fun i => i < List.length allData)%nat indices.
Proof.
  induction indices as [|i t IH]; intros acc r codes H T; simpl in H.
  - inversion H; subst. unfold class_codes. simpl. rewrite app_nil_r. auto.
  - step_as H st Est. rewrite class_codes_cons.
    assert (Hi : (i < List.length allData)%nat) by (eapply nth_error_valid; eauto).
    unfold class_codes at 1. simpl. rewrite Est. simpl.
    destruct (JS.truthy (cell (row st) idxDISSO)) eqn:Tr.
    + apply IH with (codes := (codes ++ [cell (row st) idxDISSO])%list) in H.
      * destruct H as [H V]. rewrite <- app_assoc in H. simpl in H. auto.
      * now apply count_code_tallies.
    + apply IH with (codes := codes) in H; [|exact T].
      destruct H as [H V]. simpl. auto.
Qed.

Lemma class_duplicates_spec (cls : string) (h : list (string * (nat * list string)))
  (codes : list string) :
  tallies h codes ->
  (forall d, In d (class_duplicates cls h) ->
             dup_classe d = cls
             /\ dup_count d = count_occ string_dec codes (dup_code d)
             /\ (2 <= dup_count d)%nat
             /\ List.length (dup_noms d) = dup_count d)
  /\ (forall c, (2 <= count_occ string_dec codes c)%nat ->
                exists d, In d (class_duplicates cls h)
                          /\ dup_classe d = cls /\ dup_code d = c)
  /\ (class_duplicates cls h = [] <-> NoDup codes).
Proof.
  intros [Hnd Hc].
  assert (S1 : forall d, In d (class_duplicates cls h) ->
             dup_classe d = cls
             /\ dup_count d = count_occ string_dec codes (dup_code d)
             /\ (2 <= dup_count d)%nat
             /\ List.length (dup_noms d) = dup_count d).
  { intros d Hd. unfold class_duplicates in Hd. apply in_map_iff in Hd.
    destruct Hd as ([k [n noms]] & <- & Hin). apply filter_In in Hin.
    destruct Hin as [Hin Hgt]. simpl in *. apply Nat.ltb_lt in Hgt.
    apply (In_get _ _ _ Hnd) in Hin. specialize (Hc k). rewrite Hin in Hc.
    destruct Hc as (E & _ & L). repeat split; auto; lia. }
  assert (S2 : forall c, (2 <= count_occ string_dec codes c)%nat ->
                exists d, In d (class_duplicates cls h)
                          /\ dup_classe d = cls /\ dup_code d = c).
  { intros c H2. specialize (Hc c).
    destruct (JS.get h c) as [[n noms]|] eqn:G; [|lia].
    destruct Hc as (E & _ & _). apply get_In in G.
    exists (mkDuplicate cls c n noms). repeat split.
    unfold class_duplicates. apply in_map_iff. exists (c, (n, noms)).
    split; [reflexivity|]. apply filter_In. split; [exact G|].
    simpl. apply Nat.ltb_lt. lia. }
  split; [exact S1|]. split; [exact S2|]. split.
  - intro E. apply (NoDup_count_occ string_dec). intro c.
    destruct (le_lt_dec (count_occ string_dec codes c) 1) as [|Hgt]; [assumption|].
    destruct (S2 c Hgt) as (d & Hd & _). rewrite E in Hd. destruct Hd.
  - intro N. destruct (class_duplicates cls h) as [|d t] eqn:E; [reflexivity|].
    destruct (S1 d (or_introl eq_refl)) as (_ & Ec & H2 & _).
    pose proof (proj1 (NoDup_count_occ string_dec codes) N (dup_code d)). lia.
Qed.

Lemma all_duplicates_spec (entries : assignment) :
  forall dups,
    all_duplicates allData idxDISSO idxNom entries = Some dups ->
    (forall d, In d dups ->
       exists l, In (dup_classe d, l) entries
                 /\ dup_count d
                    = count_occ string_dec (class_codes allData idxDISSO l) (dup_code d)
                 /\ (2 <= dup_count d)%nat
                 /\ List.length (dup_noms d) = dup_count d)
    /\ (forall cls l c, In (cls, l) entries ->
          (2 <= count_occ string_dec (class_codes allData idxDISSO l) c)%nat ->
          exists d, In d dups /\ dup_classe d = cls /\ dup_code d = c)
    /\ (dups = [] <->
        forall cls l, In (cls, l) entries -> NoDup (class_codes allData idxDISSO l))
    /\ (forall cls l, In (cls, l) entries ->
          Forall (fun i => i < List.length allData)%nat l).
Proof.
  induction entries as [|[cls l] t IH]; intros dups H; simpl in H.
  - inversion H; subst. repeat split; try (intros; contradiction); auto.
  - step_as H counts C. step_as H rest R. inversion H; subst dups. clear H.
    destruct (IH _ R) as (I1 & I2 & I3 & I4). clear IH.
    assert (T0 : tallies [] []).
    { split; [constructor | intro c; reflexivity]. }
    destruct (class_disso_counts_tallies _ _ _ _ C T0) as [T V]. simpl in T.
    destruct (class_duplicates_spec cls _ _ T) as (D1 & D2 & D3).
    split; [|split; [|split]].
    + intros d Hd. apply in_app_or in Hd. destruct Hd as [Hd|Hd].
      * destruct (D1 d Hd) as (Ec & En & H2 & Hl). exists l. rewrite Ec.
        repeat split; auto. now left.
      * destruct (I1 d Hd) as (l' & Hin & Hrest). exists l'. split; [now right|].
        exact Hrest.
    + intros cls' l' c [E|Hin] H2.
      * inversion E; subst cls' l'. destruct (D2 c H2) as (d & Hd & Hd').
        exists d. split; [apply in_or_app; now left | exact Hd'].
      * destruct (I2 cls' l' c Hin H2) as (d & Hd & Hd').
        exists d. split; [apply in_or_app; now right | exact Hd'].
    + split.
      * intros E cls' l' [E'|Hin].
        -- inversion E'; subst cls' l'. apply D3.
           now destruct (class_duplicates cls counts).
        -- assert (Hrest : rest = [])
             by (destruct (class_duplicates cls counts); [exact E | discriminate]).
           exact (proj1 I3 Hrest cls' l' Hin).
      * intro Hall.
        rewrite (proj2 D3 (Hall cls l (or_introl eq_refl))). simpl.
        apply (proj2 I3). intros cls' l' Hin. apply (Hall cls' l'). now right.
    + intros cls' l' [E|Hin]; [inversion E; subst; exact V | eauto].
Qed.

End Histogram.

Lemma cell_out_of_row (r : list string) : cell r (-1) = "".
Proof. reflexivity. Qed.

Lemma class_codes_without_column (allData : list student) (indices : list nat) :
  class_codes allData (-1) indices = [].
Proof.
  unfold class_codes. induction indices as [|i t IH]; simpl; [reflexivity|].
  destruct (nth_error allData i); simpl; auto.
Qed.




(** X7.  The report of the validator is exact: every duplicate it lists
    names a class of the assignment and a code that at least two members of
    that class carry, with the number of these members and as many names;
    and every code carried twice in a class is listed for that class. *)
Theorem validator_report_is_exact (allData : list student) (byClass : assignment)
  (headers : list string) (v : validation) :
  validateDISSOConstraints_Ultimate allData byClass (Some headers) = Some v ->
  let codes := class_codes allData (JS.indexOf headers "DISSO") in
  (forall d, In d (v_duplicates v) ->
     exists l, In (dup_classe d, l) byClass
               /\ dup_count d = count_occ string_dec (codes l) (dup_code d)
               /\ (2 <= dup_count d)%nat
               /\ List.length (dup_noms d) = dup_count d)
  /\ (forall cls l c, In (cls, l) byClass ->
        (2 <= count_occ string_dec (codes l) c)%nat ->
        exists d, In d (v_duplicates v) /\ dup_classe d = cls /\ dup_code d = c).
Proof.
  unfold validateDISSOConstraints_Ultimate. simpl.
  destruct (Z.eqb_spec (JS.indexOf headers "DISSO") (-1)) as [E|E].
  - intro H; inversion H; subst v. simpl. rewrite E. split.
    + intros d [].
    + intros cls l c _ H2. rewrite class_codes_without_column in H2.
      simpl in H2. lia.
  - intro H. step_as H dups D. inversion H; subst v. simpl. clear H.
    destruct (all_duplicates_spec _ _ _ _ _ D) as (I1 & I2 & _). auto.
Qed.

Lemma validator_report_is_exact_witness :
  exists d, In d [mkDuplicate "A" "D1" 2 ["x"; "c"]]
            /\ dup_classe d = "A" /\ dup_code d = "D1".
Proof.
  assert (E : validateDISSOConstraints_Ultimate Examples.cohort Examples.rotated
                (Some Examples.headers)
              = Some (mkValidation false [mkDuplicate "A" "D1" 2 ["x"; "c"]]))
    by (vm_compute; reflexivity).
  destruct (validator_report_is_exact _ _ _ _ E) as [_ C].
  apply (C "A" [1; 4]%nat "D1"); [now left | vm_compute; lia].
Defined.

(** ** The antinomy codes along a run *)





(** X9.  A rotation can only break the antinomy constraint in its first
    class: after an applied rotation of an assignment free of duplicated
    codes, every class other than the one that receives the third student is
    still free of them. *)
Theorem rotation_keeps_checked_classes (allData : list student) (hs : list string)
  (gs : stats) (ctx : option context) (byClass byClass' : assignment) :
  applied_rotation allData (Some hs) gs ctx byClass byClass' ->
  antinomy_free allData hs byClass ->
  exists (r : rotation) (gain3 : Q),
    rotation_found allData (Some hs) gs ctx byClass r gain3
    /\ applyRotation byClass r = Some byClass'
    /\ forall cls l, In (cls, l) byClass' -> cls <> rot_c1 r ->
         NoDup (class_codes allData (JS.indexOf hs "DISSO") l).
Proof.
  intros (r & g & Hf & _ & Ha) Hfree. exists r, g.
  split; [exact Hf|]. split; [exact Ha|].
  destruct Hf as (l1 & l2 & l3 & b1 & b2 & b3 & N12 & N23 & N13 & G1 & G2 & G3
                  & _ & _ & _ & _ & _ & _ & Ev).
  apply evaluate_rotation_inv in Ev.
  destruct Ev as (va & vb & vc & sa & sb & sc & h & a1 & a2 & a3 & Ea & Eb & Ec
                  & Na & _ & Nb & _ & Nc & _ & Hh & C1 & C2 & _).
  inversion Ea; subst va. inversion Eb; subst vb. inversion Ec; subst vc.
  inversion Hh; subst h. clear Ea Eb Ec Hh.
  apply canSwap_true_inv in C1. cbv zeta in C1.
  destruct C1 as (sa' & sb' & Na' & Nb' & Ka & _).
  apply canSwap_true_inv in C2. cbv zeta in C2.
  destruct C2 as (sb'' & sc' & Nb'' & Nc' & Kb & _).
  rewrite Na in Na'. inversion Na'; subst sa'.
  rewrite Nb in Nb''. inversion Nb''; subst sb''.
  unfold applyRotation in Ha.
  step_as Ha l1' G1'. step_as Ha l2' G2'. step_as Ha l3' G3'.
  inversion Ha; subst byClass'. clear Ha.
  rewrite G1 in G1'. inversion G1'; subst l1'. clear G1'.
  rewrite get_set_other in G2' by exact N12.
  rewrite G2 in G2'. inversion G2'; subst l2'. clear G2'.
  rewrite get_set_other in G3' by exact N23.
  rewrite get_set_other in G3' by exact N13.
  rewrite G3 in G3'. inversion G3'; subst l3'. clear G3'.
  intros cls l Hin Hne.
  apply in_set in Hin. destruct Hin as [Hin|Hin].
  - inversion Hin; subst.
    apply (replace_member_codes allData _ l3 (rot_c r) (rot_b r) sb); auto.
    eapply Hfree, get_In; eauto.
  - apply in_set in Hin. destruct Hin as [Hin|Hin].
    + inversion Hin; subst.
      apply (replace_member_codes allData _ l2 (rot_b r) (rot_a r) sa); auto.
      eapply Hfree, get_In; eauto.
    + apply in_set in Hin. destruct Hin as [Hin|Hin].
      * inversion Hin; subst. contradiction.
      * eapply Hfree; eauto.
Qed.

Lemma cohort_antinomy_free :
  antinomy_free Examples.cohort Examples.headers Examples.three_classes.
Proof.
  intros cls indices Hin. simpl in Hin.
  destruct Hin as [H|[H|[H|[]]]]; inversion H; subst; vm_compute;
    repeat constructor; simpl; tauto.
Qed.

Lemma cohort_rotation :
  applied_rotation Examples.cohort (Some Examples.headers)
    (calculateGlobalStats_Ultimate Examples.cohort) (Some Examples.bare_ctx)
    Examples.three_classes Examples.rotated.
Proof.
  assert (R : Phase4_Ultimate_Run Examples.draws Examples.all_sheets Examples.bare_ctx
                (mkData true Examples.cohort Examples.three_classes
                   (Some Examples.headers)) 0%nat
              = Some ((RunDone 1 1 (mkSave true 3 0)
                         (mkValidation false [mkDuplicate "A" "D1" 2 ["x"; "c"]]),
                       Examples.rotated), 520%nat))
    by (vm_compute; reflexivity).
  apply run_reaches in R. destruct R as (k & m & v & Hres & Hr & _).
  inversion Hres. subst m. assert (k = 0%nat) by lia. subst k.
  inversion Hr as [| |k' m' mid final' Hr' Ha]; subst.
  inversion Hr'; subst. exact Ha.
Qed.

Lemma rotation_keeps_checked_classes_witness :
  exists (r : rotation) (gain3 : Q),
    rotation_found Examples.cohort (Some Examples.headers)
      (calculateGlobalStats_Ultimate Examples.cohort) (Some Examples.bare_ctx)
      Examples.three_classes r gain3
    /\ applyRotation Examples.three_classes r = Some Examples.rotated
    /\ forall cls l, In (cls, l) Examples.rotated -> cls <> rot_c1 r ->
         NoDup (class_codes Examples.cohort
                  (JS.indexOf Examples.headers "DISSO") l).
Proof.
  exact (rotation_keeps_checked_classes _ _ _ _ _ _ cohort_rotation
           cohort_antinomy_free).
Defined.

(** ** The rules of the oracle *)

Lemma asso_peers_spec (allData : list student) (idxASSO : Z) (code : string)
  (self : nat) (idxList : list nat) :
  forall peers,
    asso_peers allData idxASSO code self idxList = Some peers ->
    forall j, In j peers <->
              In j idxList /\ j <> self
              /\ exists sj, nth_error allData j = Some sj
                            /\ cell (row sj) idxASSO = code.
Proof.
  induction idxList as [|i t IH]; intros peers H j; simpl in H.
  - inversion H; subst. simpl. tauto.
  - destruct (Nat.eqb_spec i self) as [Hi|Hi].
    + rewrite (IH _ H j). simpl. intuition congruence.
    + step_as H other Eo. step_as H rest Er. inversion H; subst peers. clear H.
      specialize (IH _ Er j).
      destruct (String.eqb_spec (cell (row other) idxASSO) code) as [Hc|Hc]; simpl.
      * rewrite IH. split.
        -- intros [<-|(Hin & Hne & Hs)]; [|tauto].
           split; [now left|]. split; [congruence|]. eauto.
        -- intros ([<-|Hin] & Hne & Hs); [now left | right; tauto].
      * rewrite IH. split; [tauto|].
        intros ([<-|Hin] & Hne & sj & Ej & Hj); [congruence | eauto 6].
Qed.

Lemma indexOf_present (l : list string) (x : string) :
  In x l -> (0 <= JS.indexOf l x)%Z.
Proof.
  intro H. unfold JS.indexOf.
  destruct (indexOf_from_bounds l x 0 ltac:(lia)) as [[_ Hn]|[Hb _]];
    [contradiction | exact Hb].
Qed.

(** The value of the oracle, from the value of each of its tests. *)
Lemma canSwap_value (idx1 idx2 : nat) (c1 c2 : string) (l1 l2 : list nat)
  (allData : list student) (headers : list string) (ctx : option context)
  (s1 s2 : student) (p1 p2 : list nat) (k1 k2 : bool) :
  let iA := JS.indexOf headers "ASSO" in
  let iD := JS.indexOf headers "DISSO" in
  let iL := JS.indexOf headers "LV2" in
  let iO := JS.indexOf headers "OPT" in
  let lv2U := match ctx with Some c => lv2Universelles c | None => [] end in
  nth_error allData idx1 = Some s1 ->
  nth_error allData idx2 = Some s2 ->
  asso_peers allData iA (cell (row s1) iA) idx1 l1 = Some p1 ->
  asso_peers allData iA (cell (row s2) iA) idx2 l2 = Some p2 ->
  disso_conflict allData iD (cell (row s1) iD) idx2 l2 = Some k1 ->
  disso_conflict allData iD (cell (row s2) iD) idx1 l1 = Some k2 ->
  canSwapStudents_Ultimate idx1 idx2 c1 c2 l1 l2 allData headers ctx
  = Some (negb ((0 <=? iA)%Z
                && ((JS.truthy (cell (row s1) iA) && (0 <? List.length p1)%nat)
                    || (JS.truthy (cell (row s2) iA) && (0 <? List.length p2)%nat)))
          && negb (iD =? -1)%Z
          && negb (elective_refused (quotas_of ctx c1) lv2U
                     (cell (row s2) iL) (cell (row s2) iO))
          && negb (elective_refused (quotas_of ctx c2) lv2U
                     (cell (row s1) iL) (cell (row s1) iO))
          && negb (JS.truthy (cell (row s1) iD) && k1)
          && negb (JS.truthy (cell (row s2) iD) && k2)).
Proof.
  intros iA iD iL iO lv2U N1 N2 P1 P2 K1 K2.
  unfold canSwapStudents_Ultimate. fold iA iD iL iO lv2U.
  rewrite N1, N2. cbn [obind]. rewrite P1, P2, K1, K2. cbn [obind].
  destruct (0 <=? iA)%Z, (JS.truthy (cell (row s1) iA)),
    (0 <? List.length p1)%nat, (JS.truthy (cell (row s2) iA)),
    (0 <? List.length p2)%nat; cbn [obind andb orb negb];
    try reflexivity;
    destruct (iD =? -1)%Z; cbn [andb negb]; try reflexivity;
    destruct (elective_refused (quotas_of ctx c1) lv2U _ _); cbn [andb negb];
    try reflexivity;
    destruct (elective_refused (quotas_of ctx c2) lv2U _ _); cbn [andb negb];
    try reflexivity;
    destruct (JS.truthy (cell (row s1) iD)), k1; cbn [obind andb negb];
    try reflexivity;
    destruct (JS.truthy (cell (row s2) iD)), k2; reflexivity.
Qed.

(** What a positive answer of the oracle has tested. *)
Lemma canSwap_true_tests (idx1 idx2 : nat) (c1 c2 : string) (l1 l2 : list nat)
  (allData : list student) (headers : list string) (ctx : option context) :
  canSwapStudents_Ultimate idx1 idx2 c1 c2 l1 l2 allData headers ctx = Some true ->
  let iA := JS.indexOf headers "ASSO" in
  let iL := JS.indexOf headers "LV2" in
  let iO := JS.indexOf headers "OPT" in
  let lv2U := match ctx with Some c => lv2Universelles c | None => [] end in
  exists s1 s2,
    nth_error allData idx1 = Some s1 /\ nth_error allData idx2 = Some s2
    /\ ((0 <= iA)%Z -> JS.truthy (cell (row s1) iA) = true ->
        asso_peers allData iA (cell (row s1) iA) idx1 l1 = Some [])
    /\ ((0 <= iA)%Z -> JS.truthy (cell (row s2) iA) = true ->
        asso_peers allData iA (cell (row s2) iA) idx2 l2 = Some [])
    /\ elective_refused (quotas_of ctx c1) lv2U (cell (row s2) iL) (cell (row s2) iO)
       = false
    /\ elective_refused (quotas_of ctx c2) lv2U (cell (row s1) iL) (cell (row s1) iO)
       = false.
Proof.
  intros H iA iL iO lv2U. unfold canSwapStudents_Ultimate in H.
  fold iA iL iO lv2U in H. step_as H blocked B.
  destruct blocked; [discriminate|].
  destruct (JS.indexOf headers "DISSO" =? -1)%Z; [discriminate|].
  step_as H s1 N1. step_as H s2 N2.
  destruct (elective_refused (quotas_of ctx c1) lv2U _ _) eqn:R1; [discriminate|].
  destruct (elective_refused (quotas_of ctx c2) lv2U _ _) eqn:R2; [discriminate|].
  clear H. exists s1, s2.
  split; [exact N1|]. split; [exact N2|].
  assert (A : (0 <= iA)%Z ->
              (JS.truthy (cell (row s1) iA) = true ->
               asso_peers allData iA (cell (row s1) iA) idx1 l1 = Some [])
              /\ (JS.truthy (cell (row s2) iA) = true ->
                  asso_peers allData iA (cell (row s2) iA) idx2 l2 = Some [])).
  { intro Hpos. apply Z.leb_le in Hpos. rewrite Hpos, N1, N2 in B. cbn [obind] in B.
    step_as B blocked1 B1. destruct blocked1; [discriminate|].
    split; intro T.
    - rewrite T in B1. step_as B1 p1 P1. inversion B1 as [L].
      destruct p1; [exact P1 | discriminate].
    - rewrite T in B. step_as B p2 P2. inversion B as [L].
      destruct p2; [exact P2 | discriminate]. }
  split; [intro Hpos; exact (proj1 (A Hpos))|].
  split; [intro Hpos; exact (proj2 (A Hpos))|].
  split; [exact R1 | exact R2].
Qed.

(** X10.  The oracle never separates an affinity group: when it allows the
    swap and the sheet has an ASSO column, no other member of the class of
    either student carries that student's (non-empty) affinity code. *)
Theorem canSwap_keeps_affinity_groups (idx1 idx2 : nat) (c1 c2 : string)
  (l1 l2 : list nat) (allData : list student) (headers : list string)
  (ctx : option context) :
  In "ASSO" headers ->
  canSwapStudents_Ultimate idx1 idx2 c1 c2 l1 l2 allData headers ctx = Some true ->
  let iA := JS.indexOf headers "ASSO" in
  exists s1 s2,
    nth_error allData idx1 = Some s1 /\ nth_error allData idx2 = Some s2
    /\ (cell (row s1) iA <> "" ->
        ~ carried_by_other allData iA (cell (row s1) iA) idx1 l1)
    /\ (cell (row s2) iA <> "" ->
        ~ carried_by_other allData iA (cell (row s2) iA) idx2 l2).
Proof.
  intros Hin H iA. apply indexOf_present in Hin. fold iA in Hin.
  apply canSwap_true_tests in H. cbv zeta in H. fold iA in H.
  destruct H as (s1 & s2 & N1 & N2 & A1 & A2 & _).
  exists s1, s2. split; [exact N1|]. split; [exact N2|].
  assert (T : forall s, cell (row s) iA <> "" -> JS.truthy (cell (row s) iA) = true).
  { intros s Hne. unfold JS.truthy.
    destruct (String.eqb_spec (cell (row s) iA) ""); [contradiction | reflexivity]. }
  split; intros Hne (j & sj & Hj & Hself & Nj & Hc).
  - pose proof (asso_peers_spec _ _ _ _ _ _ (A1 Hin (T _ Hne)) j) as S.
    apply (proj2 S). eauto.
  - pose proof (asso_peers_spec _ _ _ _ _ _ (A2 Hin (T _ Hne)) j) as S.
    apply (proj2 S). eauto.
Qed.

Lemma known_is_truthy (l : list string) (x : string) :
  ~ In "" l -> (0 <=? JS.indexOf l x)%Z = true -> JS.truthy x = true.
Proof.
  intros Hl H. apply Z.leb_le in H. unfold JS.truthy.
  destruct (String.eqb_spec x "") as [E|E]; [|reflexivity].
  subst x. apply indexOf_absent in Hl. lia.
Qed.

(** The elective tests refuse exactly the students who may not enter. *)
Lemma elective_accepted (q : list (string * Z)) (lv2U : list string)
  (lv2 opt : string) :
  elective_refused q lv2U lv2 opt = false <-> may_enter q lv2U lv2 opt.
Proof.
  unfold elective_refused, may_enter.
  assert (KL : isKnownLV2 lv2 = true -> JS.truthy lv2 = true).
  { apply known_is_truthy. simpl. intuition discriminate. }
  assert (KO : isKnownOPT opt = true -> JS.truthy opt = true).
  { apply known_is_truthy. simpl. intuition discriminate. }
  assert (U : (JS.indexOf lv2U lv2 =? -1)%Z = true <-> ~ In lv2 lv2U).
  { rewrite Z.eqb_eq. symmetry. apply indexOf_absent. }
  assert (TL : JS.truthy lv2 = false <-> lv2 = "").
  { unfold JS.truthy. destruct (String.eqb_spec lv2 ""); simpl; intuition congruence. }
  assert (EL : String.eqb opt "LATIN" = false <-> opt <> "LATIN").
  { destruct (String.eqb_spec opt "LATIN"); intuition congruence. }
  assert (EC : String.eqb opt "CHAV" = false <-> opt <> "CHAV").
  { destruct (String.eqb_spec opt "CHAV"); intuition congruence. }
  assert (EE : String.eqb lv2 "ESP" = true <-> lv2 = "ESP").
  { destruct (String.eqb_spec lv2 "ESP"); intuition congruence. }
  assert (TO : JS.truthy opt = false -> opt <> "LATIN" /\ opt <> "CHAV").
  { unfold JS.truthy. destruct (String.eqb_spec opt ""); simpl; [|discriminate].
    subst opt. split; discriminate. }
  rewrite !orb_false_iff.
  assert (A : JS.truthy lv2 && (JS.indexOf lv2U lv2 =? -1)%Z && isKnownLV2 lv2
              && negb (offered q lv2) = false
              <-> (isKnownLV2 lv2 = true -> ~ In lv2 lv2U -> offered q lv2 = true)).
  { rewrite <- U. destruct (JS.truthy lv2) eqn:T; simpl.
    - destruct (JS.indexOf lv2U lv2 =? -1)%Z, (isKnownLV2 lv2), (offered q lv2);
        simpl; intuition congruence.
    - split; [|reflexivity]. intros _ K. apply KL in K. discriminate. }
  assert (B : JS.truthy opt && isKnownOPT opt && negb (offered q opt) = false
              <-> (isKnownOPT opt = true -> offered q opt = true)).
  { destruct (JS.truthy opt) eqn:T; simpl.
    - destruct (isKnownOPT opt), (offered q opt); simpl; intuition congruence.
    - split; [|reflexivity]. intros _ K. apply KO in K. discriminate. }
  assert (C : (offered q "LATIN" || offered q "CHAV")
              && (negb (JS.truthy opt)
                  || negb (String.eqb opt "LATIN") && negb (String.eqb opt "CHAV"))
              && JS.truthy lv2 && negb (String.eqb lv2 "ESP") = false
              <-> (offered q "LATIN" = true \/ offered q "CHAV" = true ->
                   opt <> "LATIN" -> opt <> "CHAV" -> lv2 = "" \/ lv2 = "ESP")).
  { rewrite <- EL, <- EC, <- EE, <- TL.
    assert (N : negb (JS.truthy opt)
                || negb (String.eqb opt "LATIN") && negb (String.eqb opt "CHAV")
                = negb (String.eqb opt "LATIN") && negb (String.eqb opt "CHAV")).
    { destruct (JS.truthy opt) eqn:T; simpl; [reflexivity|].
      destruct (TO eq_refl) as [T1 T2]. apply EL in T1. apply EC in T2.
      now rewrite T1, T2. }
    rewrite N.
    destruct (offered q "LATIN"), (offered q "CHAV"), (JS.truthy lv2),
      (String.eqb opt "LATIN"), (String.eqb opt "CHAV"), (String.eqb lv2 "ESP");
      simpl; intuition congruence. }
  rewrite A, B, C. tauto.
Qed.

Lemma canSwap_keeps_affinity_groups_witness :
  canSwapStudents_Ultimate 0 3 "A" "B" [0; 1; 2]%nat [3; 4]%nat Cases.groups
    Cases.full_headers (Some Cases.quota_ctx) = Some false
  /\ carried_by_other Cases.groups 5 "G1" 0 [0; 1; 2]%nat
  /\ canSwapStudents_Ultimate 2 4 "A" "B" [0; 1; 2]%nat [3; 4]%nat Cases.groups
       Cases.full_headers (Some Cases.quota_ctx) = Some true
  /\ ~ carried_by_other Cases.groups 5 "G3" 2 [0; 1; 2]%nat
  /\ ~ carried_by_other Cases.groups 5 "G2" 4 [3; 4]%nat.
Proof.
  split; [vm_compute; reflexivity|].
  split.
  { exists 1%nat, (Cases.learner "b" "F" "" "" "G1" "").
    repeat split; [simpl; tauto | discriminate]. }
  split; [vm_compute; reflexivity|].
  destruct (canSwap_keeps_affinity_groups 2 4 "A" "B" [0; 1; 2]%nat [3; 4]%nat
              Cases.groups Cases.full_headers (Some Cases.quota_ctx)
              ltac:(simpl; tauto) ltac:(vm_compute; reflexivity))
    as (s1 & s2 & N1 & N2 & A1 & A2).
  simpl in N1, N2. inversion N1; inversion N2; subst s1 s2.
  split; [apply A1 | apply A2]; discriminate.
Defined.

(** X11.  The oracle respects the electives: when it allows the swap, each
    of the two students may enter the class of the other, for the quotas of
    that class and the universal second languages of the context. *)
Theorem canSwap_respects_electives (idx1 idx2 : nat) (c1 c2 : string)
  (l1 l2 : list nat) (allData : list student) (headers : list string)
  (ctx : option context) :
  canSwapStudents_Ultimate idx1 idx2 c1 c2 l1 l2 allData headers ctx = Some true ->
  let lv2 (s : student) := cell (row s) (JS.indexOf headers "LV2") in
  let opt (s : student) := cell (row s) (JS.indexOf headers "OPT") in
  let lv2U := match ctx with Some c => lv2Universelles c | None => [] end in
  exists s1 s2,
    nth_error allData idx1 = Some s1 /\ nth_error allData idx2 = Some s2
    /\ may_enter (quotas_of ctx c2) lv2U (lv2 s1) (opt s1)
    /\ may_enter (quotas_of ctx c1) lv2U (lv2 s2) (opt s2).
Proof.
  intros H lv2 opt lv2U. apply canSwap_true_tests in H. cbv zeta in H.
  destruct H as (s1 & s2 & N1 & N2 & _ & _ & R1 & R2).
  exists s1, s2. split; [exact N1|]. split; [exact N2|].
  split; apply elective_accepted; assumption.
Qed.

Lemma canSwap_respects_electives_witness :
  exists s1 s2,
    nth_error Cases.languages 0 = Some s1 /\ nth_error Cases.languages 2 = Some s2
    /\ may_enter (quotas_of (Some Cases.quota_ctx) "B") [] (cell (row s1) 3)
         (cell (row s1) 4)
    /\ may_enter (quotas_of (Some Cases.quota_ctx) "A") [] (cell (row s2) 3)
         (cell (row s2) 4).
Proof.
  apply (canSwap_respects_electives 0 2 "A" "B" [0; 1]%nat [2; 3]%nat
           Cases.languages Cases.full_headers (Some Cases.quota_ctx)).
  vm_compute. reflexivity.
Defined.

Lemma disso_conflict_spec (allData : list student) (idxDISSO : Z) (code : string)
  (skip : nat) (idxList : list nat) :
  code <> "" ->
  forall b,
    disso_conflict allData idxDISSO code skip idxList = Some b ->
    (b = true <-> carried_by_other allData idxDISSO code skip idxList).
Proof.
  intro Hcode. unfold carried_by_other.
  induction idxList as [|i t IH]; intros b H; simpl in H.
  - inversion H; subst. split; [discriminate|]. intros (j & sj & [] & _).
  - destruct (Nat.eqb_spec i skip) as [Hi|Hi].
    + rewrite (IH _ H). split.
      * intros (j & sj & Hj & Hr). exists j, sj. split; [now right | exact Hr].
      * intros (j & sj & [<-|Hj] & Hne & Hr); [congruence | eauto].
    + step_as H other Eo.
      destruct (JS.truthy (cell (row other) idxDISSO)
                && String.eqb (cell (row other) idxDISSO) code) eqn:E.
      * inversion H; subst b. split; [|reflexivity]. intros _.
        apply andb_prop in E. destruct E as [_ E]. apply String.eqb_eq in E.
        exists i, other. split; [now left|]. auto.
      * rewrite (IH _ H). split.
        -- intros (j & sj & Hj & Hr). exists j, sj. split; [now right | exact Hr].
        -- intros (j & sj & [<-|Hj] & Hne & Nj & Hc); [|eauto 6].
           exfalso. rewrite Eo in Nj. inversion Nj; subst sj.
           rewrite Hc, String.eqb_refl, andb_true_r in E.
           unfold JS.truthy in E. destruct (String.eqb_spec code ""); [contradiction|].
           discriminate.
Qed.

(** X12.  The oracle enforces the antinomy codes: it allows a swap only on
    sheets that have the DISSO column, and only when the (non-empty) code of
    each student is carried by no member of the other class, the student
    leaving that class apart. *)
Theorem canSwap_respects_antinomy (idx1 idx2 : nat) (c1 c2 : string)
  (l1 l2 : list nat) (allData : list student) (headers : list string)
  (ctx : option context) :
  canSwapStudents_Ultimate idx1 idx2 c1 c2 l1 l2 allData headers ctx = Some true ->
  let iD := JS.indexOf headers "DISSO" in
  In "DISSO" headers
  /\ exists s1 s2,
       nth_error allData idx1 = Some s1 /\ nth_error allData idx2 = Some s2
       /\ (cell (row s1) iD <> "" ->
           ~ carried_by_other allData iD (cell (row s1) iD) idx2 l2)
       /\ (cell (row s2) iD <> "" ->
           ~ carried_by_other allData iD (cell (row s2) iD) idx1 l1).
Proof.
  intros H iD. split.
  - destruct (in_dec string_dec "DISSO" headers) as [|Hno]; [assumption|].
    exfalso. revert H. now apply canSwap_never_without_DISSO.
  - apply canSwap_true_inv in H. cbv zeta in H. fold iD in H.
    destruct H as (s1 & s2 & N1 & N2 & K1 & K2).
    exists s1, s2. split; [exact N1|]. split; [exact N2|].
    assert (T : forall s, cell (row s) iD <> "" -> JS.truthy (cell (row s) iD) = true).
    { intros s Hne. unfold JS.truthy.
      destruct (String.eqb_spec (cell (row s) iD) ""); [contradiction | reflexivity]. }
    split; intros Hne Hc.
    + apply (disso_conflict_spec _ _ _ _ _ Hne _ (K1 (T _ Hne))) in Hc. discriminate.
    + apply (disso_conflict_spec _ _ _ _ _ Hne _ (K2 (T _ Hne))) in Hc. discriminate.
Qed.

Lemma canSwap_respects_antinomy_witness :
  In "DISSO" Cases.full_headers
  /\ exists s1 s2,
       nth_error Cases.languages 0 = Some s1 /\ nth_error Cases.languages 2 = Some s2
       /\ (cell (row s1) 6 <> "" ->
           ~ carried_by_other Cases.languages 6 (cell (row s1) 6) 2 [2; 3]%nat)
       /\ (cell (row s2) 6 <> "" ->
           ~ carried_by_other Cases.languages 6 (cell (row s2) 6) 0 [0; 1]%nat).
Proof.
  apply (canSwap_respects_antinomy 0 2 "A" "B" [0; 1]%nat [2; 3]%nat
           Cases.languages Cases.full_headers (Some Cases.quota_ctx)).
  vm_compute. reflexivity.
Defined.

Lemma truthy_iff (s : string) : JS.truthy s = true <-> s <> "".
Proof.
  unfold JS.truthy. destruct (String.eqb_spec s ""); simpl; intuition congruence.
Qed.

Lemma indexOf_nonneg_iff (l : list string) (x : string) :
  (0 <=? JS.indexOf l x)%Z = true <-> In x l.
Proof.
  split; intro H.
  - destruct (in_dec string_dec x l) as [|Hno]; [assumption|].
    apply indexOf_absent in Hno. rewrite Hno in H. discriminate.
  - apply Z.leb_le. now apply indexOf_present.
Qed.

(** The oracle on students and members that exist: it returns a boolean,
    which is true exactly under the rules. *)
Lemma canSwap_iff_allowed (idx1 idx2 : nat) (c1 c2 : string) (l1 l2 : list nat)
  (allData : list student) (headers : list string) (ctx : option context)
  (s1 s2 : student) :
  nth_error allData idx1 = Some s1 -> nth_error allData idx2 = Some s2 ->
  Forall (fun i => i < List.length allData)%nat l1 ->
  Forall (fun i => i < List.length allData)%nat l2 ->
  exists b,
    canSwapStudents_Ultimate idx1 idx2 c1 c2 l1 l2 allData headers ctx = Some b
    /\ canSwapStudents_Ultimate idx2 idx1 c2 c1 l2 l1 allData headers ctx = Some b
    /\ (b = true <-> swap_allowed idx1 idx2 c1 c2 l1 l2 allData headers ctx s1 s2).
Proof.
  intros N1 N2 V1 V2.
  set (iA := JS.indexOf headers "ASSO"). set (iD := JS.indexOf headers "DISSO").
  destruct (asso_peers_defined allData iA (cell (row s1) iA) idx1 l1 V1) as [p1 P1].
  destruct (asso_peers_defined allData iA (cell (row s2) iA) idx2 l2 V2) as [p2 P2].
  destruct (disso_conflict_defined allData iD (cell (row s1) iD) idx2 l2 V2) as [k1 K1].
  destruct (disso_conflict_defined allData iD (cell (row s2) iD) idx1 l1 V1) as [k2 K2].
  pose proof (canSwap_value idx1 idx2 c1 c2 l1 l2 allData headers ctx s1 s2 p1 p2 k1 k2
                N1 N2 P1 P2 K1 K2) as E.
  pose proof (canSwap_value idx2 idx1 c2 c1 l2 l1 allData headers ctx s2 s1 p2 p1 k2 k1
                N2 N1 P2 P1 K2 K1) as E'.
  cbv zeta in E, E'. fold iA iD in E, E'.
  set (lv2U := match ctx with Some c => lv2Universelles c | None => [] end) in *.
  set (R1 := elective_refused (quotas_of ctx c1) lv2U
               (cell (row s2) (JS.indexOf headers "LV2"))
               (cell (row s2) (JS.indexOf headers "OPT"))) in *.
  set (R2 := elective_refused (quotas_of ctx c2) lv2U
               (cell (row s1) (JS.indexOf headers "LV2"))
               (cell (row s1) (JS.indexOf headers "OPT"))) in *.
  set (A1 := JS.truthy (cell (row s1) iA) && (0 <? List.length p1)%nat) in *.
  set (A2 := JS.truthy (cell (row s2) iA) && (0 <? List.length p2)%nat) in *.
  set (D1 := JS.truthy (cell (row s1) iD) && k1) in *.
  set (D2 := JS.truthy (cell (row s2) iD) && k2) in *.
  eexists. split; [exact E|]. split.
  { rewrite E'. f_equal.
    destruct (0 <=? iA)%Z, A1, A2, (iD =? -1)%Z, R1, R2, D1, D2; reflexivity. }
  assert (HA1 : A1 = false <->
                (cell (row s1) iA <> "" ->
                 ~ carried_by_other allData iA (cell (row s1) iA) idx1 l1)).
  { unfold A1. pose proof (asso_peers_spec _ _ _ _ _ _ P1) as S.
    pose proof (truthy_iff (cell (row s1) iA)) as T.
    destruct (JS.truthy (cell (row s1) iA)); simpl.
    - destruct p1 as [|j t]; simpl.
      + split; [|reflexivity]. intros _ _ (j & sj & Hj & Hne & Hs).
        apply (proj2 (S j)). eauto.
      + split; [discriminate|]. intro H. exfalso.
        apply (H (proj1 T eq_refl)).
        destruct (proj1 (S j) (or_introl eq_refl)) as (Hj & Hne & sj & Hs).
        exists j, sj. tauto.
    - split; [|reflexivity]. intros _ Hne. apply T in Hne. discriminate. }
  assert (HA2 : A2 = false <->
                (cell (row s2) iA <> "" ->
                 ~ carried_by_other allData iA (cell (row s2) iA) idx2 l2)).
  { unfold A2. pose proof (asso_peers_spec _ _ _ _ _ _ P2) as S.
    pose proof (truthy_iff (cell (row s2) iA)) as T.
    destruct (JS.truthy (cell (row s2) iA)); simpl.
    - destruct p2 as [|j t]; simpl.
      + split; [|reflexivity]. intros _ _ (j & sj & Hj & Hne & Hs).
        apply (proj2 (S j)). eauto.
      + split; [discriminate|]. intro H. exfalso.
        apply (H (proj1 T eq_refl)).
        destruct (proj1 (S j) (or_introl eq_refl)) as (Hj & Hne & sj & Hs).
        exists j, sj. tauto.
    - split; [|reflexivity]. intros _ Hne. apply T in Hne. discriminate. }
  assert (HD1 : D1 = false <->
                (cell (row s1) iD <> "" ->
                 ~ carried_by_other allData iD (cell (row s1) iD) idx2 l2)).
  { unfold D1. pose proof (truthy_iff (cell (row s1) iD)) as T.
    destruct (JS.truthy (cell (row s1) iD)); simpl.
    - pose proof (disso_conflict_spec _ _ _ _ _ (proj1 T eq_refl) _ K1) as S.
      destruct k1; split; intros; try reflexivity; try discriminate.
      + exfalso. apply (H (proj1 T eq_refl)). now apply S.
      + intro C. apply S in C. discriminate.
    - split; [|reflexivity]. intros _ Hne. apply T in Hne. discriminate. }
  assert (HD2 : D2 = false <->
                (cell (row s2) iD <> "" ->
                 ~ carried_by_other allData iD (cell (row s2) iD) idx1 l1)).
  { unfold D2. pose proof (truthy_iff (cell (row s2) iD)) as T.
    destruct (JS.truthy (cell (row s2) iD)); simpl.
    - pose proof (disso_conflict_spec _ _ _ _ _ (proj1 T eq_refl) _ K2) as S.
      destruct k2; split; intros; try reflexivity; try discriminate.
      + exfalso. apply (H (proj1 T eq_refl)). now apply S.
      + intro C. apply S in C. discriminate.
    - split; [|reflexivity]. intros _ Hne. apply T in Hne. discriminate. }
  pose proof (elective_accepted (quotas_of ctx c1) lv2U
                (cell (row s2) (JS.indexOf headers "LV2"))
                (cell (row s2) (JS.indexOf headers "OPT"))) as HR1.
  pose proof (elective_accepted (quotas_of ctx c2) lv2U
                (cell (row s1) (JS.indexOf headers "LV2"))
                (cell (row s1) (JS.indexOf headers "OPT"))) as HR2.
  fold R1 in HR1. fold R2 in HR2.
  pose proof (indexOf_nonneg_iff headers "ASSO") as HiA. fold iA in HiA.
  assert (HiD : (iD =? -1)%Z = false <-> In "DISSO" headers).
  { unfold iD. split; intro H.
    - destruct (in_dec string_dec "DISSO" headers) as [|Hno]; [assumption|].
      apply indexOf_absent in Hno. rewrite Hno in H. discriminate.
    - apply indexOf_present in H. apply Z.eqb_neq. lia. }
  assert (HA : (0 <=? iA)%Z && (A1 || A2) = false
               <-> ((0 <=? iA)%Z = true -> A1 = false /\ A2 = false)).
  { destruct (0 <=? iA)%Z, A1, A2; simpl; intuition congruence. }
  unfold swap_allowed. fold iA iD lv2U.
  rewrite !andb_true_iff, !negb_true_iff.
  rewrite HA, HiA, HA1, HA2, HiD, HR1, HR2, HD1, HD2. tauto.
Qed.

(** X13.  The oracle decides the rules, and does not depend on which
    student is named first: for two students and two lists of members that
    all exist it returns a boolean, the same for the pair taken in either
    order, which is true exactly when the swap is allowed by the rules. *)
Theorem canSwap_decides_the_rules (idx1 idx2 : nat) (c1 c2 : string)
  (l1 l2 : list nat) (allData : list student) (headers : list string)
  (ctx : option context) (s1 s2 : student) :
  nth_error allData idx1 = Some s1 -> nth_error allData idx2 = Some s2 ->
  Forall (fun i => i < List.length allData)%nat l1 ->
  Forall (fun i => i < List.length allData)%nat l2 ->
  exists b,
    canSwapStudents_Ultimate idx1 idx2 c1 c2 l1 l2 allData headers ctx = Some b
    /\ canSwapStudents_Ultimate idx2 idx1 c2 c1 l2 l1 allData headers ctx = Some b
    /\ (b = true <-> swap_allowed idx1 idx2 c1 c2 l1 l2 allData headers ctx s1 s2).
Proof. apply canSwap_iff_allowed. Qed.

Lemma canSwap_decides_the_rules_witness :
  exists b,
    canSwapStudents_Ultimate 0 2 "A" "B" [0; 1]%nat [2; 3]%nat Cases.languages
      Cases.full_headers (Some Cases.quota_ctx) = Some b
    /\ canSwapStudents_Ultimate 2 0 "B" "A" [2; 3]%nat [0; 1]%nat Cases.languages
         Cases.full_headers (Some Cases.quota_ctx) = Some b
    /\ (b = true <->
        swap_allowed 0 2 "A" "B" [0; 1]%nat [2; 3]%nat Cases.languages
          Cases.full_headers (Some Cases.quota_ctx)
          (Cases.learner "a" "F" "ITA" "" "" "")
          (Cases.learner "c" "M" "ITA" "" "" "D7")).
Proof.
  apply canSwap_decides_the_rules; try reflexivity; simpl; repeat constructor.
Defined.

(** ** The score of a class *)

Lemma defined_students_perm (allData : list student) (l l' : list nat) :
  Permutation l l' ->
  match defined (students_at allData l), defined (students_at allData l') with
  | Some ss, Some ss' => Permutation ss ss'
  | None, None => True
  | _, _ => False
  end.
Proof.
  unfold students_at.
  induction 1 as [|x l l' Hp IH|x y l|l l' l'' H1 IH1 H2 IH2]; simpl.
  - constructor.
  - destruct (nth_error allData x); [|exact I].
    destruct (defined (map (nth_error allData) l)),
      (defined (map (nth_error allData) l')); try contradiction; auto.
  - destruct (nth_error allData x), (nth_error allData y); try exact I;
      destruct (defined (map (nth_error allData) l)); try exact I.
    apply perm_swap.
  - destruct (defined (map (nth_error allData) l)),
      (defined (map (nth_error allData) l')),
      (defined (map (nth_error allData) l'')); try contradiction; auto.
    eapply perm_trans; eauto.
Qed.

Lemma count_perm {A : Type} (p : A -> bool) (l l' : list A) :
  Permutation l l' -> count p l = count p l'.
Proof.
  unfold count. induction 1 as [|x l l' Hp IH|x y l|l l' l'' H1 IH1 H2 IH2]; simpl.
  - reflexivity.
  - destruct (p x); simpl; congruence.
  - destruct (p x), (p y); reflexivity.
  - congruence.
Qed.

Lemma Qsum_perm (l l' : list Q) : Permutation l l' -> Spec.Qsum l == Spec.Qsum l'.
Proof.
  unfold Spec.Qsum.
  induction 1 as [|x l l' Hp IH|x y l|l l' l'' H1 IH1 H2 IH2]; simpl.
  - reflexivity.
  - now rewrite IH.
  - ring.
  - now rewrite IH1.
Qed.

Lemma mean_perm (f : student -> Q) (l l' : list student) :
  Permutation l l' -> Spec.mean f l == Spec.mean f l'.
Proof.
  intro H. unfold Spec.mean. rewrite (Permutation_length H).
  apply Qdiv_comp; [|reflexivity].
  apply Qsum_perm. now apply Permutation_map.
Qed.

Lemma score_of_perm (ss ss' : list student) (gs : stats) (className : string)
  (ctx : option context) :
  Permutation ss ss' ->
  score_of ss gs className ctx == score_of ss' gs className ctx.
Proof.
  intro H. rewrite !score_of_profile.
  unfold Spec.profile_terms, Spec.ratio_F.
  rewrite (Permutation_length H), (count_perm isHead _ _ H),
    (count_perm isNiv1 _ _ H), (count_perm is_F _ _ H).
  rewrite (mean_perm COM _ _ H), (mean_perm TRA _ _ H), (mean_perm PART _ _ H).
  reflexivity.
Qed.

(** X14.  The score of a class does not depend on the order of its members
    when their marks are marks of the scale 1 to 4 or the default 2.5 (the
    sums of such marks are exact in the program, in whatever order they are
    added): two lists of the same members either both have an index
    without a student, or get equal scores. *)
Theorem score_ignores_the_order (indices indices' : list nat)
  (allData : list student) (gs : stats) (className : string)
  (ctx : option context) :
  Permutation indices indices' ->
  (forall i s, In i indices -> nth_error allData i = Some s -> on_scale s = true) ->
  match calculateScore_Ultimate indices allData gs className ctx,
        calculateScore_Ultimate indices' allData gs className ctx with
  | Some q, Some q' => q == q'
  | None, None => True
  | _, _ => False
  end.
Proof.
  intros H _. unfold calculateScore_Ultimate.
  pose proof (defined_students_perm allData _ _ H) as D.
  destruct indices as [|i t].
  - apply Permutation_nil in H. subst indices'. reflexivity.
  - destruct indices' as [|i' t'].
    + apply Permutation_sym, Permutation_nil in H. discriminate.
    + destruct (defined (students_at allData (i :: t))),
        (defined (students_at allData (i' :: t'))); try contradiction; auto.
      now apply score_of_perm.
Qed.

Lemma score_ignores_the_order_witness :
  exists q q',
    calculateScore_Ultimate [0; 1; 2]%nat Cases.marked
      (calculateGlobalStats_Ultimate Cases.marked) "A" None = Some q
    /\ calculateScore_Ultimate [2; 0; 1]%nat Cases.marked
         (calculateGlobalStats_Ultimate Cases.marked) "A" None = Some q'
    /\ q == q' /\ q == 13375 # 12.
Proof.
  pose proof (score_ignores_the_order [0; 1; 2]%nat [2; 0; 1]%nat Cases.marked
                (calculateGlobalStats_Ultimate Cases.marked) "A" None) as H.
  destruct (calculateScore_Ultimate [0; 1; 2]%nat Cases.marked
              (calculateGlobalStats_Ultimate Cases.marked) "A" None)
    as [q|] eqn:E; [|vm_compute in E; discriminate].
  destruct (calculateScore_Ultimate [2; 0; 1]%nat Cases.marked
              (calculateGlobalStats_Ultimate Cases.marked) "A" None)
    as [q'|] eqn:E'; [|vm_compute in E'; discriminate].
  exists q, q'. split; [reflexivity|]. split; [reflexivity|].
  split.
  - apply H.
    + apply Permutation_sym, (Permutation_cons_append [0; 1]%nat 2%nat).
    + intros i s [<-|[<-|[<-|[]]]] Hs; inversion Hs; reflexivity.
  - vm_compute in E. inversion E. vm_compute. reflexivity.
Defined.

(** X15.  The score is a penalty: it is never negative, and for a class
    with members and a positive target it is at least the headcount
    penalty, 800 times the square of the distance to the target. *)
Theorem score_is_a_penalty (indices : list nat) (allData : list student)
  (gs : stats) (className : string) (ctx : option context) (q : Q) :
  calculateScore_Ultimate indices allData gs className ctx = Some q ->
  0 <= q
  /\ (indices <> [] ->
      forall t, target_of className ctx = Some t ->
                Spec.headcount_term (List.length indices) t <= q).
Proof.
  intro H. split; [eapply calculateScore_nonneg; eauto|].
  intros Hne t Ht. unfold calculateScore_Ultimate in H.
  destruct indices as [|i indices]; [congruence|].
  destruct (defined (students_at allData (i :: indices))) as [students|] eqn:D;
    [|discriminate].
  inversion H. rewrite score_of_profile, Ht.
  apply defined_length in D. unfold students_at in D. rewrite length_map in D.
  rewrite D.
  pose proof (profile_terms_nonneg students gs (JS.or_number (avgPART gs) 2.5)).
  lra.
Qed.

Lemma score_is_a_penalty_witness :
  exists q,
    calculateScore_Ultimate [0; 1]%nat Examples.two_tops
      (calculateGlobalStats_Ultimate Examples.two_tops) "A"
      (Some (mkContext (Some [("A", 3%N)]) None [])) = Some q
    /\ 0 <= q /\ Spec.headcount_term 2 3 <= q.
Proof.
  destruct (calculateScore_Ultimate [0; 1]%nat Examples.two_tops
              (calculateGlobalStats_Ultimate Examples.two_tops) "A"
              (Some (mkContext (Some [("A", 3%N)]) None []))) as [q|] eqn:E;
    [|vm_compute in E; discriminate].
  exists q. split; [reflexivity|].
  destruct (score_is_a_penalty _ _ _ _ _ _ E) as [P T].
  split; [exact P|]. apply T; [discriminate | reflexivity].
Defined.

(** ** The statistics of the cohort *)

Lemma count_le_length {A : Type} (p : A -> bool) (l : list A) :
  (count p l <= List.length l)%nat.
Proof. unfold count. apply filter_length_le. Qed.

Lemma Qnat_pos (n : nat) : (0 < n)%nat -> 0 < Qnat n.
Proof. intro H. unfold Qnat, Qlt. simpl. lia. Qed.

Lemma Qnat_le (n m : nat) : (n <= m)%nat -> Qnat n <= Qnat m.
Proof. intro H. unfold Qnat, Qle. simpl. lia. Qed.

Lemma Qsum_bounds (lo hi : Q) (l : list Q) :
  (forall x, In x l -> lo <= x /\ x <= hi) ->
  lo * Qnat (List.length l) <= Spec.Qsum l
  /\ Spec.Qsum l <= hi * Qnat (List.length l).
Proof.
  unfold Spec.Qsum. induction l as [|x t IH]; intro H.
  - simpl. change (Qnat 0) with 0. lra.
  - cbn [fold_right List.length]. rewrite Qnat_S.
    destruct (H x (or_introl eq_refl)).
    destruct IH as [L U]; [intros y Hy; apply H; now right|].
    split; lra.
Qed.

Lemma mean_bounds (lo hi : Q) (g : student -> Q) (l : list student) :
  l <> [] ->
  (forall s, In s l -> lo <= g s /\ g s <= hi) ->
  lo <= fold_left (fun acc s => acc + g s) l 0 / Qnat (List.length l)
  /\ fold_left (fun acc s => acc + g s) l 0 / Qnat (List.length l) <= hi.
Proof.
  intros Hne H.
  assert (Hpos : 0 < Qnat (List.length l)).
  { apply Qnat_pos. destruct l; [congruence | simpl; lia]. }
  destruct (Qsum_bounds lo hi (map g l)) as [L U].
  { intros x Hx. apply in_map_iff in Hx. destruct Hx as (s & <- & Hs). auto. }
  rewrite length_map in L, U.
  rewrite (fold_left_Qplus_acc g l 0). split.
  - apply Qle_shift_div_l; [exact Hpos | lra].
  - apply Qle_shift_div_r; [exact Hpos | lra].
Qed.

(** X16.  The statistics of the cohort are proper averages: the share of
    girls lies between 0 and 1, and each mean lies between 1 and 4, the ends
    of the scale of marks, when the score of every student does (a missing
    PART counting 2.5); for an empty cohort these are the defaults 0.5 and
    2.5. *)
Theorem globalStats_are_averages (allData : list student) :
  let gs := calculateGlobalStats_Ultimate allData in
  (0 <= ratioF gs /\ ratioF gs <= 1)
  /\ ((forall s, In s allData -> 1 <= COM s /\ COM s <= 4) ->
      1 <= avgCOM gs /\ avgCOM gs <= 4)
  /\ ((forall s, In s allData -> 1 <= TRA s /\ TRA s <= 4) ->
      1 <= avgTRA gs /\ avgTRA gs <= 4)
  /\ ((forall s, In s allData ->
         1 <= JS.or_number (PART s) 2.5 /\ JS.or_number (PART s) 2.5 <= 4) ->
      1 <= avgPART gs /\ avgPART gs <= 4)
  /\ (allData = [] -> gs = mkStats 0.5 2.5 2.5 2.5).
Proof.
  intro gs. subst gs. unfold calculateGlobalStats_Ultimate.
  destruct allData as [|s0 t];
    [simpl; repeat split; intros; try reflexivity; lra|].
  set (l := s0 :: t). assert (Hne : l <> []) by discriminate.
  cbn [ratioF avgCOM avgTRA avgPART].
  assert (Hpos : 0 < Qnat (List.length l)) by (apply Qnat_pos; simpl; lia).
  split; [|split; [|split; [|split]]].
  - split.
    + apply Qle_shift_div_l; [exact Hpos|].
      assert (0 <= Qnat (count is_F l)) by (apply (Qnat_le 0); lia). lra.
    + apply Qle_shift_div_r; [exact Hpos|].
      pose proof (Qnat_le _ _ (count_le_length is_F l)). lra.
  - intro H. now apply mean_bounds.
  - intro H. now apply mean_bounds.
  - intro H. unfold sum_or_default.
    now apply (mean_bounds 1 4 (fun s => JS.or_number (PART s) 2.5)).
  - intro E. contradiction.
Qed.

(** ** Saving *)

Lemma count_partition {A : Type} (p : A -> bool) (l : list A) :
  (count p l + count (fun x => negb (p x)) l = List.length l)%nat.
Proof.
  unfold count. induction l as [|x t IH]; simpl; [reflexivity|].
  destruct (p x); simpl; lia.
Qed.

Lemma count_negb_zero {A : Type} (p : A -> bool) (l : list A) :
  count (fun x => negb (p x)) l = 0%nat <-> forall x, In x l -> p x = true.
Proof.
  unfold count. induction l as [|x t IH]; simpl.
  - split; [intros _ ? [] | reflexivity].
  - destruct (p x) eqn:E; simpl.
    + rewrite IH. split; [intros H y [<-|Hy]; auto | auto].
    + split; [discriminate|]. intro H. specialize (H x (or_introl eq_refl)).
      congruence.
Qed.

Lemma defined_students_iff (allData : list student) (l : list nat) :
  (exists ss, defined (students_at allData l) = Some ss)
  <-> Forall (fun i => i < List.length allData)%nat l.
Proof.
  split.
  - unfold students_at. induction l as [|i t IH]; simpl; intros [ss H].
    + constructor.
    + destruct (nth_error allData i) eqn:E; [|discriminate].
      destruct (defined (map (nth_error allData) t)) eqn:D; [|discriminate].
      constructor; [eapply nth_error_valid; eauto | eauto].
  - apply students_defined.
Qed.

(** X17.  Saving counts every class once: with headers, the classes written
    and the classes in error add up to the number of classes, and the result
    is [ok] exactly when every class has its sheet, its members all have a
    student and the write succeeds; without headers (none, or an empty row)
    the result is not [ok]. *)
Theorem saveResults_counts_every_class (sheet : string -> option bool)
  (allData : list student) (byClass : assignment)
  (headersRef : option (list string)) :
  let r := saveResults_Ultimate sheet allData byClass headersRef in
  (headersRef = None \/ headersRef = Some [] -> s_ok r = false)
  /\ (forall h, headersRef = Some h -> h <> [] ->
        (successCount r + errorCount r = List.length byClass)%nat
        /\ (s_ok r = true <->
            forall cls l, In (cls, l) byClass ->
              sheet (cls ++ "TEST") = Some true
              /\ Forall (fun i => i < List.length allData)%nat l)).
Proof.
  intro r. subst r. split.
  - intros [->| ->]; reflexivity.
  - intros h -> Hne. destruct h as [|h0 h]; [congruence|].
    unfold saveResults_Ultimate. cbn [successCount errorCount s_ok].
    split; [apply count_partition|].
    rewrite Nat.eqb_eq, count_negb_zero. split.
    + intros H cls l Hin. specialize (H (cls, l) Hin). simpl in H.
      destruct (sheet (cls ++ "TEST")) as [w|]; [|discriminate].
      destruct (defined (students_at allData l)) as [ss|] eqn:D; [|discriminate].
      subst w. split; [reflexivity|]. apply defined_students_iff. eauto.
    + intros H [cls l] Hin. destruct (H cls l Hin) as [E V]. simpl. rewrite E.
      apply defined_students_iff in V. destruct V as [ss ->]. reflexivity.
Qed.

Lemma saveResults_counts_every_class_witness :
  (successCount (saveResults_Ultimate Examples.all_sheets Examples.cohort
                   Examples.three_classes (Some Examples.headers))
   + errorCount (saveResults_Ultimate Examples.all_sheets Examples.cohort
                   Examples.three_classes (Some Examples.headers))
   = 3)%nat.
Proof.
  refine (proj1 (proj2 (saveResults_counts_every_class Examples.all_sheets
                          Examples.cohort Examples.three_classes
                          (Some Examples.headers)) Examples.headers eq_refl _)).
  discriminate.
Defined.

(** ** The loader *)

Lemma keys_set_new {V : Type} (o : list (string * V)) (k : string) (v : V) :
  JS.get o k = None -> JS.keys (JS.set o k v) = (JS.keys o ++ [k])%list.
Proof.
  induction o as [|[k' v'] t IH]; simpl; [reflexivity|].
  destruct (String.eqb k' k); [discriminate|]. intro H. simpl. now rewrite IH.
Qed.

Lemma all_members_push (byClass : assignment) (c : string) (n : nat) :
  Permutation
    (all_members
       (JS.set byClass c
          (match JS.get byClass c with Some l => l | None => [] end ++ [n])%list))
    (n :: all_members byClass).
Proof.
  unfold all_members. induction byClass as [|[k v] t IH]; simpl.
  - apply Permutation_refl.
  - destruct (String.eqb k c); simpl.
    + rewrite <- app_assoc. simpl. apply Permutation_sym, Permutation_middle.
    + eapply perm_trans; [apply Permutation_app_head, IH|].
      apply Permutation_sym, Permutation_middle.
Qed.

Section Loader.

Variable Number : string -> option Q.

(** What the loader keeps while it reads: every class has a member, every
    member is the index of a student read so far, the class names are
    distinct, the members of all classes are the students read so far, each
    once, and every student was built from a row. *)
Let loaded (allData : list student) (byClass : assignment) : Prop :=
  well_formed allData byClass
  /\ NoDup (JS.keys byClass)
  /\ Permutation (all_members byClass) (seq 0 (List.length allData))
  /\ forall s, In s allData -> exists headers r, s = load_student Number headers r.

Lemma load_row_loaded (className : string) (headers : list string)
  (st : list student * assignment) (r : list string) :
  loaded (fst st) (snd st) ->
  loaded (fst (load_row Number className headers st r))
         (snd (load_row Number className headers st r)).
Proof.
  destruct st as [allData byClass]. simpl. intros (W & K & P & B).
  unfold loaded, well_formed, load_row. simpl.
  destruct (negb _); simpl; [exact (conj W (conj K (conj P B)))|].
  rewrite length_app. simpl.
  replace (List.length allData + 1 - 1)%nat with (List.length allData) by lia.
  split; [|split; [|split]].
  - intros cls l Hin. apply in_set in Hin. destruct Hin as [E|Hin].
    + inversion E; subst cls l. split; [now destruct (JS.get byClass className) as [[|]|]|].
      apply Forall_app. split.
      * destruct (JS.get byClass className) as [l|] eqn:G; [|constructor].
        destruct (W _ _ (get_In _ _ _ G)) as [_ V].
        eapply Forall_impl; [|exact V]. simpl. intros; lia.
      * repeat constructor. lia.
    + destruct (W _ _ Hin) as [Hne V]. split; [exact Hne|].
      eapply Forall_impl; [|exact V]. simpl. intros; lia.
  - destruct (JS.get byClass className) as [l|] eqn:G.
    + now rewrite (keys_set _ _ _ _ G).
    + rewrite (keys_set_new _ _ _ G). apply NoDup_snoc; [exact K|].
      intro Hin. apply get_keys in Hin. destruct Hin as [v Hv]. congruence.
  - eapply perm_trans; [apply all_members_push|].
    replace (List.length allData + 1)%nat with (S (List.length allData)) by lia.
    rewrite seq_S. simpl.
    eapply perm_trans; [apply perm_skip, P|]. apply Permutation_cons_append.
  - intros s Hin. apply in_app_or in Hin. destruct Hin as [Hin|[<-|[]]]; eauto.
Qed.

Lemma load_rows_loaded (className : string) (headers : list string)
  (rows : list (list string)) :
  forall st, loaded (fst st) (snd st) ->
    loaded (fst (fold_left (load_row Number className headers) rows st))
           (snd (fold_left (load_row Number className headers) rows st)).
Proof.
  induction rows as [|r t IH]; intros st H; simpl; [exact H|].
  apply IH. now apply load_row_loaded.
Qed.

Lemma load_sheets_loaded (sheets : list (string * list (list string))) :
  forall st,
    loaded (ld_allData st) (ld_byClass st) ->
    (ld_headers st = None -> ld_allData st = [] /\ ld_byClass st = []) ->
    let st' := fold_left (load_sheet Number) sheets st in
    loaded (ld_allData st') (ld_byClass st')
    /\ (ld_headers st' = None -> ld_allData st' = [] /\ ld_byClass st' = [])
    /\ ld_headers st' = match ld_headers st with
                        | Some h => Some h
                        | None => first_headers sheets
                        end.
Proof.
  unfold first_headers.
  induction sheets as [|[name data] t IH]; intros st L E; cbv zeta.
  - simpl. split; [exact L|]. split; [exact E|]. now destruct (ld_headers st).
  - destruct data as [|headers [|r rows]].
    + change (fold_left (load_sheet Number) ((name, []) :: t) st)
        with (fold_left (load_sheet Number) t st).
      destruct (IH st L E) as (L' & E' & H'). auto.
    + change (fold_left (load_sheet Number) ((name, [headers]) :: t) st)
        with (fold_left (load_sheet Number) t st).
      destruct (IH st L E) as (L' & E' & H'). auto.
    + set (res := fold_left (load_row Number (strip_TEST name) headers) (r :: rows)
                    (ld_allData st, ld_byClass st)).
      set (st1 := mkLoader (fst res) (snd res)
                    match ld_headers st with
                    | Some h => Some h
                    | None => Some headers
                    end).
      change (fold_left (load_sheet Number) ((name, headers :: r :: rows) :: t) st)
        with (fold_left (load_sheet Number) t st1).
      destruct (IH st1) as (L' & E' & H').
      * simpl. apply (load_rows_loaded (strip_TEST name) headers (r :: rows)
                        (ld_allData st, ld_byClass st)). exact L.
      * simpl. destruct (ld_headers st); discriminate.
      * split; [exact L'|]. split; [exact E'|]. rewrite H'. simpl.
        now destruct (ld_headers st).
Qed.

Lemma loader_partition (sheets : list (string * list (list string))) :
  let d := loadAndClassifyData_Ultimate Number sheets in
  data_ok d = true
  /\ well_formed (data_allData d) (data_byClass d)
  /\ NoDup (JS.keys (data_byClass d))
  /\ Permutation (all_members (data_byClass d)) (seq 0 (List.length (data_allData d)))
  /\ data_headers d = first_headers sheets
  /\ (data_headers d = None -> data_allData d = [] /\ data_byClass d = []).
Proof.
  intro d. subst d. unfold loadAndClassifyData_Ultimate. simpl.
  destruct (load_sheets_loaded sheets (mkLoader [] [] None)) as (L & E & H).
  - split; [intros ? ? []|]. split; [constructor|].
    split; [apply Permutation_refl | intros ? []].
  - auto.
  - destruct L as (W & K & P & _). simpl in H. auto 7.
Qed.


(** X18.  What the loader returns: every class has a member and every
    member has a student; the class names are distinct; the classes
    partition the students (their members are, up to order, the indices of
    all students); the headers are those of the first sheet with a row below
    its first one, and without such a sheet there is no student, no class
    and no headers. *)
Theorem loader_returns_a_partition (sheets : list (string * list (list string))) :
  let d := loadAndClassifyData_Ultimate Number sheets in
  data_ok d = true
  /\ well_formed (data_allData d) (data_byClass d)
  /\ NoDup (JS.keys (data_byClass d))
  /\ Permutation (all_members (data_byClass d)) (seq 0 (List.length (data_allData d)))
  /\ data_headers d = first_headers sheets
  /\ (data_headers d = None -> data_allData d = [] /\ data_byClass d = []).
Proof. apply loader_partition. Qed.

Lemma Qeq_bool_false (x : Q) : Qeq_bool x 0 = false -> ~ x == 0.
Proof. intros H E. apply Qeq_bool_iff in E. congruence. Qed.

Lemma number_or_nonzero (x : option Q) : ~ number_or x 2.5 == 0.
Proof.
  unfold number_or, JS.or_number. destruct x as [q|]; [|discriminate].
  destruct (Qeq_bool q 0) eqn:E; [discriminate | now apply Qeq_bool_false].
Qed.

(** X19.  The students the loader builds: their three scores are never 0
    (a missing, zero or non-numeric cell reads 2.5), so that the fallbacks of
    the cost function leave them as they are; their flags are the ones
    [isHeadStudent] and [isNiv1Student] compute from these scores; and their
    sex is at most one character. *)
Theorem loaded_students_are_classified (sheets : list (string * list (list string)))
  (s : student) :
  In s (data_allData (loadAndClassifyData_Ultimate Number sheets)) ->
  (~ COM s == 0 /\ ~ TRA s == 0 /\ ~ PART s == 0)
  /\ (JS.or_number (COM s) 2.5 = COM s /\ JS.or_number (TRA s) 2.5 = TRA s
      /\ JS.or_number (PART s) 2.5 = PART s)
  /\ isHead s = isHeadStudent (COM s) (TRA s) (Some (PART s))
  /\ isNiv1 s = isNiv1Student (COM s) (TRA s)
  /\ (String.length (sexe s) <= 1)%nat.
Proof.
  intro Hin. unfold loadAndClassifyData_Ultimate in Hin. simpl in Hin.
  destruct (load_sheets_loaded sheets (mkLoader [] [] None)) as ((_ & _ & _ & B) & _).
  - split; [intros ? ? []|]. split; [constructor|].
    split; [apply Permutation_refl | intros ? []].
  - auto.
  - destruct (B s Hin) as (headers & r & ->). unfold load_student.
    cbn [COM TRA PART isHead isNiv1 sexe].
    set (c := number_or _ 2.5). set (t := number_or _ 2.5). set (p := number_or _ 2.5).
    assert (Nc : ~ c == 0) by apply number_or_nonzero.
    assert (Nt : ~ t == 0) by apply number_or_nonzero.
    assert (Np : ~ p == 0) by apply number_or_nonzero.
    assert (O : forall x, ~ x == 0 -> JS.or_number x 2.5 = x).
    { intros x Hx. unfold JS.or_number. destruct (Qeq_bool x 0) eqn:E; [|reflexivity].
      apply Qeq_bool_iff in E. contradiction. }
    repeat split; auto.
    destruct (JS.trim _); simpl; lia.
Qed.

End Loader.

Lemma loaded_students_are_classified_witness :
  exists s,
    In s (data_allData (loadAndClassifyData_Ultimate Cases.number Cases.sheets))
    /\ isHead s = isHeadStudent (COM s) (TRA s) (Some (PART s))
    /\ JS.or_number (COM s) 2.5 = COM s.
Proof.
  destruct (data_allData (loadAndClassifyData_Ultimate Cases.number Cases.sheets))
    as [|s t] eqn:E; [vm_compute in E; discriminate|].
  exists s. split; [now left|].
  destruct (loaded_students_are_classified Cases.number Cases.sheets s) as (_ & O & H & _).
  - rewrite E. now left.
  - split; [exact H | exact (proj1 O)].
Defined.

(** X20.  From the spreadsheet to the result.  With draws in [0, 1), the
    optimiser started on sheets of which one has a row below its first one
    returns a result with [ok = true], for a final assignment that still
    partitions the loaded students into classes with members; when no sheet
    has such a row it raises (the validator reads the headers, which are
    null). *)
Theorem run_from_sheets (random : nat -> Q) (sheet : string -> option bool)
  (Number : string -> option Q) (ctx : context) (niveaux : option (list string))
  (sheets : list (string * list (list string))) (n : nat) :
  unit_interval random ->
  let allData := data_allData (loadAndClassifyData_Ultimate Number sheets) in
  (first_headers sheets <> None ->
   exists swapsApplied swaps3Way saveResult validationResult final n',
     Phase4_Ultimate_Run_sheets random sheet Number ctx niveaux sheets n
     = Some ((RunDone swapsApplied swaps3Way saveResult validationResult, final), n')
     /\ well_formed allData final
     /\ Permutation (all_members final) (seq 0 (List.length allData)))
  /\ (first_headers sheets = None ->
      Phase4_Ultimate_Run_sheets random sheet Number ctx niveaux sheets n = None).
Proof.
  intros Hr allData. subst allData. unfold Phase4_Ultimate_Run_sheets.
  destruct (loader_partition Number sheets) as (Ok & W & K & P & H & E).
  destruct (loadAndClassifyData_Ultimate Number sheets) as [ok allData byClass hs].
  simpl in *. subst ok. rewrite <- H. split.
  - intro Hne. destruct hs as [hs|]; [|congruence].
    destruct (run_returns random sheet (loaded_context ctx niveaux) allData byClass hs
                n Hr W) as (sa & s3 & sv & v & final & n' & R & W').
    exists sa, s3, sv, v, final, n'. split; [exact R|]. split; [exact W'|].
    assert (Hnd : NoDup (all_members byClass)).
    { eapply Permutation_NoDup; [apply Permutation_sym, P | apply seq_NoDup]. }
    destruct (run_conserves _ _ _ _ _ _ _ _ _ _ Hnd R) as (P' & _).
    eapply perm_trans; eauto.
  - intros ->. destruct (E eq_refl) as [-> ->]. now rewrite run_empty.
Qed.

Lemma run_from_sheets_witness :
  exists swapsApplied swaps3Way saveResult validationResult final n',
    Phase4_Ultimate_Run_sheets (fun _ => 0) Examples.all_sheets Cases.number
      Examples.bare_ctx None Cases.sheets 0%nat
    = Some ((RunDone swapsApplied swaps3Way saveResult validationResult, final), n')
    /\ well_formed (data_allData (loadAndClassifyData_Ultimate Cases.number Cases.sheets))
         final
    /\ Permutation (all_members final) [0; 1; 2; 3]%nat.
Proof.
  apply (proj1 (run_from_sheets (fun _ => 0) Examples.all_sheets Cases.number
                  Examples.bare_ctx None Cases.sheets 0%nat unit_interval_zero)).
  discriminate.
Defined.

(** ** The universal second languages *)

Section Universal.

(** The count of an option in the table of the loader, 0 when it has no
    entry. *)
Let cnt (h : list (string * nat)) (c : string) : nat :=
  match JS.get h c with Some n => n | None => 0%nat end.

(** Every entry of the table counts at least one class, and no option has
    two entries. *)
Let proper (h : list (string * nat)) : Prop :=
  NoDup (JS.keys h) /\ forall c, In c (JS.keys h) <-> (1 <= cnt h c)%nat.

Lemma bump_cnt (h : list (string * nat)) (k c : string) :
  cnt (bump h k) c = (cnt h c + if String.eqb k c then 1 else 0)%nat.
Proof.
  unfold cnt, bump. destruct (String.eqb_spec k c) as [E|E].
  - subst c. rewrite get_set_same. reflexivity.
  - rewrite get_set_other by exact E. lia.
Qed.

Lemma bump_proper (h : list (string * nat)) (k : string) :
  proper h -> proper (bump h k).
Proof.
  intros [Hnd Hk]. split.
  - unfold bump. destruct (JS.get h k) as [n|] eqn:G.
    + now rewrite (keys_set _ _ _ _ G).
    + rewrite (keys_set_new _ _ _ G). apply NoDup_snoc; [exact Hnd|].
      intro Hin. apply get_keys in Hin. destruct Hin as [v Hv]. congruence.
  - intro c. rewrite bump_cnt. split.
    + intro Hin. destruct (String.eqb_spec k c); [lia|].
      assert (In c (JS.keys h)); [|apply Hk in H; lia].
      apply get_keys in Hin. destruct Hin as [v Hv]. unfold bump in Hv.
      rewrite get_set_other in Hv by assumption. apply get_keys. eauto.
    + intro Hc. apply get_keys. unfold bump.
      destruct (String.eqb_spec k c) as [E|E].
      * subst c. rewrite get_set_same. eauto.
      * rewrite get_set_other by exact E. apply get_keys, Hk. lia.
Qed.

Lemma count_options (p : string -> bool) (opts : list string) (c : string) :
  forall h,
    proper h ->
    let h' := fold_left (fun acc o => if p o then bump acc o else acc) opts h in
    proper h'
    /\ cnt h' c = (cnt h c + count_occ string_dec (filter p opts) c)%nat.
Proof.
  induction opts as [|o t IH]; intros h Hp; simpl.
  - split; [exact Hp | lia].
  - destruct (p o) eqn:E.
    + destruct (IH (bump h o) (bump_proper _ _ Hp)) as [Hp' Hc].
      split; [exact Hp'|]. rewrite Hc, bump_cnt. simpl.
      destruct (String.eqb_spec o c) as [Eo|Eo];
        destruct (string_dec o c); try contradiction; lia.
    + apply IH. exact Hp.
Qed.

Lemma count_occ_filter_NoDup (p : string -> bool) (l : list string) (c : string) :
  NoDup l ->
  count_occ string_dec (filter p l) c
  = if p c && (if in_dec string_dec c l then true else false) then 1%nat else 0%nat.
Proof.
  intro Hnd. destruct (in_dec string_dec c l) as [Hin|Hin].
  - destruct (p c) eqn:E; simpl.
    + assert (Hf : In c (filter p l)) by (apply filter_In; auto).
      apply (count_occ_In string_dec) in Hf.
      pose proof (proj1 (NoDup_count_occ string_dec _)
                    (NoDup_filter p Hnd) c). lia.
    + apply count_occ_not_In. intro Hf. apply filter_In in Hf. destruct Hf. congruence.
  - rewrite andb_false_r. apply count_occ_not_In. intro Hf.
    apply filter_In in Hf. tauto.
Qed.

Lemma count_class_lv2_cnt (q : list (string * Z)) (c : string) (h : list (string * nat)) :
  NoDup (JS.keys q) -> proper h ->
  proper (count_class_lv2 h q)
  /\ cnt (count_class_lv2 h q) c
     = (cnt h c + if isKnownLV2 c && offered q c then 1 else 0)%nat.
Proof.
  intros Hq Hp. unfold count_class_lv2.
  destruct (count_options (fun o => isKnownLV2 o && offered q o) (JS.keys q) c h Hp)
    as [Hp' Hc].
  split; [exact Hp'|]. rewrite Hc, (count_occ_filter_NoDup _ _ _ Hq).
  destruct (isKnownLV2 c && offered q c) eqn:E; [|reflexivity]. simpl.
  destruct (in_dec string_dec c (JS.keys q)) as [|Hno]; [reflexivity|].
  exfalso. apply Hno. apply andb_prop in E. destruct E as [_ E].
  unfold offered in E. apply get_keys.
  destruct (JS.get q c); [eauto | discriminate].
Qed.

Lemma lv2_counts_cnt (c : string) (tbl : list (string * list (string * Z))) :
  forall (ks : list string) (h : list (string * nat)),
    (forall k, In k ks ->
       NoDup (JS.keys (match JS.get tbl k with Some q => q | None => [] end))) ->
    proper h ->
    let h' := fold_left (fun acc classe =>
                           count_class_lv2 acc
                             (match JS.get tbl classe with Some q => q | None => [] end))
                ks h in
    proper h'
    /\ cnt h' c
       = (cnt h c
          + count (fun k => isKnownLV2 c
                            && offered (match JS.get tbl k with
                                        | Some q => q
                                        | None => []
                                        end) c) ks)%nat.
Proof.
  induction ks as [|k t IH]; intros h Hq Hp; simpl.
  - split; [exact Hp | unfold count; simpl; lia].
  - destruct (count_class_lv2_cnt
                (match JS.get tbl k with Some q => q | None => [] end) c h
                (Hq k (or_introl eq_refl)) Hp) as [Hp1 Hc1].
    destruct (IH _ (fun k' H => Hq k' (or_intror H)) Hp1) as [Hp' Hc'].
    split; [exact Hp'|]. rewrite Hc', Hc1. unfold count. simpl.
    destruct (isKnownLV2 c && offered _ c); simpl; lia.
Qed.

Lemma count_keys_entries {V : Type} (f : V -> bool) (d : V) (tbl : list (string * V)) :
  NoDup (JS.keys tbl) ->
  count (fun k => f (match JS.get tbl k with Some q => q | None => d end)) (JS.keys tbl)
  = count (fun e => f (snd e)) tbl.
Proof.
  unfold count. induction tbl as [|[k v] t IH]; simpl; [reflexivity|].
  intro Hnd. inversion Hnd as [|? ? Hni Hnd']; subst.
  rewrite String.eqb_refl.
  assert (E : filter (fun k0 => f (match (if String.eqb k k0 then Some v else JS.get t k0)
                                   with Some q => q | None => d end)) (JS.keys t)
              = filter (fun k0 => f (match JS.get t k0 with Some q => q | None => d end))
                  (JS.keys t)).
  { apply filter_ext_in. intros k0 Hk0.
    destruct (String.eqb_spec k k0); [subst; contradiction | reflexivity]. }
  rewrite E. destruct (f v); simpl; rewrite IH; auto.
Qed.

Lemma count_never {A : Type} (l : list A) : count (fun _ => false) l = 0%nat.
Proof. unfold count. induction l; simpl; auto. Qed.

Lemma count_all {A : Type} (p : A -> bool) (l : list A) :
  count p l = List.length l <-> forall x, In x l -> p x = true.
Proof.
  unfold count. induction l as [|x t IH]; simpl.
  - split; [intros _ ? [] | reflexivity].
  - destruct (p x) eqn:E; simpl.
    + split.
      * intros H y [<-|Hy]; [exact E|]. apply IH; [lia | exact Hy].
      * intro H. f_equal. apply IH. auto.
    + split.
      * intro H. pose proof (filter_length_le p t). lia.
      * intro H. specialize (H x (or_introl eq_refl)). congruence.
Qed.

Lemma universal_spec
  (tbl : list (string * list (string * Z))) (niveaux : option (list string))
  (lv2 : string) :
  let nbClasses := List.length (match niveaux with Some l => l | None => [] end) in
  (detect_lv2Universelles None niveaux = []
   /\ (nbClasses = 0%nat -> detect_lv2Universelles (Some tbl) niveaux = []))
  /\ (NoDup (JS.keys tbl) ->
      (forall cls q, In (cls, q) tbl -> NoDup (JS.keys q)) ->
      NoDup (detect_lv2Universelles (Some tbl) niveaux)
      /\ (In lv2 (detect_lv2Universelles (Some tbl) niveaux) <->
          isKnownLV2 lv2 = true /\ (1 <= nbClasses)%nat
          /\ count (fun e => offered (snd e) lv2) tbl = nbClasses)
      /\ (List.length tbl = nbClasses ->
          (In lv2 (detect_lv2Universelles (Some tbl) niveaux) <->
           isKnownLV2 lv2 = true /\ tbl <> []
           /\ forall cls q, In (cls, q) tbl -> offered q lv2 = true))).
Proof.
  intro nbClasses.
  assert (P0 : proper []).
  { split; [constructor|]. intro c. unfold cnt. simpl. split; [intros [] | lia]. }
  assert (Any : forall t, (forall k, In k (JS.keys t) ->
                 NoDup (JS.keys (match JS.get t k with Some q => q | None => [] end))) ->
               proper (lv2_counts t)
               /\ forall c, cnt (lv2_counts t) c
                    = count (fun k => isKnownLV2 c
                                      && offered (match JS.get t k with
                                                  | Some q => q
                                                  | None => []
                                                  end) c) (JS.keys t)).
  { intros t Hq. split.
    - exact (proj1 (lv2_counts_cnt "" t (JS.keys t) [] Hq P0)).
    - intro c. exact (proj2 (lv2_counts_cnt c t (JS.keys t) [] Hq P0)). }
  split; [split|].
  - reflexivity.
  - intro Hz. unfold detect_lv2Universelles. fold nbClasses. rewrite Hz.
    assert (Pr : forall (ks : list string) (h : list (string * nat)),
               (forall c n, JS.get h c = Some n -> (1 <= n)%nat) ->
               forall c n,
                 JS.get (fold_left
                           (fun acc classe =>
                              count_class_lv2 acc
                                (match JS.get tbl classe with
                                 | Some q => q
                                 | None => []
                                 end)) ks h) c = Some n -> (1 <= n)%nat).
    { induction ks as [|k t IH]; intros h Hh; simpl; [exact Hh|].
      apply IH. unfold count_class_lv2.
      generalize (JS.keys (match JS.get tbl k with Some q => q | None => [] end)).
      intro opts. revert h Hh. induction opts as [|o os IHo]; intros h Hh; simpl;
        [exact Hh|].
      apply IHo. destruct (isKnownLV2 o && offered _ o); [|exact Hh].
      intros c n. unfold bump. destruct (String.eqb_spec o c) as [E|E].
      - subst c. rewrite get_set_same. intro H; inversion H. lia.
      - rewrite get_set_other by exact E. apply Hh. }
    specialize (Pr (JS.keys tbl) [] ltac:(discriminate)). fold (lv2_counts tbl) in Pr.
    generalize (JS.keys (lv2_counts tbl)). intro l.
    induction l as [|c t IH]; simpl; [reflexivity|].
    destruct (JS.get (lv2_counts tbl) c) as [n|] eqn:G; [|exact IH].
    apply Pr in G. destruct (Nat.eqb_spec n 0); [lia | exact IH].
  - intros Hnd Hq.
    destruct (Any tbl) as [[Kh Kc] C].
    { intros k Hk. apply get_keys in Hk. destruct Hk as [q G]. rewrite G.
      apply (Hq k q). now apply get_In. }
    assert (Cnt : forall c, cnt (lv2_counts tbl) c
                  = if isKnownLV2 c then count (fun e => offered (snd e) c) tbl
                    else 0%nat).
    { intro c. rewrite C.
      rewrite (count_keys_entries (fun q => isKnownLV2 c && offered q c) [] tbl Hnd).
      destruct (isKnownLV2 c); simpl; [reflexivity | apply count_never]. }
    assert (M : In lv2 (detect_lv2Universelles (Some tbl) niveaux) <->
                isKnownLV2 lv2 = true /\ (1 <= nbClasses)%nat
                /\ count (fun e => offered (snd e) lv2) tbl = nbClasses).
    { unfold detect_lv2Universelles. fold nbClasses. rewrite filter_In, (Kc lv2).
      pose proof (Cnt lv2) as Cl. unfold cnt in *.
      destruct (JS.get (lv2_counts tbl) lv2) as [n|].
      - rewrite Nat.eqb_eq.
        destruct (isKnownLV2 lv2); intuition (try lia; try discriminate).
      - destruct (isKnownLV2 lv2); intuition (try lia; try discriminate). }
    split; [|split].
    + unfold detect_lv2Universelles. apply NoDup_filter. exact Kh.
    + exact M.
    + intro Hlen. rewrite M, <- Hlen, count_all. split.
      * intros (K & Hpos & Hall). split; [exact K|].
        split; [destruct tbl; [simpl in Hpos; lia | discriminate]|].
        intros cls q Hin. exact (Hall (cls, q) Hin).
      * intros (K & Hne & Hall). split; [exact K|].
        split; [destruct tbl; [congruence | simpl; lia]|].
        intros [cls q] Hin. exact (Hall cls q Hin).
Qed.


(** X21.  The universal second languages the loader detects.  Without
    quotas or without levels in the context there is none.  For a table of
    quotas with distinct class names and distinct options in each class, a
    language is universal exactly when it is a known one, the context has at
    least one level, and the classes that offer it (with a positive quota)
    are as many as the levels; when the table has one class for each level,
    exactly when it is a known one and every class offers it. *)
Theorem universal_languages_are_offered_everywhere
  (tbl : list (string * list (string * Z))) (niveaux : option (list string))
  (lv2 : string) :
  let nbClasses := List.length (match niveaux with Some l => l | None => [] end) in
  (detect_lv2Universelles None niveaux = []
   /\ (nbClasses = 0%nat -> detect_lv2Universelles (Some tbl) niveaux = []))
  /\ (NoDup (JS.keys tbl) ->
      (forall cls q, In (cls, q) tbl -> NoDup (JS.keys q)) ->
      NoDup (detect_lv2Universelles (Some tbl) niveaux)
      /\ (In lv2 (detect_lv2Universelles (Some tbl) niveaux) <->
          isKnownLV2 lv2 = true /\ (1 <= nbClasses)%nat
          /\ count (fun e => offered (snd e) lv2) tbl = nbClasses)
      /\ (List.length tbl = nbClasses ->
          (In lv2 (detect_lv2Universelles (Some tbl) niveaux) <->
           isKnownLV2 lv2 = true /\ tbl <> []
           /\ forall cls q, In (cls, q) tbl -> offered q lv2 = true))).
Proof. apply universal_spec. Qed.

End Universal.

Lemma universal_languages_are_offered_everywhere_witness :
  In "ITA" (detect_lv2Universelles
              (Some [("A", [("ITA", 5%Z); ("ESP", 10%Z)]);
                     ("B", [("ITA", 5%Z); ("ESP", 10%Z)])])
              (Some ["5A"; "5B"])).
Proof.
  destruct (universal_languages_are_offered_everywhere
              [("A", [("ITA", 5%Z); ("ESP", 10%Z)]); ("B", [("ITA", 5%Z); ("ESP", 10%Z)])]
              (Some ["5A"; "5B"]) "ITA") as [_ H].
  destruct H as (_ & _ & H).
  - repeat constructor; simpl; intuition discriminate.
  - intros cls q [E|[E|[]]]; inversion E; subst;
      repeat constructor; simpl; intuition discriminate.
  - apply (proj2 (H eq_refl)). split; [reflexivity|]. split; [discriminate|].
    intros cls q [E|[E|[]]]; inversion E; subst; reflexivity.
Defined.

(** X22.  The exemption of the universal second languages is sound: in the
    context the loader leaves, for a table of quotas with distinct class
    names, distinct options in each class and one class for each level, a
    student may enter a class of the table exactly when the student might
    without any exemption. *)
Theorem universal_exemption_is_sound (ctx : context)
  (tbl : list (string * list (string * Z))) (niveaux : option (list string))
  (cls : string) (q : list (string * Z)) (lv2 opt : string) :
  quotas ctx = Some tbl ->
  NoDup (JS.keys tbl) ->
  (forall c q', In (c, q') tbl -> NoDup (JS.keys q')) ->
  List.length tbl = List.length (match niveaux with Some l => l | None => [] end) ->
  JS.get tbl cls = Some q ->
  quotas_of (Some (loaded_context ctx niveaux)) cls = q
  /\ (may_enter q (lv2Universelles (loaded_context ctx niveaux)) lv2 opt
      <-> may_enter q [] lv2 opt).
Proof.
  intros Hq Hnd Hin Hlen Hg. split.
  - unfold quotas_of, loaded_context. simpl. now rewrite Hq, Hg.
  - unfold loaded_context, may_enter. simpl. rewrite Hq.
    destruct (universal_spec tbl niveaux lv2) as [_ U].
    destruct (U Hnd Hin) as (_ & _ & V). specialize (V Hlen).
    split; intros (A & B & C); (split; [|split; [exact B | exact C]]).
    + intros K _.
      destruct (in_dec string_dec lv2
                  (detect_lv2Universelles (Some tbl) niveaux)) as [Hu|Hu]; [|auto].
      apply V in Hu. destruct Hu as (_ & _ & Hall).
      apply (Hall cls q). now apply get_In.
    + intros K _. apply A; [exact K | intros []].
Qed.

Lemma universal_exemption_is_sound_witness :
  may_enter [("ITA", 5%Z); ("ESP", 10%Z)]
    (lv2Universelles (loaded_context Cases.quota_ctx (Some ["5A"; "5B"]))) "ITA" ""
  <-> may_enter [("ITA", 5%Z); ("ESP", 10%Z)] [] "ITA" "".
Proof.
  refine (proj2 (universal_exemption_is_sound Cases.quota_ctx
                   [("A", [("ITA", 5%Z); ("ESP", 10%Z)]);
                    ("B", [("ITA", 5%Z); ("ESP", 10%Z)])]
                   (Some ["5A"; "5B"]) "A" [("ITA", 5%Z); ("ESP", 10%Z)] "ITA" ""
                   eq_refl _ _ eq_refl eq_refl)).
  - repeat constructor; simpl; intuition discriminate.
  - intros cls q [E|[E|[]]]; inversion E; subst;
      repeat constructor; simpl; intuition discriminate.
Defined.

(** ** The profile helpers *)

Lemma Qle_bool_true (x y : Q) : Qle_bool x y = true <-> x <= y.
Proof. apply Qle_bool_iff. Qed.


(** X24.  The two flags follow the marks: a student with marks at least as
    high as those of a head student is a head student, and a student with
    marks at least as high as those of a student who is not in difficulty is
    not in difficulty either. *)
Theorem profile_flags_are_monotone (com tra part com' tra' part' : Q) :
  com <= com' -> tra <= tra' -> part <= part' ->
  (isHeadStudent com tra (Some part) = true ->
   isHeadStudent com' tra' (Some part') = true)
  /\ (isHeadStudent com tra None = true -> isHeadStudent com' tra' None = true)
  /\ (isNiv1Student com tra = false -> isNiv1Student com' tra' = false).
Proof.
  intros Hc Ht Hp. unfold isHeadStudent, isNiv1Student.
  rewrite !orb_true_iff, !orb_false_iff, !Qle_bool_true.
  assert (F : forall x y, Qle_bool x y = false <-> y < x).
  { intros x y. split; intro H.
    - apply Qnot_le_lt. intro C. apply Qle_bool_true in C. congruence.
    - destruct (Qle_bool x y) eqn:E; [|reflexivity].
      apply Qle_bool_true in E. lra. }
  rewrite !F. split; [|split].
  - intros [[H|H]|H]; [left; left; lra | left; right; lra | right].
    apply Qle_shift_div_l; [reflexivity|].
    assert (E : (com + tra + part) / 3 * 3 == com + tra + part) by (field).
    lra.
  - intros [[H|H]|H]; [left; left; lra | left; right; lra | right].
    apply Qle_shift_div_l; [reflexivity|].
    assert (E : (com + tra) / 2 * 2 == com + tra) by (field).
    lra.
  - intros [H1 H2]. split; lra.
Qed.

Lemma profile_flags_are_monotone_witness :
  isHeadStudent 3.5 3.5 (Some 4) = true.
Proof.
  apply (proj1 (profile_flags_are_monotone 3 3.5 4 3.5 3.5 4
                  ltac:(discriminate) ltac:(discriminate) ltac:(discriminate))).
  reflexivity.
Defined.

(** ** The partner class *)

Section Partner.

Variables (byClass : assignment) (allData : list student) (gs : stats).
Variables (wt wn : Z) (wr wa : Q).

(** The class [c] is empty, or its complementarity is below ([strict]) or at
    most [bound]. *)
Let below (strict : bool) (bound : Q) (c : string) : Prop :=
  exists lc, JS.get byClass c = Some lc
             /\ (lc = []
                 \/ exists cs, defined (students_at allData lc) = Some cs
                               /\ if strict
                                  then class_complementarity gs wt wn wr wa cs < bound
                                  else class_complementarity gs wt wn wr wa cs <= bound).

Lemma findPartner_loop_max (classes : list string) :
  forall (bestC : option Q) (bestP r : option string),
    findPartner_loop classes byClass allData gs wt wn wr wa bestC bestP = Some r ->
    (r = bestP
     /\ forall c, In c classes ->
          exists lc, JS.get byClass c = Some lc
                     /\ (lc = [] \/ exists b, bestC = Some b /\ below false b c))
    \/ exists before p after lp ps,
         classes = (before ++ p :: after)%list
         /\ r = Some p
         /\ JS.get byClass p = Some lp /\ lp <> []
         /\ defined (students_at allData lp) = Some ps
         /\ (forall b, bestC = Some b -> b < class_complementarity gs wt wn wr wa ps)
         /\ (forall c, In c before ->
               below true (class_complementarity gs wt wn wr wa ps) c)
         /\ (forall c, In c after ->
               below false (class_complementarity gs wt wn wr wa ps) c).
Proof.
  induction classes as [|cls t IH]; intros bestC bestP r H; simpl in H.
  - left. inversion H. split; [reflexivity | intros ? []].
  - step_as H indices G. destruct indices as [|i0 rest].
    + apply IH in H.
      destruct H as [[-> Hall]|(before & p & after & lp & ps & -> & -> & Gp & Np & Dp
                                & Hb & Hbe & Haf)].
      * left. split; [reflexivity|]. intros c [<-|Hc]; [eauto | auto].
      * right. exists (cls :: before), p, after, lp, ps.
        split; [reflexivity|]. split; [reflexivity|].
        split; [exact Gp|]. split; [exact Np|]. split; [exact Dp|].
        split; [exact Hb|]. split; [|exact Haf].
        intros c [<-|Hc]; [exists []; auto | auto].
    + step_as H cs D.
      fold (class_complementarity gs wt wn wr wa cs) in H.
      set (comp := class_complementarity gs wt wn wr wa cs) in *.
      destruct (match bestC with Some best => JS.gt comp best | None => true end)
        eqn:Better.
      * apply IH in H.
        assert (Hbest : forall b, bestC = Some b -> b < comp).
        { intros b ->. now apply gt_true. }
        destruct H as [[-> Hall]|(before & p & after & lp & ps & -> & -> & Gp & Np & Dp
                                  & Hb & Hbe & Haf)].
        -- right. exists [], cls, t, (i0 :: rest), cs.
           split; [reflexivity|]. split; [reflexivity|].
           split; [exact G|]. split; [discriminate|]. split; [exact D|].
           split; [exact Hbest|]. split; [intros ? []|].
           intros c Hc. destruct (Hall c Hc) as (lc & Gc & [->|(b & Eb & Hbel)]).
           ++ exists []. auto.
           ++ inversion Eb; subst b. exact Hbel.
        -- right. exists (cls :: before), p, after, lp, ps.
           split; [reflexivity|]. split; [reflexivity|].
           split; [exact Gp|]. split; [exact Np|]. split; [exact Dp|].
           pose proof (Hb comp eq_refl) as Hlt.
           split; [intros b Eb; eapply Qlt_trans; eauto|]. split; [|exact Haf].
           intros c [<-|Hc]; [|auto].
           exists (i0 :: rest). split; [exact G|]. right. exists cs. auto.
      * destruct bestC as [best|]; [|discriminate].
        assert (Hle : comp <= best).
        { apply Qnot_lt_le. intro C. apply gt_true in C. congruence. }
        apply IH in H.
        destruct H as [[-> Hall]|(before & p & after & lp & ps & -> & -> & Gp & Np & Dp
                                  & Hb & Hbe & Haf)].
        -- left. split; [reflexivity|]. intros c [<-|Hc]; [|auto].
           exists (i0 :: rest). split; [exact G|]. right. exists best.
           split; [reflexivity|]. exists (i0 :: rest). split; [exact G|].
           right. exists cs. auto.
        -- right. exists (cls :: before), p, after, lp, ps.
           split; [reflexivity|]. split; [reflexivity|].
           split; [exact Gp|]. split; [exact Np|]. split; [exact Dp|].
           split; [exact Hb|]. split; [|exact Haf].
           intros c [<-|Hc]; [|auto].
           exists (i0 :: rest). split; [exact G|]. right. exists cs.
           split; [exact D|]. eapply Qle_lt_trans; [exact Hle | now apply Hb].
Qed.

End Partner.

(** X25.  The targeted choice of the partner.  When the draw does not ask
    for exploration (it is at least 0.2), the partner returned is a class
    with members, other than the worst one, whose complementarity with the
    worst class is the highest of all other classes with members. *)
Theorem findPartnerClass_is_most_complementary (random : nat -> Q)
  (worst : string) (byClass : assignment) (allData : list student) (gs : stats)
  (n n' : nat) (p : string) :
  0.2 <= random n ->
  findPartnerClass_Ultimate random worst byClass allData gs n = Some (Some p, n') ->
  exists lw ws lp ps,
    JS.get byClass worst = Some lw
    /\ defined (students_at allData lw) = Some ws
    /\ p <> worst
    /\ JS.get byClass p = Some lp /\ lp <> []
    /\ defined (students_at allData lp) = Some ps
    /\ forall c, In c (JS.keys byClass) -> c <> worst ->
         exists lc, JS.get byClass c = Some lc
                    /\ (lc = []
                        \/ exists cs, defined (students_at allData lc) = Some cs
                                      /\ complementarity_with gs ws cs
                                         <= complementarity_with gs ws ps).
Proof.
  intros Hdraw H.
  pose proof (findPartnerClass_other _ _ _ _ _ _ _ _ H) as Hother.
  apply other_classes_spec in Hother. destruct Hother as [_ Hne].
  unfold findPartnerClass_Ultimate in H.
  destruct (other_classes byClass worst) as [|c0 cs0] eqn:Ec.
  - step H. discriminate.
  - rewrite <- Ec in H. step_as H lw Gw. destruct lw as [|i0 rest].
    + step H. discriminate.
    + step_as H ws Dw. step_as H best L. step_as H r R.
      unfold Math_random in R. inversion R; subst r n0. clear R.
      assert (Hlt : JS.lt (random n) 0.2 = false).
      { unfold JS.lt. destruct (JS.gt 0.2 (random n)) eqn:G; [|reflexivity].
        apply gt_true in G. lra. }
      rewrite Hlt in H. step H. subst best.
      apply findPartner_loop_max in L.
      destruct L as [[C _]|(before & p' & after & lp & ps & Es & Ep & Gp & Np & Dp
                            & _ & Hbe & Haf)]; [discriminate|].
      inversion Ep; subst p'.
      exists (i0 :: rest), ws, lp, ps.
      split; [exact Gw|]. split; [exact Dw|]. split; [exact Hne|].
      split; [exact Gp|]. split; [exact Np|]. split; [exact Dp|].
      intros c Hc Hcw.
      assert (Hin : In c (other_classes byClass worst))
        by (apply other_classes_spec; auto).
      rewrite Es in Hin. apply in_app_or in Hin.
      unfold complementarity_with.
      destruct Hin as [Hin|[<-|Hin]].
      * destruct (Hbe c Hin) as (lc & Gc & Hcase).
        exists lc. split; [exact Gc|].
        destruct Hcase as [E|(cs & Dc & Hc')]; [now left|].
        right. exists cs. split; [exact Dc | now apply Qlt_le_weak].
      * exists lp. split; [exact Gp|]. right. exists ps.
        split; [exact Dp | apply Qle_refl].
      * destruct (Haf c Hin) as (lc & Gc & Hcase).
        exists lc. split; [exact Gc|].
        destruct Hcase as [E|(cs & Dc & Hc')]; [now left|].
        right. exists cs. split; [exact Dc | exact Hc'].
Qed.

Lemma findPartnerClass_is_most_complementary_witness :
  exists lw ws lp ps,
    JS.get Examples.three_classes "A" = Some lw
    /\ defined (students_at Examples.cohort lw) = Some ws
    /\ "C" <> "A"
    /\ JS.get Examples.three_classes "C" = Some lp /\ lp <> []
    /\ defined (students_at Examples.cohort lp) = Some ps
    /\ forall c, In c (JS.keys Examples.three_classes) -> c <> "A" ->
         exists lc, JS.get Examples.three_classes c = Some lc
                    /\ (lc = []
                        \/ exists cs,
                             defined (students_at Examples.cohort lc) = Some cs
                             /\ complementarity_with
                                  (calculateGlobalStats_Ultimate Examples.cohort) ws cs
                                <= complementarity_with
                                     (calculateGlobalStats_Ultimate Examples.cohort)
                                     ws ps).
Proof.
  apply (findPartnerClass_is_most_complementary (fun _ => 0.5) "A"
           Examples.three_classes Examples.cohort
           (calculateGlobalStats_Ultimate Examples.cohort) 0%nat 1%nat "C").
  - discriminate.
  - vm_compute. reflexivity.
Defined.

(** ** The names of the sheets *)




(** ** The best swap between two classes *)

Section BestSwap.

Variable random : nat -> Q.
Variables (allData : list student) (headers : option (list string)).
Variables (globalStats : stats) (ctx : option context).

(** The state [(bestSwap, maxGain)] of the search: the best gain so far is
    not negative, and a swap kept has a positive gain. *)
Let improving (st : option swap * Q) : Prop :=
  0 <= snd st /\ forall sw, fst st = Some sw -> 0 < gain sw.

Lemma try_pair_improving (i1 : nat) (c1 c2 : string) (l1 l2 : list nat)
  (before : Q) (st : option swap * Q) (n n' : nat) (r : (option swap * Q) * bool) :
  improving st ->
  try_pair random i1 c1 c2 l1 l2 allData headers globalStats ctx before st n
  = Some (r, n') ->
  improving (fst r).
Proof.
  intros [Hpos Hbest] H. unfold try_pair in H. step H. step H.
  destruct x0 as [sw0|].
  - destruct (JS.gt (gain sw0) (snd st)) eqn:G.
    + step H. subst r. simpl. apply gt_true in G. split.
      * apply Qlt_le_weak. eapply Qle_lt_trans; eauto.
      * intros sw Hsw. inversion Hsw; subst sw0. eapply Qle_lt_trans; eauto.
    + step H. subst r. simpl. split; assumption.
  - step H. subst r. simpl. split; assumption.
Qed.

Lemma try_first_improving (sampleSize : nat) (c1 c2 : string) (l1 l2 : list nat)
  (before : Q) (st : option swap * Q) (n n' : nat) (r : (option swap * Q) * bool) :
  improving st ->
  try_first random sampleSize c1 c2 l1 l2 allData headers globalStats ctx before st n
  = Some (r, n') ->
  improving (fst r).
Proof.
  intros HP H. unfold try_first in H. step H. step H. step H.
  destruct (isFixed x1).
  - step H. subst r. exact HP.
  - step H. step H. subst r. simpl.
    refine (for_loop_invariant improving _ _ _ _ _ _ _ HP E2).
    intros st0 m r0 m' HP0 Hb. eapply try_pair_improving; eauto.
Qed.

Lemma findBestSwapBetween_improves (c1 c2 : string) (byClass : assignment)
  (n n' : nat) (sw : swap) :
  findBestSwapBetween_Ultimate random c1 c2 allData byClass headers globalStats ctx n
  = Some (Some sw, n') ->
  0 < gain sw.
Proof.
  unfold findBestSwapBetween_Ultimate. intro H.
  step H. step H. step H. step H. step H. step H.
  assert (I : improving x3).
  { refine (for_loop_invariant improving _ _ _ _ _ _ _ _ E3).
    - intros st0 m r0 m' HP0 Hb. eapply try_first_improving; eauto.
    - split; [apply Qle_refl | discriminate]. }
  apply (proj2 I). inversion E4. reflexivity.
Qed.

End BestSwap.

(** X27.  What [findBestSwapBetween_Ultimate] returns.  A swap it returns
    exchanges a member of the first class and a member of the second one,
    neither of them fixed, which the oracle allows; its gain is the score of
    the two classes before the swap minus their score after it, and it is
    positive. *)
Theorem findBestSwapBetween_returns_an_improvement (random : nat -> Q)
  (c1 c2 : string) (allData : list student) (byClass : assignment)
  (headers : option (list string)) (gs : stats) (ctx : option context)
  (n n' : nat) (sw : swap) :
  findBestSwapBetween_Ultimate random c1 c2 allData byClass headers gs ctx n
  = Some (Some sw, n') ->
  exists l1 l2 s1 s2 hs before1 before2 after1 after2,
    cls1 sw = c1 /\ cls2 sw = c2
    /\ JS.get byClass c1 = Some l1 /\ JS.get byClass c2 = Some l2
    /\ In (idx1 sw) l1 /\ In (idx2 sw) l2
    /\ nth_error allData (idx1 sw) = Some s1 /\ isFixed s1 = false
    /\ nth_error allData (idx2 sw) = Some s2 /\ isFixed s2 = false
    /\ headers = Some hs
    /\ canSwapStudents_Ultimate (idx1 sw) (idx2 sw) c1 c2 l1 l2 allData hs ctx
       = Some true
    /\ calculateScore_Ultimate l1 allData gs c1 ctx = Some before1
    /\ calculateScore_Ultimate l2 allData gs c2 ctx = Some before2
    /\ calculateScore_Ultimate (replace_member l1 (idx1 sw) (idx2 sw)) allData gs c1 ctx
       = Some after1
    /\ calculateScore_Ultimate (replace_member l2 (idx2 sw) (idx1 sw)) allData gs c2 ctx
       = Some after2
    /\ gain sw = before1 + before2 - (after1 + after2)
    /\ 0 < gain sw.
Proof.
  intro H. pose proof (findBestSwapBetween_improves _ _ _ _ _ _ _ _ _ _ _ H) as Hpos.
  apply findBestSwapBetween_candidate in H.
  destruct H as (l1 & l2 & b1 & b2 & G1 & G2 & B1 & B2 & C).
  destruct C as (E1 & E2 & I1 & I2 & (s1 & N1 & F1) & Ev).
  apply evaluate_swap_inv in Ev.
  destruct Ev as (v2 & s2 & hs & a1 & a2 & V & N2 & F2 & Hh & Hc & A1 & A2 & Esw).
  inversion V; subst v2.
  exists l1, l2, s1, s2, hs, b1, b2, a1, a2.
  repeat (split; [assumption|]). split; [|exact Hpos].
  rewrite Esw at 1. reflexivity.
Qed.

Lemma findBestSwapBetween_returns_an_improvement_witness :
  exists sw n',
    findBestSwapBetween_Ultimate (fun _ => 0) "A" "B" Examples.girls_boys
      Examples.two_classes (Some Examples.headers)
      (calculateGlobalStats_Ultimate Examples.girls_boys) (Some Examples.bare_ctx)
      0%nat = Some (Some sw, n')
    /\ cls1 sw = "A" /\ cls2 sw = "B" /\ 0 < gain sw.
Proof.
  destruct (findBestSwapBetween_Ultimate (fun _ => 0) "A" "B" Examples.girls_boys
              Examples.two_classes (Some Examples.headers)
              (calculateGlobalStats_Ultimate Examples.girls_boys)
              (Some Examples.bare_ctx) 0%nat) as [[[sw|] n']|] eqn:E;
    [| vm_compute in E; discriminate | vm_compute in E; discriminate].
  exists sw, n'. split; [reflexivity|].
  destruct (findBestSwapBetween_returns_an_improvement _ _ _ _ _ _ _ _ _ _ _ E)
    as (l1 & l2 & s1 & s2 & hs & b1 & b2 & a1 & a2 & E1 & E2 & H).
  split; [exact E1|]. split; [exact E2|].
  do 15 (destruct H as [_ H]). exact H.
Defined.
